(** * The training control loop of [playground/train.py]

    [main] drives a PPO training run: every external collaborator (the
    vectorised environments, the policy, the PPO agent, the rollout storage,
    numpy, matplotlib, the checkpoint store and the logger) is reached through
    a typed call; the loop itself owns the local variables, the frame budget,
    the curriculum and specialist counters and the checkpoint decisions.

    The embedding keeps that split.  The body of [main] is transcribed
    statement by statement into a small monad that threads the state of the
    outside world, records every external call with its answer, and can raise
    the Python exceptions that the body itself can raise. *)

From Stdlib Require Import ZArith QArith Qround Floats Ascii String List Lia.
From stdpp Require Import base option list sorting strings gmap.

Set Warnings "-inexact-float".
Local Open Scope Z_scope.

(** ** Python values, exceptions and built-ins *)

Inductive exn :=
| NameError (name : string)
| UnboundLocalError (name : string)
| ZeroDivisionError
| IndexError
| KeyError (key : string)
| TypeError.

Inductive result (A : Type) :=
| Ok (a : A)
| Raise (e : exn).
Arguments Ok {A} a.
Arguments Raise {A} e.

Definition rbind {A B} (r : result A) (k : A -> result B) : result B :=
  match r with Ok a => k a | Raise e => Raise e end.

(** [a // b] on Python integers. *)
Definition floordiv (a b : Z) : result Z :=
  if b =? 0 then Raise ZeroDivisionError else Ok (a / b).

(** [int(x)] on a finite float: truncation toward zero.  The two float
    configuration values that only meet [int], [+=] and a comparison with an
    integer ([num_frames], [save_every]) are held as exact rationals. *)
Definition py_int (x : Q) : Z := Z.quot (Qnum x) (Zpos (Qden x)).

(** [a >= b] for an integer [a] and a float [b]. *)
Definition int_ge_float (a : Z) (b : Q) : bool := Qle_bool b (inject_Z a).

(** ["{:d}".format(n)] *)
Definition digit_char (d : Z) : ascii := ascii_of_nat (48 + Z.to_nat d).

Fixpoint fmt_digits (fuel : nat) (n : Z) (acc : string) : string :=
  match fuel with
  | O => acc
  | S fuel' =>
      let acc' := String (digit_char (n mod 10)) acc in
      if n <? 10 then acc' else fmt_digits fuel' (n / 10) acc'
  end.

Definition fmt_d (n : Z) : string :=
  if n <? 0
  then String "-" (fmt_digits (S (Z.to_nat (Z.log2 (- n)))) (- n) "")
  else fmt_digits (S (Z.to_nat (Z.log2 n))) n "".

(** [collections.deque(maxlen=n).append(x)]: the oldest entry falls off the
    left end once the deque is full. *)
Definition deque_append {A} (maxlen : Z) (x : A) (d : list A) : list A :=
  let d' := d ++ [x] in
  drop (length d' - Z.to_nat maxlen)%nat d'.

(** [a[i] = x] on a numpy column of known length. *)
Definition setitem {A} (a : list A) (i : nat) (x : A) : result (list A) :=
  if decide (i < length a)%nat then Ok (<[i := x]> a) else Raise IndexError.

(** Name resolution inside [main].  A name that is assigned somewhere in the
    body is a local of [main]; any other name is looked up among the module's
    globals and the built-ins. *)
Definition main_local_names : list string :=
  ["_seed"; "_config"; "_run"; "args"; "env_name"; "dummy_env"; "envs";
   "test_envs"; "curriculum"; "specialist"; "sampling_threshold"; "plt";
   "fig"; "ax1"; "ax2"; "obs_shape"; "best_model"; "model_path";
   "actor_critic"; "controller"; "mirror_function"; "indices"; "device";
   "agent"; "rollouts"; "current_obs"; "update_current_obs"; "obs";
   "episode_rewards"; "test_episode_rewards"; "num_updates"; "start";
   "next_checkpoint"; "max_ep_reward"; "logger"; "j"; "scheduled_lr";
   "ac_state_dict"; "step"; "value"; "action"; "action_log_prob"; "states";
   "cpu_actions"; "reward"; "done"; "infos"; "temp_states"; "value_samples";
   "size"; "v"; "vs"; "sample_probs"; "bad_masks"; "p_index"; "info"; "keys";
   "masks"; "_"; "next_value"; "value_loss"; "action_loss"; "dist_entropy";
   "frame_count"; "model_name"; "save_model"; "specialist_name";
   "specialist_model"; "end"; "total_num_steps"]%string.

Definition module_global_names : list string :=
  ["copy"; "multiprocessing"; "os"; "time"; "deque"; "current_dir";
   "parent_dir"; "np"; "torch"; "PPO"; "RolloutStorage"; "SoftsignActor";
   "Policy"; "make_env"; "make_vec_envs"; "cleanup_log_dir";
   "get_mirror_function"; "linear_decay"; "exponential_decay";
   "set_optimizer_lr"; "ConsoleCSVLogger"; "ex"; "init"; "gym"; "configs";
   "main"]%string.

Definition builtin_names_used : list string :=
  ["print"; "int"; "float"; "range"; "enumerate"; "len"; "OSError"]%string.

Definition load_name (bound : gset string) (x : string) : result unit :=
  if decide (x ∈ main_local_names)
  then (if decide (x ∈ bound) then Ok tt else Raise (UnboundLocalError x))
  else if decide (x ∈ module_global_names ++ builtin_names_used)
       then Ok tt
       else Raise (NameError x).

(** ** Per-step [info] dictionaries *)

Inductive info_value :=
| InfoDict (d : gmap string float)
| InfoScalar (b : bool).

Abbreviation info := (gmap string info_value).

(** [v["r"]] *)
Definition subscript_r (v : info_value) : result float :=
  match v with
  | InfoDict d =>
      match d !! "r"%string with
      | Some r => Ok r
      | None => Raise (KeyError "r")
      end
  | InfoScalar _ => Raise TypeError
  end.

(** Lines 244-252: the pass over the training workers' infos. *)
Fixpoint scan_infos (maxlen : Z) (p_index : nat) (infos : list info)
    (bad_masks : list float) (episode_rewards : list float)
  : result (list float * list float) :=
  match infos with
  | [] => Ok (bad_masks, episode_rewards)
  | i :: rest =>
      rbind (match i !! "bad_transition"%string with
             | Some _ => setitem bad_masks p_index 0%float
             | None => Ok bad_masks
             end)
        (fun bad_masks' =>
      rbind (match i !! "episode"%string with
             | Some v => rbind (subscript_r v)
                           (fun r => Ok (deque_append maxlen r episode_rewards))
             | None => Ok episode_rewards
             end)
        (fun episode_rewards' =>
      scan_infos maxlen (S p_index) rest bad_masks' episode_rewards'))
  end.

(** Lines 283-288: the pass over the test workers' infos. *)
Fixpoint scan_test_infos (maxlen : Z) (infos : list info)
    (test_episode_rewards : list float) : result (list float) :=
  match infos with
  | [] => Ok test_episode_rewards
  | i :: rest =>
      rbind (match i !! "episode"%string with
             | Some v => rbind (subscript_r v)
                           (fun r => Ok (deque_append maxlen r test_episode_rewards))
             | None => Ok test_episode_rewards
             end)
        (fun rewards' => scan_test_infos maxlen rest rewards')
  end.

(** Line 244: [np.ones((num_processes, 1))] *)
Definition np_ones (n : Z) : list float := replicate (Z.to_nat n) 1%float.

(** Line 254: [[0.0] if done_ else [1.0] for done_ in done] *)
Definition continuation_masks (done : list bool) : list float :=
  map (fun done_ : bool => if done_ then 0%float else 1%float) done.

(** ** External collaborators

    A call names the collaborator's method, carries the arguments [main]
    passes, and is indexed by the type of what the method returns.  Objects
    that [main] holds by reference and that a method may mutate (the
    optimizer, the rollout storage, the policy parameters) are passed in and
    handed back. *)

Section Calls.
Context {tensor net optim storage : Type}.

(** [obs, reward, done, infos = envs.step(...)] *)
Record step_result := StepResult {
  sr_obs : tensor;
  sr_reward : tensor;
  sr_done : list bool;
  sr_infos : list info;
}.

(** [value, action, action_log_prob, states = actor_critic.act(...)] *)
Record act_result := ActResult {
  ar_value : tensor;
  ar_action : tensor;
  ar_log_prob : tensor;
  ar_states : tensor;
}.

(** [value_loss, action_loss, dist_entropy = agent.update(rollouts)], together
    with the parameters and optimizer state the update leaves behind. *)
Record update_result := UpdateResult {
  ur_net : net;
  ur_optim : optim;
  ur_value_loss : float;
  ur_action_loss : float;
  ur_dist_entropy : float;
}.

Inductive ext : Type -> Type :=
(* common.envs_utils: the training and the test environments *)
| EnvsSetMirror (test : bool) (on : bool) : ext unit
| EnvsUpdateCurriculum (level : Z) : ext unit
| EnvsUpdateSpecialist (id : Z) : ext unit
| EnvsReset : ext tensor
| EnvsStep (cpu_actions : tensor) : ext step_result
| EnvsCreateTempStates : ext tensor
| EnvsUpdateSampleProb (sample_probs : tensor) : ext unit
| TestEnvsReset : ext tensor
| TestEnvsStep (cpu_actions : tensor) : ext step_result
(* common.controller, torch *)
| TorchLoad (file : string) : ext net
| MakePolicy (num_ensembles : Z) : ext net
| Act (p : net) (obs : tensor) (states masks : option tensor)
      (deterministic : bool) : ext act_result
| GetValue (p : net) (obs : tensor) (states masks : option tensor) : ext tensor
| StateDictCopy (p : net) : ext unit      (* copy.deepcopy(p).cpu().state_dict() *)
| Deepcopy (p : net) : ext unit           (* copy.deepcopy(p).cpu() *)
| TorchSave (p : net) (dir file : string) : ext unit
(* algorithms.ppo, common.misc_utils *)
| MakePPO (p : net) (mirror : bool) : ext optim
| SetOptimizerLr (o : optim) (lr : float) : ext optim
| AgentUpdate (p : net) (o : optim) (r : storage) : ext update_result
(* algorithms.storage *)
| MakeStorage (num_steps num_processes : Z) : ext storage
| CopyObs0 (r : storage) (obs : tensor) : ext storage
| Insert (r : storage) (obs states action log_prob value reward : tensor)
         (masks bad_masks : list float) : ext storage
| ComputeReturns (r : storage) (next_value : tensor) (use_gae : bool)
                 (gamma gae_lambda : float) : ext storage
| AfterUpdate (r : storage) : ext storage
(* numpy aggregates *)
| NpMedian (xs : list float) : ext float
| NpMean (xs : list float) : ext float
(* matplotlib, print, common.csv_utils *)
| MakeFigure : ext unit
| Pcolormesh (axes : string) (data : tensor) : ext unit
| CanvasDraw : ext unit
| PrintLevel (label : string) (level : Z) : ext unit
| PrintTensor (data : tensor) : ext unit
| LogEpoch (iter total_num_steps : Z)
           (entropy value_loss action_loss : float)
           (rew test_rew : list float) : ext unit.

End Calls.
Arguments step_result : clear implicits.
Arguments act_result : clear implicits.
Arguments update_result : clear implicits.
Arguments ext : clear implicits.

(** The collaborators of one run.  [handle] answers a call from the current
    state of the outside world (simulator workers, random streams, figure,
    files); the remaining fields are the pure library functions [main] uses. *)
Class Collab := {
  tensor : Type;
  net : Type;
  optim : Type;
  storage : Type;
  world : Type;
  handle : forall R, ext tensor net optim storage R -> world -> world * R;
  (* numpy *)
  np_median : list float -> float;
  np_mean : list float -> float;
  np_round : tensor -> Z -> tensor;
  (* common.misc_utils *)
  linear_decay : Z -> Z -> float -> float -> float;
  exponential_decay : Z -> float -> float -> float -> float;
  (* rollouts.observations[i], rollouts.states[i], rollouts.masks[i] *)
  observations_at : storage -> Z -> tensor;
  states_at : storage -> Z -> tensor;
  masks_at : storage -> Z -> tensor;
  (* torch *)
  torch_zeros : Z -> tensor;
  (* current_obs[:, -shape_dim0:] = obs *)
  assign_obs : tensor -> tensor -> tensor;
  (* value_samples.mean(dim=0).view(size, size), .var(dim=0).view(size, size) *)
  value_mean : tensor -> tensor;
  value_var : tensor -> tensor;
  (* (-value_samples / 5).softmax(dim=1).view(num_processes, size, size) *)
  adaptive_probs : tensor -> Z -> tensor;
  (* (value_samples - threshold).abs().mul(-1 / 50).softmax(dim=1).view(...) *)
  threshold_probs : tensor -> float -> Z -> tensor;
  (* sample_probs[0, :, :] *)
  first_worker : tensor -> tensor;
}.

Section Model.
Context `{C : Collab}.

Abbreviation call_t := (ext tensor net optim storage).

(** One line of the run's log: a call and what it returned. *)
Inductive entry :=
| Called {R : Type} (c : call_t R) (r : R).

(** ** The monad of [main] *)

Definition M (A : Type) : Type := world -> list entry * world * result A.

Definition ret {A} (a : A) : M A := fun w => ([], w, Ok a).

Definition raise {A} (e : exn) : M A := fun w => ([], w, Raise e).

Definition bind {A B} (m : M A) (k : A -> M B) : M B :=
  fun w =>
    match m w with
    | (t1, w1, Ok a) =>
        match k a w1 with
        | (t2, w2, r) => (t1 ++ t2, w2, r)
        end
    | (t1, w1, Raise e) => (t1, w1, Raise e)
    end.

(** An external call: answered by the world, which moves on. *)
Definition call {R} (c : call_t R) : M R :=
  fun w => let (w', r) := handle R c w in ([Called c r], w', Ok r).

(** A call into a pure library function: logged, the world is untouched. *)
Definition pure_call {R} (c : call_t R) (r : R) : M R :=
  fun w => ([Called c r], w, Ok r).

Definition lift {A} (r : result A) : M A :=
  match r with Ok a => ret a | Raise e => raise e end.

Definition when (b : bool) (m : M unit) : M unit := if b then m else ret tt.

(** What a run logs, where it leaves the world, and how it ends. *)
Definition trace_of {A} (m : M A) (w : world) : list entry := (m w).1.1.
Definition world_of {A} (m : M A) (w : world) : world := (m w).1.2.
Definition outcome_of {A} (m : M A) (w : world) : result A := (m w).2.

End Model.

Abbreviation call_t := (ext tensor net optim storage).

Declare Scope py_scope.
Delimit Scope py_scope with py.
Notation "x <- m ;; k" := (bind m (fun x => k))
  (at level 100, m at next level, right associativity) : py_scope.
Notation "m ;;; k" := (bind m (fun _ => k))
  (at level 100, right associativity) : py_scope.
Open Scope py_scope.

(** ** Configuration and local variables of [main] *)

(** The fields of [args] that [main] reads, with the two attributes of
    [dummy_env] it needs. *)
Record config := Config {
  env_name : string;
  num_frames : Q;
  save_every : Q;
  load_saved_controller : bool;
  use_mirror : bool;
  use_phase_mirror : bool;
  use_curriculum : bool;
  use_adaptive_sampling : bool;
  use_specialist : bool;
  use_threshold_sampling : bool;
  plot_prob : bool;
  cuda : bool;
  num_processes : Z;
  num_steps : Z;
  num_tests : Z;
  num_ensembles : Z;
  use_gae : bool;
  lr_decay_type : string;
  gamma : float;
  gae_lambda : float;
  lr : float;
  save_dir : string;
  max_episode_steps : Z;      (* dummy_env._max_episode_steps *)
}.

Section Body.
Context `{C : Collab}.

(** The locals that live across statements.  [curriculum], [specialist] and
    [sampling_threshold] are bound only under their feature flag; [handles]
    holds which of [plt], [fig], [ax1], [ax2] are bound. *)
Record locals := Locals {
  handles : gset string;
  curriculum : option Z;
  specialist : option Z;
  sampling_threshold : option float;
  actor_critic : net;
  agent_optimizer : optim;
  rollouts : storage;
  current_obs : tensor;
  episode_rewards : list float;
  test_episode_rewards : list float;
  next_checkpoint : Q;
  max_ep_reward : float;
}.

Definition set_curriculum (v : option Z) (l : locals) : locals :=
  Locals l.(handles) v l.(specialist) l.(sampling_threshold) l.(actor_critic)
    l.(agent_optimizer) l.(rollouts) l.(current_obs) l.(episode_rewards)
    l.(test_episode_rewards) l.(next_checkpoint) l.(max_ep_reward).

Definition set_specialist (v : option Z) (l : locals) : locals :=
  Locals l.(handles) l.(curriculum) v l.(sampling_threshold) l.(actor_critic)
    l.(agent_optimizer) l.(rollouts) l.(current_obs) l.(episode_rewards)
    l.(test_episode_rewards) l.(next_checkpoint) l.(max_ep_reward).

Definition set_actor_critic (v : net) (l : locals) : locals :=
  Locals l.(handles) l.(curriculum) l.(specialist) l.(sampling_threshold) v
    l.(agent_optimizer) l.(rollouts) l.(current_obs) l.(episode_rewards)
    l.(test_episode_rewards) l.(next_checkpoint) l.(max_ep_reward).

Definition set_agent_optimizer (v : optim) (l : locals) : locals :=
  Locals l.(handles) l.(curriculum) l.(specialist) l.(sampling_threshold)
    l.(actor_critic) v l.(rollouts) l.(current_obs) l.(episode_rewards)
    l.(test_episode_rewards) l.(next_checkpoint) l.(max_ep_reward).

Definition set_rollouts (v : storage) (l : locals) : locals :=
  Locals l.(handles) l.(curriculum) l.(specialist) l.(sampling_threshold)
    l.(actor_critic) l.(agent_optimizer) v l.(current_obs) l.(episode_rewards)
    l.(test_episode_rewards) l.(next_checkpoint) l.(max_ep_reward).

Definition set_current_obs (v : tensor) (l : locals) : locals :=
  Locals l.(handles) l.(curriculum) l.(specialist) l.(sampling_threshold)
    l.(actor_critic) l.(agent_optimizer) l.(rollouts) v l.(episode_rewards)
    l.(test_episode_rewards) l.(next_checkpoint) l.(max_ep_reward).

Definition set_episode_rewards (v : list float) (l : locals) : locals :=
  Locals l.(handles) l.(curriculum) l.(specialist) l.(sampling_threshold)
    l.(actor_critic) l.(agent_optimizer) l.(rollouts) l.(current_obs) v
    l.(test_episode_rewards) l.(next_checkpoint) l.(max_ep_reward).

Definition set_test_episode_rewards (v : list float) (l : locals) : locals :=
  Locals l.(handles) l.(curriculum) l.(specialist) l.(sampling_threshold)
    l.(actor_critic) l.(agent_optimizer) l.(rollouts) l.(current_obs)
    l.(episode_rewards) v l.(next_checkpoint) l.(max_ep_reward).

Definition set_next_checkpoint (v : Q) (l : locals) : locals :=
  Locals l.(handles) l.(curriculum) l.(specialist) l.(sampling_threshold)
    l.(actor_critic) l.(agent_optimizer) l.(rollouts) l.(current_obs)
    l.(episode_rewards) l.(test_episode_rewards) v l.(max_ep_reward).

Definition set_max_ep_reward (v : float) (l : locals) : locals :=
  Locals l.(handles) l.(curriculum) l.(specialist) l.(sampling_threshold)
    l.(actor_critic) l.(agent_optimizer) l.(rollouts) l.(current_obs)
    l.(episode_rewards) l.(test_episode_rewards) l.(next_checkpoint) v.

(** Reading a local that may not have been bound yet. *)
Definition load_local {A} (name : string) (v : option A) : M A :=
  match v with
  | Some a => ret a
  | None => raise (UnboundLocalError name)
  end.

(** [for i in range(n): s = body(i, s)] *)
Fixpoint for_loop {St} (n : nat) (i : Z) (body : Z -> St -> M St) (s : St)
  : M St :=
  match n with
  | O => ret s
  | S n' => s' <- body i s ;; for_loop n' (i + 1) body s'
  end.

Definition for_range {St} (n : Z) (body : Z -> St -> M St) (s : St) : M St :=
  for_loop (Z.to_nat n) 0 body s.

(** ** The body of the update loop, in source order *)

(** Lines 182-187. *)
Definition scheduled_lr (args : config) (num_updates j : Z) : float :=
  if String.eqb args.(lr_decay_type) "linear"
  then linear_decay j num_updates args.(lr) 0%float
  else if String.eqb args.(lr_decay_type) "exponential"
       then exponential_decay j 0.99%float args.(lr) 3e-5%float
       else args.(lr).

(** Lines 182-191: set the learning rate, take the parameter copy. *)
Definition schedule (args : config) (num_updates j : Z) (l : locals) : M locals :=
  o <- call (SetOptimizerLr l.(agent_optimizer) (scheduled_lr args num_updates j)) ;;
  call (StateDictCopy l.(actor_critic)) ;;;
  ret (set_agent_optimizer o l).

(** Lines 206-217. *)
Definition plot_values (l : locals) : M unit :=
  temp_states <- call EnvsCreateTempStates ;;
  value_samples <- call (GetValue l.(actor_critic) temp_states None None) ;;
  let v := value_mean value_samples in
  let vs := value_var value_samples in
  lift (load_name l.(handles) "ax1") ;;;
  call (Pcolormesh "ax1" v) ;;;
  lift (load_name l.(handles) "ax2") ;;;
  call (Pcolormesh "ax2" vs) ;;;
  call (PrintTensor (np_round v 2)) ;;;
  lift (load_name l.(handles) "fig") ;;;
  call CanvasDraw.

(** Lines 219-227. *)
Definition adaptive_sampling (args : config) (l : locals) : M unit :=
  temp_states <- call EnvsCreateTempStates ;;
  value_samples <- call (GetValue l.(actor_critic) temp_states None None) ;;
  call (EnvsUpdateSampleProb (adaptive_probs value_samples args.(num_processes))).

(** Lines 228-242. *)
Definition threshold_sampling (args : config) (step : Z) (l : locals) : M unit :=
  temp_states <- call EnvsCreateTempStates ;;
  value_samples <- call (GetValue l.(actor_critic) temp_states None None) ;;
  threshold <- load_local "sampling_threshold" l.(sampling_threshold) ;;
  let sample_probs :=
    threshold_probs value_samples threshold args.(num_processes) in
  when (args.(plot_prob) && (step =? 0))
    (lift (load_name l.(handles) "ax") ;;;
     call (Pcolormesh "ax" (first_worker sample_probs)) ;;;
     call (PrintTensor (np_round (first_worker sample_probs) 4)) ;;;
     lift (load_name l.(handles) "fig") ;;;
     call CanvasDraw) ;;;
  call (EnvsUpdateSampleProb sample_probs).

(** Lines 194-267: one collection step. *)
Definition collect_step (args : config) (step : Z) (l : locals) : M locals :=
  a <- call (Act l.(actor_critic)
               (observations_at l.(rollouts) step)
               (Some (states_at l.(rollouts) step))
               (Some (masks_at l.(rollouts) step)) false) ;;
  sr <- call (EnvsStep a.(ar_action)) ;;
  when (args.(plot_prob) && (step =? 0)) (plot_values l) ;;;
  when args.(use_adaptive_sampling) (adaptive_sampling args l) ;;;
  when args.(use_threshold_sampling) (threshold_sampling args step l) ;;;
  scanned <- lift (scan_infos args.(num_processes) 0 sr.(sr_infos)
                     (np_ones args.(num_processes)) l.(episode_rewards)) ;;
  let bad_masks := fst scanned in
  let masks := continuation_masks sr.(sr_done) in
  let obs' := assign_obs l.(current_obs) sr.(sr_obs) in
  r <- call (Insert l.(rollouts) obs' a.(ar_states) a.(ar_action)
               a.(ar_log_prob) a.(ar_value) sr.(sr_reward) masks bad_masks) ;;
  ret (set_rollouts r (set_current_obs obs'
         (set_episode_rewards (snd scanned) l))).

(** Lines 193-267. *)
Definition collect (args : config) (l : locals) : M locals :=
  for_range args.(num_steps) (collect_step args) l.

(** Lines 273-288: one step of the test episode. *)
Definition evaluate_step (args : config) (step : Z) (s : tensor * locals)
  : M (tensor * locals) :=
  a <- call (Act (snd s).(actor_critic) (fst s) None None true) ;;
  sr <- call (TestEnvsStep a.(ar_action)) ;;
  rewards <- lift (scan_test_infos args.(num_tests) sr.(sr_infos)
                     (snd s).(test_episode_rewards)) ;;
  ret (sr.(sr_obs), set_test_episode_rewards rewards (snd s)).

(** Lines 270-288. *)
Definition evaluate (args : config) (l : locals) : M locals :=
  obs <- call TestEnvsReset ;;
  s <- for_range args.(max_episode_steps) (evaluate_step args) (obs, l) ;;
  ret (snd s).

(** Lines 291-294. *)
Definition escalate_curriculum (args : config) (l : locals) : M locals :=
  exceeded <- (if args.(use_curriculum)
               then m <- pure_call (NpMedian l.(episode_rewards))
                           (np_median l.(episode_rewards)) ;;
                    ret (900 <? m)%float
               else ret false) ;;
  if (exceeded : bool)
  then c <- load_local "curriculum" l.(curriculum) ;;
       call (PrintLevel "curriculum" (c + 1)) ;;;
       call (EnvsUpdateCurriculum (c + 1)) ;;;
       ret (set_curriculum (Some (c + 1)) l)
  else ret l.

(** Lines 296-301. *)
Definition advantage (args : config) (l : locals) : M locals :=
  next_value <- call (GetValue l.(actor_critic)
                        (observations_at l.(rollouts) (-1))
                        (Some (states_at l.(rollouts) (-1)))
                        (Some (masks_at l.(rollouts) (-1)))) ;;
  r <- call (ComputeReturns l.(rollouts) next_value args.(use_gae)
               args.(gamma) args.(gae_lambda)) ;;
  ret (set_rollouts r l).

(** Lines 303-305. *)
Definition optimize (l : locals) : M (update_result net optim * locals) :=
  u <- call (AgentUpdate l.(actor_critic) l.(agent_optimizer) l.(rollouts)) ;;
  r <- call (AfterUpdate l.(rollouts)) ;;
  ret (u, set_rollouts r (set_agent_optimizer u.(ur_optim)
            (set_actor_critic u.(ur_net) l))).

(** The file names of lines 311, 314, 322 and 333. *)
Definition checkpoint_name (args : config) (n : Z) : string :=
  args.(env_name) +:+ "_" +:+ fmt_d n +:+ ".pt".

Definition latest_name (args : config) : string :=
  args.(env_name) +:+ "_latest.pt".

Definition specialist_name (args : config) (id : Z) : string :=
  args.(env_name) +:+ "_specialist_" +:+ fmt_d id +:+ ".pt".

Definition best_name (args : config) : string :=
  args.(env_name) +:+ "_best.pt".

(** Lines 307-314: is this update a periodic checkpoint? *)
Definition checkpoint_due (args : config) (num_updates j : Z) (l : locals) : bool :=
  (int_ge_float ((j + 1) * args.(num_steps) * args.(num_processes))
     l.(next_checkpoint)
   || (j =? num_updates - 1))
  && negb (String.eqb args.(save_dir) "").

(** Lines 321-328. *)
Definition fork_specialist (args : config) (l : locals) : M locals :=
  exceeded <- (if args.(use_specialist)
               then m <- pure_call (NpMean l.(episode_rewards))
                           (np_mean l.(episode_rewards)) ;;
                    ret (1000 <? m)%float
               else ret false) ;;
  if (exceeded : bool)
  then s <- load_local "specialist" l.(specialist) ;;
       when args.(cuda) (call (Deepcopy l.(actor_critic))) ;;;
       call (TorchSave l.(actor_critic) args.(save_dir)
               (specialist_name args s)) ;;;
       call (EnvsUpdateSpecialist (s + 1)) ;;;
       ret (set_specialist (Some (s + 1)) l)
  else ret l.

(** Lines 332-335. *)
Definition save_best (args : config) (save_model : net) (l : locals) : M locals :=
  improved <- (if (1 <? Z.of_nat (length l.(episode_rewards)))
               then m <- pure_call (NpMean l.(episode_rewards))
                           (np_mean l.(episode_rewards)) ;;
                    ret (l.(max_ep_reward) <? m)%float
               else ret false) ;;
  if (improved : bool)
  then m <- pure_call (NpMean l.(episode_rewards))
              (np_mean l.(episode_rewards)) ;;
       call (TorchSave save_model args.(save_dir) (best_name args)) ;;;
       ret (set_max_ep_reward m l)
  else ret l.

(** Lines 337-351.  The [fps] entry, a wall-clock quotient, is not part of
    the record kept here. *)
Definition log_metrics (args : config) (j : Z)
    (u : update_result net optim) (l : locals) : M unit :=
  when (1 <? Z.of_nat (length l.(episode_rewards)))
    (call (LogEpoch (j + 1) ((j + 1) * args.(num_processes) * args.(num_steps))
             u.(ur_dist_entropy) u.(ur_value_loss) u.(ur_action_loss)
             l.(episode_rewards) l.(test_episode_rewards))).

(** Lines 307-351.  The sum of line 312 is written on exact rationals; it
    is the sum the code computes on doubles when [next_checkpoint] and
    [save_every] are whole numbers of magnitude at most 2^53, their sum
    included, which the statements that depend on the value of
    [next_checkpoint] assume. *)
Definition checkpoint (args : config) (num_updates j : Z)
    (u : update_result net optim) (l : locals) : M locals :=
  let due := checkpoint_due args num_updates j l in
  let model_name :=
    if due then checkpoint_name args (py_int l.(next_checkpoint))
    else latest_name args in
  let l := if due
           then set_next_checkpoint (l.(next_checkpoint) + args.(save_every))%Q l
           else l in
  when args.(cuda) (call (Deepcopy l.(actor_critic))) ;;;
  let save_model := l.(actor_critic) in
  l <- fork_specialist args l ;;
  call (TorchSave save_model args.(save_dir) model_name) ;;;
  l <- save_best args save_model l ;;
  log_metrics args j u l ;;;
  ret l.

(** Lines 181-351: the body of [for j in range(num_updates)]. *)
Definition update (args : config) (num_updates j : Z) (l : locals) : M locals :=
  l <- schedule args num_updates j l ;;
  l <- collect args l ;;
  l <- evaluate args l ;;
  l <- escalate_curriculum args l ;;
  l <- advantage args l ;;
  ul <- optimize l ;;
  checkpoint args num_updates j (fst ul) (snd ul).

(** ** Set-up and [main] *)

(** Lines 99-174.  The two deques of lines 168-169 are built for sizes
    [num_processes] and [num_tests] that are not negative; for a negative
    size [deque(maxlen=...)] raises [ValueError], which is not modelled:
    statements about whole runs assume [0 <= num_processes] and
    [0 <= num_tests]. *)
Definition setup (args : config) : M locals :=
  call (EnvsSetMirror false args.(use_phase_mirror)) ;;;
  call (EnvsSetMirror true args.(use_phase_mirror)) ;;;
  curriculum <- (if args.(use_curriculum)
                 then call (PrintLevel "curriculum" 0) ;;;
                      call (EnvsUpdateCurriculum 0) ;;;
                      ret (Some 0)
                 else ret None) ;;
  specialist <- (if args.(use_specialist)
                 then call (PrintLevel "specialist" 0) ;;;
                      call (EnvsUpdateSpecialist 0) ;;;
                      ret (Some 0)
                 else ret None) ;;
  let sampling_threshold :=
    if args.(use_threshold_sampling) then Some 150%float else None in
  handles <- (if args.(plot_prob)
              then call MakeFigure ;;;
                   ret ({["plt"; "fig"; "ax1"; "ax2"]} : gset string)
              else ret ∅) ;;
  actor_critic <- (if args.(load_saved_controller)
                   then call (TorchLoad (latest_name args))
                   else call (MakePolicy args.(num_ensembles))) ;;
  agent <- call (MakePPO actor_critic args.(use_mirror)) ;;
  rollouts <- call (MakeStorage args.(num_steps) args.(num_processes)) ;;
  obs <- call EnvsReset ;;
  let current_obs := assign_obs (torch_zeros args.(num_processes)) obs in
  rollouts <- call (CopyObs0 rollouts current_obs) ;;
  ret (Locals handles curriculum specialist sampling_threshold actor_critic
         agent rollouts current_obs [] [] args.(save_every) neg_infinity).

(** Line 170. *)
Definition num_updates_of (args : config) : result Z :=
  rbind (floordiv (py_int args.(num_frames)) args.(num_steps))
    (fun q => floordiv q args.(num_processes)).

(** Lines 99-351.  [train] is [main] with the final locals kept for
    inspection; [main] itself returns nothing. *)
Definition train (args : config) : M locals :=
  l <- setup args ;;
  num_updates <- lift (num_updates_of args) ;;
  for_range num_updates (update args num_updates) l.

Definition main (args : config) : M unit :=
  train args ;;; ret tt.

End Body.

(** ** The default configuration

    Lines 30-78, as far as [main] reads it.  [cuda] is
    [torch.cuda.is_available()]; the directory to save to and the length of
    a test episode are not set by [configs] (they come from [init] and from
    the environment) and are taken as given. *)
Definition episode_steps : Z := 40000.

Definition mini_batch_size : Z := 1024.

Definition num_mini_batch : Z := episode_steps / mini_batch_size.

Definition configs (cuda_available : bool) (dir : string)
    (episode_length : Z) : config :=
  let processes := 100 in {|
  env_name := "CassieStepper-v1";
  num_frames := 60000000;
  save_every := 10000000;
  load_saved_controller := false;
  use_mirror := false;
  use_phase_mirror := false;
  use_curriculum := false;
  use_adaptive_sampling := false;
  use_specialist := false;
  use_threshold_sampling := false;
  plot_prob := false;
  cuda := cuda_available;
  num_processes := processes;
  num_steps := episode_steps / processes;
  num_tests := 4;
  num_ensembles := 1;
  use_gae := true;
  lr_decay_type := "exponential";
  gamma := 0.99%float;
  gae_lambda := 0.95%float;
  lr := 0.0003%float;
  save_dir := dir;
  max_episode_steps := episode_length;
|}.

(** ** Reading a run's log *)

Section Observations.
Context `{C : Collab}.

(** The stretch of the loop body a call belongs to, in source order; [Setup]
    gathers the calls made before the loop. *)
Inductive phase :=
| Setup | Schedule | Collect | Evaluate | Escalate | Advantage | Optimize
| Checkpoint.

Definition phase_of (e : entry) : phase :=
  match e with
  | Called c _ =>
      match c with
      | EnvsSetMirror _ _ | EnvsReset | TorchLoad _ | MakePolicy _
      | MakePPO _ _ | MakeStorage _ _ | CopyObs0 _ _ | MakeFigure => Setup
      | SetOptimizerLr _ _ | StateDictCopy _ => Schedule
      | Act _ _ _ _ false | EnvsStep _ | EnvsCreateTempStates
      | GetValue _ _ None _ | Pcolormesh _ _ | PrintTensor _ | CanvasDraw
      | EnvsUpdateSampleProb _ | Insert _ _ _ _ _ _ _ _ _ => Collect
      | Act _ _ _ _ true | TestEnvsReset | TestEnvsStep _ => Evaluate
      | NpMedian _ | PrintLevel _ _ | EnvsUpdateCurriculum _ => Escalate
      | GetValue _ _ (Some _) _ | ComputeReturns _ _ _ _ _ => Advantage
      | AgentUpdate _ _ _ | AfterUpdate _ => Optimize
      | Deepcopy _ | NpMean _ | TorchSave _ _ _ | EnvsUpdateSpecialist _
      | LogEpoch _ _ _ _ _ _ _ => Checkpoint
      end
  end.

(** Position of a phase in the loop body as the source has it: the
    curriculum decision sits between evaluation and the advantage pass. *)
Definition source_rank (p : phase) : nat :=
  match p with
  | Setup => 0 | Schedule => 1 | Collect => 2 | Evaluate => 3 | Escalate => 4
  | Advantage => 5 | Optimize => 6 | Checkpoint => 7
  end.

(** Position of a phase in the state machine as the specification lists it:
    the curriculum decision is part of CHECKPOINT/ADAPT. *)
Definition stated_rank (p : phase) : nat :=
  match p with
  | Setup => 0 | Schedule => 1 | Collect => 2 | Evaluate => 3
  | Advantage => 5 | Optimize => 6 | Escalate | Checkpoint => 7
  end.

(** No call of a later phase is logged before a call of an earlier one. *)
Definition in_order (rank : phase -> nat) (tr : list entry) : Prop :=
  StronglySorted (fun e1 e2 => (rank (phase_of e1) <= rank (phase_of e2))%nat) tr.

Definition curriculum_pushes (tr : list entry) : list Z :=
  flat_map (fun e => match e with
                     | Called (EnvsUpdateCurriculum level) _ => [level]
                     | _ => []
                     end) tr.

Definition specialist_pushes (tr : list entry) : list Z :=
  flat_map (fun e => match e with
                     | Called (EnvsUpdateSpecialist id) _ => [id]
                     | _ => []
                     end) tr.

(** The models written under a given file name. *)
Definition saved_under (file : string) (tr : list entry) : list net :=
  flat_map (fun e => match e with
                     | Called (TorchSave p _ f) _ =>
                         if String.eqb f file then [p] else []
                     | _ => []
                     end) tr.

(** The inputs on which [np.median] or [np.mean] was evaluated. *)
Definition aggregated (tr : list entry) : list (list float) :=
  flat_map (fun e => match e with
                     | Called (NpMedian xs) _ => [xs]
                     | Called (NpMean xs) _ => [xs]
                     | _ => []
                     end) tr.

(** The metrics records handed to the logger: their reward lists. *)
Definition logged (tr : list entry) : list (list float) :=
  flat_map (fun e => match e with
                     | Called (LogEpoch _ _ _ _ _ rew _) _ => [rew]
                     | _ => []
                     end) tr.

(** The learning rates handed to [set_optimizer_lr]. *)
Definition lr_settings (tr : list entry) : list float :=
  flat_map (fun e => match e with
                     | Called (SetOptimizerLr _ v) _ => [v]
                     | _ => []
                     end) tr.

(** The optimizers [set_optimizer_lr] handed back. *)
Definition lr_answers (tr : list entry) : list optim :=
  flat_map (fun e => match e with
                     | Called c r =>
                         match c in ext _ _ _ _ R return R -> list optim with
                         | SetOptimizerLr _ _ => fun o => [o]
                         | _ => fun _ => []
                         end r
                     end) tr.

(** Modelled from the spec: [Policy.act] and [Policy.get_value] of
    [common.controller] are not among the sources; "all other phases
    (collection, evaluation, probing) only read": a call of either is a read
    of the parameters it is made on. *)
Definition policy_reads (tr : list entry) : list net :=
  flat_map (fun e => match e with
                     | Called (Act p _ _ _ _) _ => [p]
                     | Called (GetValue p _ _ _) _ => [p]
                     | _ => []
                     end) tr.

(** Modelled from the spec: [PPO.update] of [algorithms.ppo] is not among the
    sources; "the live policy/value parameters are mutated exclusively by the
    PPO Optimizer": a call of [agent.update] is a write, from the parameters
    handed to it to those it leaves behind. *)
Definition policy_writes (tr : list entry) : list (net * net) :=
  flat_map (fun e => match e with
                     | Called c r =>
                         match c in ext _ _ _ _ R return R -> list (net * net) with
                         | AgentUpdate p _ _ => fun u => [(p, u.(ur_net))]
                         | _ => fun _ => []
                         end r
                     end) tr.

(** The optimizer each [agent.update] ran with. *)
Definition update_optims (tr : list entry) : list optim :=
  flat_map (fun e => match e with
                     | Called (AgentUpdate _ o _) _ => [o]
                     | _ => []
                     end) tr.

(** What the training environments answered to each [step]. *)
Definition step_answers (tr : list entry) : list (step_result tensor) :=
  flat_map (fun e => match e with
                     | Called c r =>
                         match c in ext _ _ _ _ R
                               return R -> list (step_result tensor) with
                         | EnvsStep _ => fun sr => [sr]
                         | _ => fun _ => []
                         end r
                     end) tr.

(** The [(masks, bad_masks)] of each [rollouts.insert]. *)
Definition inserted_masks (tr : list entry) : list (list float * list float) :=
  flat_map (fun e => match e with
                     | Called (Insert _ _ _ _ _ _ _ masks bad_masks) _ =>
                         [(masks, bad_masks)]
                     | _ => []
                     end) tr.

(** Every [torch.save] of a log: the parameters saved, the directory and the
    file name. *)
Definition saves (tr : list entry) : list (net * string * string) :=
  flat_map (fun e => match e with
                     | Called (TorchSave p d f) _ => [(p, d, f)]
                     | _ => []
                     end) tr.

(** What the test environments answered to each [step], and how often they
    were reset. *)
Definition test_answers (tr : list entry) : list (step_result tensor) :=
  flat_map (fun e => match e with
                     | Called c r =>
                         match c in ext _ _ _ _ R
                               return R -> list (step_result tensor) with
                         | TestEnvsStep _ => fun sr => [sr]
                         | _ => fun _ => []
                         end r
                     end) tr.

Definition test_resets (tr : list entry) : nat :=
  length (flat_map (fun e => match e with
                             | Called TestEnvsReset _ => [tt]
                             | _ => []
                             end) tr).

(** The sampling of lines 206-242 as the trace shows it: the states
    [envs.create_temp_states] answered, the values [get_value] answered on
    given states with neither recurrent states nor masks, and the tables
    handed to [envs.update_sample_prob]. *)
Inductive probe :=
| Made (temp_states : tensor)
| Probed (p : net) (temp_states value_samples : tensor)
| Pushed (sample_probs : tensor).

Definition sampling_events (tr : list entry) : list probe :=
  flat_map (fun e => match e with
                     | Called c r =>
                         match c in ext _ _ _ _ R return R -> list probe with
                         | EnvsCreateTempStates => fun ts => [Made ts]
                         | GetValue p ts None None => fun v => [Probed p ts v]
                         | EnvsUpdateSampleProb sp => fun _ => [Pushed sp]
                         | _ => fun _ => []
                         end r
                     end) tr.

(** The episode returns a list of infos reports, in worker order: the ["r"]
    of every ["episode"] entry. *)
Definition returns_of (infos : list info) : list float :=
  flat_map (fun i : info =>
              match i !! "episode"%string with
              | Some (InfoDict d) =>
                  match d !! "r"%string with
                  | Some r => [r]
                  | None => []
                  end
              | _ => []
              end) infos.

(** Infos the scans of lines 245-252 and 283-288 go through without an
    error: every ["episode"] entry is a dictionary with the key ["r"]. *)
Definition episodes_well_formed (infos : list info) : Prop :=
  Forall (fun i : info =>
            match i !! "episode"%string with
            | Some (InfoDict d) => is_Some (d !! "r"%string)
            | Some (InfoScalar _) => False
            | None => True
            end) infos.

(** A deque of [maxlen] after the entries [xs] were appended one by one. *)
Definition deque_extend {A} (maxlen : Z) (xs : list A) (d : list A) : list A :=
  foldl (fun d x => deque_append maxlen x d) d xs.

(** A specification in three parts: what holds of the log, of the result of
    a normal end, and of the exception otherwise. *)
Definition holds {A} (T : list entry -> Prop) (I : A -> Prop)
    (E : exn -> Prop) : list entry -> result A -> Prop :=
  fun t r => T t /\ match r with Ok a => I a | Raise e => E e end.

(** The locals bound under a flag only (lines 104-119) are bound when the
    flag is set. *)
Definition ready (args : config) (l : locals) : Prop :=
  (args.(use_curriculum) = true -> is_Some l.(curriculum)) /\
  (args.(use_specialist) = true -> is_Some l.(specialist)) /\
  (args.(use_threshold_sampling) = true -> is_Some l.(sampling_threshold)) /\
  (args.(plot_prob) = true ->
   l.(handles) = {["plt"; "fig"; "ax1"; "ax2"]}%string).

(** The exceptions of the scans over the infos. *)
Definition scan_error (e : exn) : Prop :=
  e = IndexError \/ e = KeyError "r" \/ e = TypeError.

(** The exceptions a run can end with: the division of line 170, the
    undefined name of line 239, and those of the scans over the infos. *)
Definition expected (args : config) (e : exn) : Prop :=
  (e = ZeroDivisionError /\
   (args.(num_steps) = 0 \/ args.(num_processes) = 0)) \/
  (e = NameError "ax" /\
   args.(plot_prob) = true /\ args.(use_threshold_sampling) = true) \/
  scan_error e.

(** With at most one worker: a log without a metrics record and without a
    best snapshot. *)
Definition unlogged (args : config) (t : list entry) : Prop :=
  args.(num_processes) <= 1 ->
  logged t = [] /\ saved_under (best_name args) t = [].

(** What every iteration of the loop finds and leaves: the flagged locals
    bound, and no more rewards recorded than the deque can hold. *)
Definition steady (args : config) (l : locals) : Prop :=
  ready args l /\
  (length l.(episode_rewards) <= Z.to_nat args.(num_processes))%nat.

(** Reading a number back from the head of a string: an optional minus sign
    and the decimal digits up to the first character that is none. *)
Definition digit_of (c : ascii) : option Z :=
  let k := Z.of_nat (nat_of_ascii c) in
  if (48 <=? k) && (k <=? 57) then Some (k - 48) else None.

Fixpoint read_digits (v : Z) (s : string) : Z :=
  match s with
  | EmptyString => v
  | String c rest =>
      match digit_of c with
      | Some d => read_digits (v * 10 + d) rest
      | None => v
      end
  end.

Definition read_number (s : string) : Z :=
  match s with
  | EmptyString => 0
  | String c rest =>
      if Ascii.eqb c "-" then - read_digits 0 rest else read_digits 0 s
  end.

(** The checkpoint plan of lines 307-314, for a [save_every] and a
    [next_checkpoint] that are whole numbers [every] and [next], small
    enough for the sum of line 312 to be exact on doubles.  Whether update
    [j] writes a numbered checkpoint depends on [j] and on [next] alone, and
    [next] moves only when it does: the names of the files of line 330 over
    [fuel] updates from update [j] on. *)
Definition due_at (args : config) (num_updates j next : Z) : bool :=
  ((next <=? (j + 1) * args.(num_steps) * args.(num_processes))
   || (j =? num_updates - 1))
  && negb (String.eqb args.(save_dir) "").

Fixpoint plan_from (args : config) (num_updates every : Z) (fuel : nat)
    (j next : Z) : list string :=
  match fuel with
  | O => []
  | S fuel' =>
      if due_at args num_updates j next
      then checkpoint_name args next
           :: plan_from args num_updates every fuel' (j + 1) (next + every)
      else latest_name args
           :: plan_from args num_updates every fuel' (j + 1) next
  end.

Definition checkpoint_plan (args : config) (num_updates every : Z)
  : list string :=
  plan_from args num_updates every (Z.to_nat num_updates) 0 every.

(** The files written by line 330, among all saves: those that are neither
    the best snapshot nor a specialist snapshot. *)
Fixpoint starts_with (p s : string) : bool :=
  match p with
  | EmptyString => true
  | String a p' =>
      match s with
      | EmptyString => false
      | String b s' => Ascii.eqb a b && starts_with p' s'
      end
  end.

Definition is_periodic (args : config) (file : string) : bool :=
  negb (String.eqb file (best_name args))
  && negb (starts_with (args.(env_name) +:+ "_specialist_") file).

Definition periodic_files (args : config) (tr : list entry) : list string :=
  List.filter (is_periodic args) (map (fun s => s.2) (saves tr)).

(** What [agent.update] returned, and the metrics records handed to the
    logger in full: iteration, total number of steps, entropy, value loss,
    action loss, training rewards and test rewards. *)
Definition update_results (tr : list entry) : list (update_result net optim) :=
  flat_map (fun e => match e with
                     | Called c r =>
                         match c in ext _ _ _ _ R
                               return R -> list (update_result net optim) with
                         | AgentUpdate _ _ _ => fun u => [u]
                         | _ => fun _ => []
                         end r
                     end) tr.

Definition log_records (tr : list entry)
  : list (Z * Z * float * float * float * list float * list float) :=
  flat_map (fun e => match e with
                     | Called (LogEpoch i n h v a rew test_rew) _ =>
                         [(i, n, h, v, a, rew, test_rew)]
                     | _ => []
                     end) tr.

(** The axes [pcolormesh] was called on, and the number of canvas draws. *)
Definition plot_axes (tr : list entry) : list string :=
  flat_map (fun e => match e with
                     | Called (Pcolormesh ax _) _ => [ax]
                     | _ => []
                     end) tr.

Definition draws (tr : list entry) : nat :=
  length (flat_map (fun e => match e with
                             | Called CanvasDraw _ => [tt]
                             | _ => []
                             end) tr).

(** Number of completed optimisation steps, and of training environment
    steps. *)
Definition updates_done (tr : list entry) : nat :=
  length (update_optims tr).

Definition env_steps (tr : list entry) : nat :=
  length (step_answers tr).

(** ** Specifications of runs

    [sat m Q]: from every state of the world, the log and the outcome of [m]
    satisfy [Q]. *)
Definition sat {A} (m : M A) (Q : list entry -> result A -> Prop) : Prop :=
  forall w, Q (trace_of m w) (outcome_of m w).

(** The specification of [x <- m ;; k x] from those of [m] and [k]: the log
    is the log of [m] followed by that of [k], unless [m] raises. *)
Definition seq_post {A B} (P : list entry -> result A -> Prop)
    (K : A -> list entry -> result B -> Prop)
  : list entry -> result B -> Prop :=
  fun t r =>
    exists t1 r1, P t1 r1 /\
      match r1 with
      | Ok a => exists t2, t = t1 ++ t2 /\ K a t2 r
      | Raise e => t = t1 /\ r = Raise e
      end.

Definition ret_post {A} (a : A) : list entry -> result A -> Prop :=
  fun t r => t = [] /\ r = Ok a.

Definition call_post {R} (c : call_t R) : list entry -> result R -> Prop :=
  fun t r => exists x, t = [Called c x] /\ r = Ok x.

Definition when_post (b : bool) (P : list entry -> result unit -> Prop)
  : list entry -> result unit -> Prop :=
  fun t r => if b then P t r else ret_post tt t r.

(** ** What each phase of the loop body does *)

Definition schedule_post (args : config) (num_updates j : Z) (l : locals)
  : list entry -> result locals -> Prop :=
  fun t r =>
    exists o,
      t = [Called (SetOptimizerLr l.(agent_optimizer)
                     (scheduled_lr args num_updates j)) o;
           Called (StateDictCopy l.(actor_critic)) tt] /\
      r = Ok (set_agent_optimizer o l).

(** The log of (part of) a collection phase run from locals [l]: collection
    calls only, the policy read at the parameters held in [l], and [k] steps
    of the training environments. *)
Definition collect_log (l : locals) (k : nat) (t : list entry) : Prop :=
  Forall (fun e => phase_of e = Collect) t /\
  Forall (fun p => p = l.(actor_critic)) (policy_reads t) /\
  env_steps t = k.

(** Collection leaves all locals but the storage, the current observation
    and the reward deque as they were. *)
Definition collect_frame (l l' : locals) : Prop :=
  exists r o e,
    l' = set_rollouts r (set_current_obs o (set_episode_rewards e l)).

Definition collect_step_post (l : locals)
  : list entry -> result locals -> Prop :=
  fun t r =>
    collect_log l 1 t /\ forall l', r = Ok l' -> collect_frame l l'.

Definition collect_post (args : config) (l : locals)
  : list entry -> result locals -> Prop :=
  fun t r =>
    match r with
    | Ok l' => collect_log l (Z.to_nat args.(num_steps)) t /\ collect_frame l l'
    | Raise _ =>
        exists k, (k <= Z.to_nat args.(num_steps))%nat /\ collect_log l k t
    end.

(** The log of (part of) an evaluation phase. *)
Definition evaluate_log (l : locals) (t : list entry) : Prop :=
  Forall (fun e => phase_of e = Evaluate) t /\
  Forall (fun p => p = l.(actor_critic)) (policy_reads t).

Definition evaluate_post (args : config) (l : locals)
  : list entry -> result locals -> Prop :=
  fun t r =>
    evaluate_log l t /\
    forall l', r = Ok l' -> exists e, l' = set_test_episode_rewards e l.

Definition escalate_post (args : config) (l : locals)
  : list entry -> result locals -> Prop :=
  fun t r =>
    let m := np_median l.(episode_rewards) in
    if args.(use_curriculum)
    then if (900 <? m)%float
         then match l.(curriculum) with
              | Some c =>
                  t = [Called (NpMedian l.(episode_rewards)) m;
                       Called (PrintLevel "curriculum" (c + 1)) tt;
                       Called (EnvsUpdateCurriculum (c + 1)) tt] /\
                  r = Ok (set_curriculum (Some (c + 1)) l)
              | None =>
                  t = [Called (NpMedian l.(episode_rewards)) m] /\
                  r = Raise (UnboundLocalError "curriculum")
              end
         else t = [Called (NpMedian l.(episode_rewards)) m] /\ r = Ok l
    else t = [] /\ r = Ok l.

Definition advantage_post (args : config) (l : locals)
  : list entry -> result locals -> Prop :=
  fun t r =>
    exists v s,
      t = [Called (GetValue l.(actor_critic)
                     (observations_at l.(rollouts) (-1))
                     (Some (states_at l.(rollouts) (-1)))
                     (Some (masks_at l.(rollouts) (-1)))) v;
           Called (ComputeReturns l.(rollouts) v args.(use_gae)
                     args.(gamma) args.(gae_lambda)) s] /\
      r = Ok (set_rollouts s l).

Definition optimize_post (l : locals)
  : list entry -> result (update_result net optim * locals) -> Prop :=
  fun t r =>
    exists u s,
      t = [Called (AgentUpdate l.(actor_critic) l.(agent_optimizer)
                     l.(rollouts)) u;
           Called (AfterUpdate l.(rollouts)) s] /\
      r = Ok (u, set_rollouts s (set_agent_optimizer u.(ur_optim)
                   (set_actor_critic u.(ur_net) l))).

Definition deepcopy_log (args : config) (l : locals) : list entry :=
  if args.(cuda) then [Called (Deepcopy l.(actor_critic)) tt] else [].

Definition fork_post (args : config) (l : locals)
  : list entry -> result locals -> Prop :=
  fun t r =>
    let m := np_mean l.(episode_rewards) in
    if args.(use_specialist)
    then if (1000 <? m)%float
         then match l.(specialist) with
              | Some s =>
                  t = Called (NpMean l.(episode_rewards)) m ::
                      deepcopy_log args l ++
                      [Called (TorchSave l.(actor_critic) args.(save_dir)
                                 (specialist_name args s)) tt;
                       Called (EnvsUpdateSpecialist (s + 1)) tt] /\
                  r = Ok (set_specialist (Some (s + 1)) l)
              | None =>
                  t = [Called (NpMean l.(episode_rewards)) m] /\
                  r = Raise (UnboundLocalError "specialist")
              end
         else t = [Called (NpMean l.(episode_rewards)) m] /\ r = Ok l
    else t = [] /\ r = Ok l.

Definition best_post (args : config) (save_model : net) (l : locals)
  : list entry -> result locals -> Prop :=
  fun t r =>
    let m := np_mean l.(episode_rewards) in
    if (1 <? Z.of_nat (length l.(episode_rewards)))
    then if (l.(max_ep_reward) <? m)%float
         then t = [Called (NpMean l.(episode_rewards)) m;
                   Called (NpMean l.(episode_rewards)) m;
                   Called (TorchSave save_model args.(save_dir)
                             (best_name args)) tt] /\
              r = Ok (set_max_ep_reward m l)
         else t = [Called (NpMean l.(episode_rewards)) m] /\ r = Ok l
    else t = [] /\ r = Ok l.

Definition log_post (args : config) (j : Z) (u : update_result net optim)
    (l : locals) : list entry -> result unit -> Prop :=
  fun t r =>
    t = (if (1 <? Z.of_nat (length l.(episode_rewards)))
         then [Called (LogEpoch (j + 1)
                         ((j + 1) * args.(num_processes) * args.(num_steps))
                         u.(ur_dist_entropy) u.(ur_value_loss)
                         u.(ur_action_loss) l.(episode_rewards)
                         l.(test_episode_rewards)) tt]
         else []) /\
    r = Ok tt.

(** The locals and the file name the checkpoint phase works with after
    lines 307-314. *)
Definition after_naming (args : config) (num_updates j : Z) (l : locals) : locals :=
  if checkpoint_due args num_updates j l
  then set_next_checkpoint (l.(next_checkpoint) + args.(save_every))%Q l
  else l.

Definition model_name (args : config) (num_updates j : Z) (l : locals) : string :=
  if checkpoint_due args num_updates j l
  then checkpoint_name args (py_int l.(next_checkpoint))
  else latest_name args.

Definition checkpoint_post (args : config) (num_updates j : Z)
    (u : update_result net optim) (l : locals)
  : list entry -> result locals -> Prop :=
  let l0 := after_naming args num_updates j l in
  seq_post (fun t r => t = deepcopy_log args l0 /\ r = Ok tt) (fun _ =>
  seq_post (fork_post args l0) (fun l1 =>
  seq_post (call_post (TorchSave l0.(actor_critic) args.(save_dir)
                         (model_name args num_updates j l))) (fun _ =>
  seq_post (best_post args l0.(actor_critic) l1) (fun l2 =>
  seq_post (log_post args j u l2) (fun _ =>
  ret_post l2))))).

Definition update_post (args : config) (num_updates j : Z) (l : locals)
  : list entry -> result locals -> Prop :=
  seq_post (schedule_post args num_updates j l) (fun l1 =>
  seq_post (collect_post args l1) (fun l2 =>
  seq_post (evaluate_post args l2) (fun l3 =>
  seq_post (escalate_post args l3) (fun l4 =>
  seq_post (advantage_post args l4) (fun l5 =>
  seq_post (optimize_post l5) (fun ul =>
  checkpoint_post args num_updates j (fst ul) (snd ul))))))).

(** The log of the checkpoint phase once the specialist fork [t_fork] and the
    best-snapshot check [t_best] are known; [l0] are the locals after naming,
    [l2] the locals at the end. *)
Definition checkpoint_log (args : config) (num_updates j : Z)
    (u : update_result net optim) (l l2 : locals)
    (t_fork t_best : list entry) : list entry :=
  let l0 := after_naming args num_updates j l in
  deepcopy_log args l0 ++ t_fork ++
  [Called (TorchSave l0.(actor_critic) args.(save_dir)
             (model_name args num_updates j l)) tt] ++
  t_best ++
  (if (1 <? Z.of_nat (length l2.(episode_rewards)))
   then [Called (LogEpoch (j + 1)
                   ((j + 1) * args.(num_processes) * args.(num_steps))
                   u.(ur_dist_entropy) u.(ur_value_loss)
                   u.(ur_action_loss) l2.(episode_rewards)
                   l2.(test_episode_rewards)) tt]
   else []).

(** A completed update, phase by phase. *)
Definition completed (args : config) (num_updates j : Z) (l : locals)
    (t : list entry) (l' : locals) : Prop :=
  exists o t2 l2 t3 e3 t4 l4 v s u s' t_fork l7 t_best,
    let l1 := set_agent_optimizer o l in
    let l3 := set_test_episode_rewards e3 l2 in
    let l5 := set_rollouts s l4 in
    let l6 := set_rollouts s' (set_agent_optimizer u.(ur_optim)
                (set_actor_critic u.(ur_net) l5)) in
    t = [Called (SetOptimizerLr l.(agent_optimizer)
                   (scheduled_lr args num_updates j)) o;
         Called (StateDictCopy l.(actor_critic)) tt] ++
        t2 ++ t3 ++ t4 ++
        [Called (GetValue l4.(actor_critic)
                   (observations_at l4.(rollouts) (-1))
                   (Some (states_at l4.(rollouts) (-1)))
                   (Some (masks_at l4.(rollouts) (-1)))) v;
         Called (ComputeReturns l4.(rollouts) v args.(use_gae)
                   args.(gamma) args.(gae_lambda)) s] ++
        [Called (AgentUpdate l5.(actor_critic) l5.(agent_optimizer)
                   l5.(rollouts)) u;
         Called (AfterUpdate l5.(rollouts)) s'] ++
        checkpoint_log args num_updates j u l6 l' t_fork t_best /\
    collect_log l1 (Z.to_nat args.(num_steps)) t2 /\
    collect_frame l1 l2 /\
    evaluate_log l2 t3 /\
    escalate_post args l3 t4 (Ok l4) /\
    fork_post args (after_naming args num_updates j l6) t_fork (Ok l7) /\
    best_post args l6.(actor_critic) l7 t_best (Ok l').

(** How a counter and the levels pushed for it may move in one update:
    nothing is pushed and the counter stays, or the counter is bound to some
    [n], goes to [n + 1], and [n + 1] is the one level pushed. *)
Definition bump (c : option Z) (pushed : list Z) (c' : option Z) : Prop :=
  (pushed = [] /\ c' = c) \/
  (exists n, c = Some n /\ pushed = [n + 1] /\ c' = Some (n + 1)).

(** An update, however it ends: the log is made of the seven phases in
    source order, each possibly cut short or missing after a raise. *)
Definition attempted (args : config) (num_updates j : Z) (l : locals)
    (t : list entry) (r : result locals) : Prop :=
  exists o t2 t3 t4 t5 t6 t7 c' s',
    t = [Called (SetOptimizerLr l.(agent_optimizer)
                   (scheduled_lr args num_updates j)) o;
         Called (StateDictCopy l.(actor_critic)) tt] ++
        t2 ++ t3 ++ t4 ++ t5 ++ t6 ++ t7 /\
    Forall (fun e => phase_of e = Collect) t2 /\
    Forall (fun e => phase_of e = Evaluate) t3 /\
    Forall (fun e => phase_of e = Escalate) t4 /\
    Forall (fun e => phase_of e = Advantage) t5 /\
    Forall (fun e => phase_of e = Optimize) t6 /\
    Forall (fun e => phase_of e = Checkpoint) t7 /\
    (env_steps t2 <= Z.to_nat args.(num_steps))%nat /\
    (updates_done t6 <= 1)%nat /\
    bump l.(curriculum) (curriculum_pushes t4) c' /\
    bump l.(specialist) (specialist_pushes t7) s' /\
    forall l', r = Ok l' ->
      l'.(curriculum) = c' /\ l'.(specialist) = s' /\
      l'.(handles) = l.(handles) /\
      l'.(sampling_threshold) = l.(sampling_threshold) /\
      env_steps t2 = Z.to_nat args.(num_steps) /\
      updates_done t6 = 1%nat.

(** What the masks of an insert must be, given what the environments
    answered to the step: for each of the [n] workers with an [info] and a
    [done] flag, [bad_masks] is 0 exactly when the [info] has the key
    ["bad_transition"] and 1 otherwise, and [masks] is 0 exactly when the
    worker is done and 1 otherwise. *)
Definition masks_agree (n : Z) (sr : step_result tensor)
    (mb : list float * list float) : Prop :=
  forall (p : nat) (i : info) (d : bool),
    (p < Z.to_nat n)%nat ->
    sr.(sr_infos) !! p = Some i ->
    sr.(sr_done) !! p = Some d ->
    (mb.2 !! p = Some 0%float <-> is_Some (i !! "bad_transition"%string)) /\
    (mb.2 !! p = Some 1%float <-> i !! "bad_transition"%string = None) /\
    (mb.1 !! p = Some 0%float <-> d = true) /\
    (mb.1 !! p = Some 1%float <-> d = false).

(** A log in which the [k]-th insert, when there is one, agrees with the
    [k]-th answer of the training environments. *)
Definition masks_aligned (n : Z) (t : list entry) : Prop :=
  forall k sr mb,
    step_answers t !! k = Some sr ->
    inserted_masks t !! k = Some mb ->
    masks_agree n sr mb.

(** A log without environment steps and inserts. *)
Definition silent (t : list entry) : Prop :=
  step_answers t = [] /\ inserted_masks t = [].

(** One collection step: one answer from the environments, and one insert
    whose masks agree with it unless the step raises. *)
Definition step_masks_post (args : config)
  : list entry -> result locals -> Prop :=
  fun t r =>
    exists sr, step_answers t = [sr] /\
      match r with
      | Ok _ => exists mb, inserted_masks t = [mb] /\
                           masks_agree args.(num_processes) sr mb
      | Raise _ => inserted_masks t = []
      end.

(** A log whose calls all have ranks between [lo] and [hi], in order. *)
Definition ranked (lo hi : nat) (t : list entry) : Prop :=
  Forall (fun e => (lo <= source_rank (phase_of e) <= hi)%nat) t /\
  in_order source_rank t.

(** ** Counters over a whole run *)

(** The levels pushed so far are [0; 1; ...; n] for a counter bound to [n],
    and none for a counter that is not bound. *)
Definition counts_to (pushed : list Z) (c : option Z) : Prop :=
  match c with
  | Some n => 0 <= n /\ pushed = map Z.of_nat (seq 0 (S (Z.to_nat n)))
  | None => pushed = []
  end.

(** The levels pushed are [0; 1; 2; ...]. *)
Definition counts_from_zero (pushed : list Z) : Prop :=
  pushed = map Z.of_nat (seq 0 (length pushed)).

(** What an update does to the counters and how much it collects, however
    it ends. *)
Definition update_summary (args : config) (l : locals)
    (t : list entry) (r : result locals) : Prop :=
  exists c' s',
    bump l.(curriculum) (curriculum_pushes t) c' /\
    bump l.(specialist) (specialist_pushes t) s' /\
    (updates_done t <= 1)%nat /\
    (env_steps t <= Z.to_nat args.(num_steps))%nat /\
    forall l', r = Ok l' ->
      l'.(curriculum) = c' /\ l'.(specialist) = s' /\
      l'.(handles) = l.(handles) /\
      l'.(sampling_threshold) = l.(sampling_threshold) /\
      updates_done t = 1%nat /\
      env_steps t = Z.to_nat args.(num_steps).

(** The locals and the log [setup] leaves behind. *)
Definition setup_post (args : config)
  : list entry -> result locals -> Prop :=
  fun t r =>
    exists l0, r = Ok l0 /\
      l0.(curriculum) = (if args.(use_curriculum) then Some 0 else None) /\
      l0.(specialist) = (if args.(use_specialist) then Some 0 else None) /\
      l0.(sampling_threshold) =
        (if args.(use_threshold_sampling) then Some 150%float else None) /\
      l0.(handles) =
        (if args.(plot_prob)
         then {["plt"; "fig"; "ax1"; "ax2"]}%string else ∅) /\
      l0.(episode_rewards) = [] /\
      l0.(max_ep_reward) = neg_infinity /\
      curriculum_pushes t = (if args.(use_curriculum) then [0] else []) /\
      specialist_pushes t = (if args.(use_specialist) then [0] else []) /\
      update_optims t = [] /\
      step_answers t = [] /\
      aggregated t = [].

(** A whole run, however it ends: both counters count up from zero, the
    locals end on the last level pushed, no more than [num_updates] updates
    and [num_updates * num_steps] environment steps are made, and exactly
    that many when the run ends normally. *)
Definition run_post (args : config) (t : list entry) (r : result locals) : Prop :=
  counts_from_zero (curriculum_pushes t) /\
  counts_from_zero (specialist_pushes t) /\
  (forall n, num_updates_of args = Ok n ->
     (updates_done t <= Z.to_nat n)%nat /\
     (env_steps t <= Z.to_nat n * Z.to_nat args.(num_steps))%nat) /\
  forall l', r = Ok l' ->
    l'.(curriculum) = last (curriculum_pushes t) /\
    l'.(specialist) = last (specialist_pushes t) /\
    exists n, num_updates_of args = Ok n /\
      updates_done t = Z.to_nat n /\
      env_steps t = (Z.to_nat n * Z.to_nat args.(num_steps))%nat.

End Observations.
(** ** A scripted set of collaborators

    Concrete collaborators on which runs can be evaluated: the environments
    replay a script of per-step [done] flags and [info] dictionaries, the
    policy parameters are the number of updates applied to them, the optimizer
    is its learning rate, and the storage counts the inserted steps. *)

Module Scripted.

Record script := Script {
  train_steps : list (list bool * list info);
  test_steps : list (list info);
}.

(** Insertion sort on floats, for the median. *)
Fixpoint insert_sorted (x : float) (xs : list float) : list float :=
  match xs with
  | [] => [x]
  | y :: ys => if (x <=? y)%float then x :: xs else y :: insert_sorted x ys
  end.

Definition sort_floats (xs : list float) : list float :=
  foldr insert_sorted [] xs.

Definition float_of_Z (n : Z) : float := PrimFloat.of_uint63 (Uint63.of_Z n).

(** [np.mean]: the sum over the count; [nan] on an empty input. *)
Definition mean (xs : list float) : float :=
  (foldl PrimFloat.add 0 xs / float_of_Z (Z.of_nat (length xs)))%float.

(** [np.median]: the middle of the sorted input, the mean of the two middle
    entries for an even count; [nan] on an empty input. *)
Definition median (xs : list float) : float :=
  let s := sort_floats xs in
  let n := length s in
  match n with
  | O => nan
  | _ => if Nat.even n
         then mean [nth (n / 2 - 1) s nan; nth (n / 2) s nan]
         else nth (n / 2) s nan
  end.

Fixpoint float_pow (x : float) (n : nat) : float :=
  match n with
  | O => 1%float
  | S n' => (x * float_pow x n')%float
  end.

(** Modelled from the spec: [linear_decay] of [common.misc_utils] is not among
    the sources; "linear decay from the initial rate toward a floor value". *)
Definition linear (epoch total : Z) (initial final : float) : float :=
  (initial - (initial - final) * float_of_Z epoch / float_of_Z total)%float.

(** Modelled from the spec: [exponential_decay] of [common.misc_utils] is not
    among the sources; "exponential decay toward a floor value". *)
Definition exponential (epoch : Z) (rate initial final : float) : float :=
  let x := (initial * float_pow rate (Z.to_nat epoch))%float in
  if (x <? final)%float then final else x.

Definition next_train (w : script) : script * step_result unit :=
  match w.(train_steps) with
  | [] => (w, StepResult tt tt [] [])
  | (done, infos) :: rest =>
      (Script rest w.(test_steps), StepResult tt tt done infos)
  end.

Definition next_test (w : script) : script * step_result unit :=
  match w.(test_steps) with
  | [] => (w, StepResult tt tt [] [])
  | infos :: rest =>
      (Script w.(train_steps) rest, StepResult tt tt [] infos)
  end.

Definition answer (R : Type) (c : ext unit Z float nat R) (w : script)
  : script * R :=
  match c in ext _ _ _ _ R return script * R with
  | EnvsSetMirror _ _ => (w, tt)
  | EnvsUpdateCurriculum _ => (w, tt)
  | EnvsUpdateSpecialist _ => (w, tt)
  | EnvsReset => (w, tt)
  | EnvsStep _ => next_train w
  | EnvsCreateTempStates => (w, tt)
  | EnvsUpdateSampleProb _ => (w, tt)
  | TestEnvsReset => (w, tt)
  | TestEnvsStep _ => next_test w
  | TorchLoad _ => (w, 0)
  | MakePolicy _ => (w, 0)
  | Act _ _ _ _ _ => (w, ActResult tt tt tt tt)
  | GetValue _ _ _ _ => (w, tt)
  | StateDictCopy _ => (w, tt)
  | Deepcopy _ => (w, tt)
  | TorchSave _ _ _ => (w, tt)
  | MakePPO _ _ => (w, 0%float)
  | SetOptimizerLr _ lr => (w, lr)
  | AgentUpdate p o _ => (w, UpdateResult (p + 1) o 0%float 0%float 0%float)
  | MakeStorage _ _ => (w, O)
  | CopyObs0 r _ => (w, r)
  | Insert r _ _ _ _ _ _ _ _ => (w, S r)
  | ComputeReturns r _ _ _ _ => (w, r)
  | AfterUpdate r => (w, r)
  | NpMedian xs => (w, median xs)
  | NpMean xs => (w, mean xs)
  | MakeFigure => (w, tt)
  | Pcolormesh _ _ => (w, tt)
  | CanvasDraw => (w, tt)
  | PrintLevel _ _ => (w, tt)
  | PrintTensor _ => (w, tt)
  | LogEpoch _ _ _ _ _ _ _ => (w, tt)
  end.

Definition collab : Collab := {|
  tensor := unit;
  net := Z;
  optim := float;
  storage := nat;
  world := script;
  handle := answer;
  np_median := median;
  np_mean := mean;
  np_round := fun t _ => t;
  linear_decay := linear;
  exponential_decay := exponential;
  observations_at := fun _ _ => tt;
  states_at := fun _ _ => tt;
  masks_at := fun _ _ => tt;
  torch_zeros := fun _ => tt;
  assign_obs := fun _ _ => tt;
  value_mean := fun t => t;
  value_var := fun t => t;
  adaptive_probs := fun t _ => t;
  threshold_probs := fun t _ _ => t;
  first_worker := fun t => t;
|}.

(** Small configurations: [procs] workers, one step per update, a budget of
    two updates of each worker, the given features and decay type. *)
Definition tuned (procs : Z) (with_curriculum with_specialist with_threshold
    with_plot : bool) (decay : string) : config := {|
  env_name := "CassieStepper-v1";
  num_frames := inject_Z (2 * procs);
  save_every := 10;
  load_saved_controller := false;
  use_mirror := false;
  use_phase_mirror := false;
  use_curriculum := with_curriculum;
  use_adaptive_sampling := false;
  use_specialist := with_specialist;
  use_threshold_sampling := with_threshold;
  plot_prob := with_plot;
  cuda := false;
  num_processes := procs;
  num_steps := 1;
  num_tests := 1;
  num_ensembles := 1;
  use_gae := true;
  lr_decay_type := decay;
  gamma := 0.99%float;
  gae_lambda := 0.95%float;
  lr := 0.0003%float;
  save_dir := "models";
  max_episode_steps := 1;
|}.

(** [args] with another frame budget, and with adaptive sampling on. *)
Definition with_frames (frames : Q) (args : config) : config :=
  Config args.(env_name) frames args.(save_every)
    args.(load_saved_controller) args.(use_mirror) args.(use_phase_mirror)
    args.(use_curriculum) args.(use_adaptive_sampling) args.(use_specialist)
    args.(use_threshold_sampling) args.(plot_prob) args.(cuda)
    args.(num_processes) args.(num_steps) args.(num_tests)
    args.(num_ensembles) args.(use_gae) args.(lr_decay_type) args.(gamma)
    args.(gae_lambda) args.(lr) args.(save_dir) args.(max_episode_steps).

Definition with_adaptive_sampling (args : config) : config :=
  Config args.(env_name) args.(num_frames) args.(save_every)
    args.(load_saved_controller) args.(use_mirror) args.(use_phase_mirror)
    args.(use_curriculum) true args.(use_specialist)
    args.(use_threshold_sampling) args.(plot_prob) args.(cuda)
    args.(num_processes) args.(num_steps) args.(num_tests)
    args.(num_ensembles) args.(use_gae) args.(lr_decay_type) args.(gamma)
    args.(gae_lambda) args.(lr) args.(save_dir) args.(max_episode_steps).

(** One worker, every feature off. *)
Definition base : config := tuned 1 false false false false "exponential".

(** One worker, curriculum and specialists on. *)
Definition eager : config := tuned 1 true true false false "exponential".

(** Two workers, every feature off. *)
Definition paired : config := tuned 2 false false false false "exponential".

(** One worker, threshold sampling and its plot on. *)
Definition plotted : config := tuned 1 false false true true "exponential".

(** No worker at all. *)
Definition unmanned : config := tuned 0 false false false false "exponential".

(** Two workers, specialists on. *)
Definition forked : config := tuned 2 false true false false "exponential".

(** One worker, adaptive and threshold sampling on. *)
Definition sampled : config :=
  with_adaptive_sampling (tuned 1 false false true false "exponential").

(** Two workers, curriculum and specialists on. *)
Definition keen : config := tuned 2 true true false false "exponential".

(** One worker, the value plot on. *)
Definition drawn : config := tuned 1 false false false true "exponential".

(** One worker, a decay type that is neither of the two named ones. *)
Definition steady : config := tuned 1 false false false false "constant".

(** An [info] reporting the end of an episode with return [r]. *)
Definition episode_info (r : float) : info :=
  {[ "episode"%string := InfoDict {[ "r"%string := r ]} ]}.

(** An [info] of a step cut short by the time limit. *)
Definition truncated_info : info :=
  {[ "bad_transition"%string := InfoScalar true ]}.

(** The locals of a run of [args] at the start of its first update. *)
Definition started (args : config) : @locals collab :=
  @Locals collab
    (if args.(plot_prob) then {["plt"; "fig"; "ax1"; "ax2"]} else ∅)
    (if args.(use_curriculum) then Some 0 else None)
    (if args.(use_specialist) then Some 0 else None)
    (if args.(use_threshold_sampling) then Some 150%float else None)
    0 0%float O tt [] [] args.(save_every) neg_infinity.

(** The locals an update of [args] (every plot off) leaves behind when it is
    the first one of the run: one update applied to the parameters, one step
    inserted, and the given counters, reward history and running maximum. *)
Definition left_with (args : config) (level index : option Z)
    (rewards : list float) (best : float) : @locals collab :=
  @Locals collab ∅ level index
    (if args.(use_threshold_sampling) then Some 150%float else None)
    1 args.(lr) 1%nat tt rewards [] args.(save_every) best.

(** One worker, no episode ending in either of the two updates. *)
Definition waiting : script :=
  Script [([false], [∅]); ([false], [∅])] [[∅]; [∅]].

(** One worker, whose first step ends an episode of return [r]. *)
Definition ending (r : float) : script :=
  Script [([true], [episode_info r]); ([false], [∅])] [[∅]; [∅]].

(** Two workers, whose first step ends two episodes of returns [r1], [r2]. *)
Definition ending_both (r1 r2 : float) : script :=
  Script [([true; true], [episode_info r1; episode_info r2]);
          ([false; false], [∅; ∅])] [[∅]; [∅]].

(** Two workers, the first cut short by the time limit in the first step. *)
Definition cut_short : script :=
  Script [([true; false], [truncated_info; ∅]);
          ([false; false], [∅; ∅])] [[∅]; [∅]].

(** One worker, whose first step reports an episode that is no dictionary. *)
Definition malformed : script :=
  Script [([true], [{[ "episode"%string := InfoScalar true ]}])] [].

End Scripted.

(** * Properties *)

Section Theory.
Context `{C : Collab}.

(** ** Rules for [sat] *)

Lemma sat_ret {A} (a : A) (Q : list entry -> result A -> Prop) :
  Q [] (Ok a) -> sat (ret a) Q.
Proof. intros H w. exact H. Qed.

Lemma sat_raise {A} (e : exn) (Q : list entry -> result A -> Prop) :
  Q [] (Raise e) -> sat (raise e) Q.
Proof. intros H w. exact H. Qed.

Lemma sat_lift {A} (r : result A) (Q : list entry -> result A -> Prop) :
  Q [] r -> sat (lift r) Q.
Proof. destruct r; intros H w; exact H. Qed.

Lemma sat_call {R} (c : call_t R) (Q : list entry -> result R -> Prop) :
  (forall r, Q [Called c r] (Ok r)) -> sat (call c) Q.
Proof.
  intros H w. unfold trace_of, outcome_of, call.
  destruct (handle R c w) as [w' r]. apply H.
Qed.

Lemma sat_pure_call {R} (c : call_t R) (r : R)
    (Q : list entry -> result R -> Prop) :
  Q [Called c r] (Ok r) -> sat (pure_call c r) Q.
Proof. intros H w. exact H. Qed.

Lemma sat_bind {A B} (m : M A) (k : A -> M B)
    (Q : list entry -> result B -> Prop) :
  sat m (fun t1 r1 =>
           match r1 with
           | Ok a => sat (k a) (fun t2 r2 => Q (t1 ++ t2) r2)
           | Raise e => Q t1 (Raise e)
           end) ->
  sat (bind m k) Q.
Proof.
  intros H w. specialize (H w). unfold trace_of, outcome_of, bind in *.
  destruct (m w) as [[t1 w1] [a|e]]; simpl in *; [|exact H].
  specialize (H w1). unfold trace_of, outcome_of in H.
  destruct (k a w1) as [[t2 w2] r]. exact H.
Qed.

Lemma sat_mono {A} (m : M A) (P Q : list entry -> result A -> Prop) :
  sat m P -> (forall t r, P t r -> Q t r) -> sat m Q.
Proof. intros H HPQ w. apply HPQ, H. Qed.

Lemma sat_seq {A B} (m : M A) (k : A -> M B) P K :
  sat m P -> (forall a, sat (k a) (K a)) -> sat (bind m k) (seq_post P K).
Proof.
  intros Hm Hk. apply sat_bind. eapply sat_mono; [exact Hm|].
  intros t1 [a|e] H1.
  - eapply sat_mono; [apply Hk|]. intros t2 r2 H2.
    exists t1, (Ok a). split; [exact H1|]. exists t2. split; [reflexivity|exact H2].
  - exists t1, (Raise e). split; [exact H1|]. split; reflexivity.
Qed.

Lemma sat_when (b : bool) (m : M unit) (Q : list entry -> result unit -> Prop) :
  (b = true -> sat m Q) -> (b = false -> Q [] (Ok tt)) -> sat (when b m) Q.
Proof.
  destruct b; simpl; intros H1 H2; [apply H1; reflexivity|].
  apply sat_ret, H2. reflexivity.
Qed.

Lemma sat_load_local {A} (name : string) (v : option A)
    (Q : list entry -> result A -> Prop) :
  match v with
  | Some a => Q [] (Ok a)
  | None => Q [] (Raise (UnboundLocalError name))
  end ->
  sat (load_local name v) Q.
Proof. destruct v; intros H w; exact H. Qed.

(** What [sat] says of one run. *)
Lemma sat_run {A} (m : M A) Q w tr w' r :
  sat m Q -> m w = (tr, w', r) -> Q tr r.
Proof.
  intros H E. specialize (H w). unfold trace_of, outcome_of in H.
  rewrite E in H. exact H.
Qed.

(** Loops: an invariant [I k t s] over the number [k] of completed
    iterations, the log so far and the loop state; [E t e] must hold of the
    log when the body raises [e]. *)
Lemma sat_for_loop_from {St} (body : Z -> St -> M St)
    (I : nat -> list entry -> St -> Prop) (E : list entry -> exn -> Prop)
    (i0 : Z) (n : nat) :
  (forall k t s, (k < n)%nat -> I k t s ->
     sat (body (i0 + Z.of_nat k) s)
       (fun t' r => match r with
                    | Ok s' => I (S k) (t ++ t') s'
                    | Raise e => E (t ++ t') e
                    end)) ->
  forall m k t s, (k + m = n)%nat -> I k t s ->
    sat (for_loop m (i0 + Z.of_nat k) body s)
      (fun t' r => match r with
                   | Ok s' => I n (t ++ t') s'
                   | Raise e => E (t ++ t') e
                   end).
Proof.
  intros Hbody m. induction m as [|m IH]; intros k t s Hk HI; simpl.
  - apply sat_ret. rewrite app_nil_r. replace n with k by lia. exact HI.
  - apply sat_bind. eapply sat_mono; [apply (Hbody k t s); [lia|exact HI]|].
    intros t1 [s1|e] H1; simpl.
    + replace (i0 + Z.of_nat k + 1) with (i0 + Z.of_nat (S k)) by lia.
      eapply sat_mono; [apply (IH (S k) (t ++ t1) s1); [lia|exact H1]|].
      intros t2 r2 H2. rewrite app_assoc. exact H2.
    + exact H1.
Qed.

Lemma sat_for_range {St} (body : Z -> St -> M St)
    (I : nat -> list entry -> St -> Prop) (E : list entry -> exn -> Prop)
    (n : Z) (s : St) :
  I O [] s ->
  (forall k t s, (k < Z.to_nat n)%nat -> I k t s ->
     sat (body (Z.of_nat k) s)
       (fun t' r => match r with
                    | Ok s' => I (S k) (t ++ t') s'
                    | Raise e => E (t ++ t') e
                    end)) ->
  sat (for_range n body s)
    (fun t r => match r with
                | Ok s' => I (Z.to_nat n) t s'
                | Raise e => E t e
                end).
Proof.
  intros H0 Hbody. unfold for_range.
  apply (sat_for_loop_from body I E 0 (Z.to_nat n) Hbody (Z.to_nat n) O [] s);
    [lia|exact H0].
Qed.

(** Symbolic execution of straight-line code. *)
Ltac exec_call :=
  apply sat_call;
  let r := fresh "r" in
  intros r;
  match type of r with
  | unit => destruct r
  | _ => idtac
  end.

Ltac exec :=
  repeat first
    [ apply sat_bind
    | exec_call
    | apply sat_pure_call
    | apply sat_ret
    | apply sat_raise
    | apply sat_lift
    | progress cbv beta iota ].

Lemma call_sat {R} (c : call_t R) : sat (call c) (call_post c).
Proof. apply sat_call. intros r. exists r. split; reflexivity. Qed.

Lemma ret_sat {A} (a : A) : sat (ret a) (ret_post a).
Proof. apply sat_ret. split; reflexivity. Qed.

(** ** The phases meet their summaries *)

Lemma schedule_sat args num_updates j l :
  sat (schedule args num_updates j l) (schedule_post args num_updates j l).
Proof.
  unfold schedule. exec. exists r. split; reflexivity.
Qed.

Lemma escalate_sat args l :
  sat (escalate_curriculum args l) (escalate_post args l).
Proof.
  unfold escalate_curriculum, escalate_post.
  destruct (use_curriculum args); [|exec; split; reflexivity].
  destruct (900 <? np_median (episode_rewards l))%float eqn:Hm.
  - destruct (curriculum l) as [c|] eqn:Hc.
    + exec. rewrite Hm. exec. split; reflexivity.
    + exec. rewrite Hm. exec. split; reflexivity.
  - exec. rewrite Hm. exec. split; reflexivity.
Qed.

Lemma advantage_sat args l : sat (advantage args l) (advantage_post args l).
Proof.
  unfold advantage. exec. exists r, r0. split; reflexivity.
Qed.

Lemma optimize_sat l : sat (optimize l) (optimize_post l).
Proof.
  unfold optimize. exec. exists r, r0. split; reflexivity.
Qed.

Lemma fork_sat args l : sat (fork_specialist args l) (fork_post args l).
Proof.
  unfold fork_specialist, fork_post, deepcopy_log.
  destruct (use_specialist args); [|exec; split; reflexivity].
  destruct (1000 <? np_mean (episode_rewards l))%float eqn:Hm.
  - destruct (specialist l) as [s|] eqn:Hs.
    + destruct (cuda args); exec; rewrite Hm; exec; split; reflexivity.
    + exec. rewrite Hm. exec. split; reflexivity.
  - exec. rewrite Hm. exec. split; reflexivity.
Qed.

Lemma best_sat args p l : sat (save_best args p l) (best_post args p l).
Proof.
  unfold save_best, best_post.
  destruct (1 <? Z.of_nat (length (episode_rewards l))); [|exec; split; reflexivity].
  destruct (max_ep_reward l <? np_mean (episode_rewards l))%float eqn:Hm;
    exec; rewrite Hm; exec; split; reflexivity.
Qed.

Lemma log_sat args j u l : sat (log_metrics args j u l) (log_post args j u l).
Proof.
  unfold log_metrics, log_post, when.
  destruct (1 <? Z.of_nat (length (episode_rewards l))); exec; split; reflexivity.
Qed.

Lemma checkpoint_sat args num_updates j u l :
  sat (checkpoint args num_updates j u l) (checkpoint_post args num_updates j u l).
Proof.
  unfold checkpoint, checkpoint_post, after_naming, model_name.
  set (l0 := if checkpoint_due args num_updates j l then _ else l).
  apply sat_seq.
  { unfold deepcopy_log, when. destruct (cuda args); exec; split; reflexivity. }
  intros _. apply sat_seq; [apply fork_sat|]. intros l1.
  apply sat_seq; [apply call_sat|]. intros _.
  apply sat_seq; [apply best_sat|]. intros l2.
  apply sat_seq; [apply log_sat|]. intros _.
  apply ret_sat.
Qed.

(** ** Collection and evaluation *)

Lemma sat_bind_with {A B} (m : M A) (k : A -> M B) P
    (Q : list entry -> result B -> Prop) :
  sat m P ->
  (forall t1 r1, P t1 r1 ->
     match r1 with
     | Ok a => sat (k a) (fun t2 r2 => Q (t1 ++ t2) r2)
     | Raise e => Q t1 (Raise e)
     end) ->
  sat (bind m k) Q.
Proof. intros Hm H. apply sat_bind. eapply sat_mono; [exact Hm|exact H]. Qed.

Lemma collect_log_nil l : collect_log l 0 [].
Proof. repeat split; constructor. Qed.

Lemma collect_log_app l k1 k2 t1 t2 :
  collect_log l k1 t1 -> collect_log l k2 t2 ->
  collect_log l (k1 + k2) (t1 ++ t2).
Proof.
  intros (H1 & H2 & H3) (H4 & H5 & H6). unfold collect_log, env_steps, policy_reads, step_answers in *.
  rewrite !flat_map_app, length_app. repeat split.
  - apply Forall_app; auto.
  - apply Forall_app; auto.
  - lia.
Qed.

Ltac exec_r :=
  repeat first
    [ apply sat_bind
    | exec_call
    | apply sat_pure_call
    | apply sat_ret
    | apply sat_raise
    | apply sat_lift
    | progress cbv beta iota
    | match goal with
      | |- match ?x with Ok _ => _ | Raise _ => _ end => destruct x
      end ].

Ltac log_explicit :=
  unfold collect_log, evaluate_log, env_steps, policy_reads, step_answers;
  simpl; repeat split; repeat constructor.

Lemma plot_values_sat l : sat (plot_values l) (fun t _ => collect_log l 0 t).
Proof. unfold plot_values. exec_r; log_explicit. Qed.

Lemma adaptive_sampling_sat args l :
  sat (adaptive_sampling args l) (fun t _ => collect_log l 0 t).
Proof. unfold adaptive_sampling. exec_r; log_explicit. Qed.

Lemma threshold_sampling_sat args step l :
  sat (threshold_sampling args step l) (fun t _ => collect_log l 0 t).
Proof.
  unfold threshold_sampling, when, load_local.
  destruct (sampling_threshold l); destruct (plot_prob args && (step =? 0));
    exec_r; log_explicit.
Qed.

Lemma sat_when_log (b : bool) (m : M unit) (P : list entry -> Prop) :
  sat m (fun t _ => P t) -> P [] -> sat (when b m) (fun t _ => P t).
Proof. intros Hm H0. destruct b; simpl; [exact Hm|apply sat_ret, H0]. Qed.

Lemma collect_step_sat args step l :
  sat (collect_step args step l) (collect_step_post l).
Proof.
  unfold collect_step.
  apply sat_bind. exec_call. cbv beta iota.
  apply sat_bind. exec_call. cbv beta iota.
  eapply sat_bind_with;
    [apply sat_when_log; [apply plot_values_sat|apply collect_log_nil]|].
  intros t1 r1 H1.
  assert (H0 : collect_log l 1
                 ([Called (Act (actor_critic l) (observations_at (rollouts l) step)
                     (Some (states_at (rollouts l) step))
                     (Some (masks_at (rollouts l) step)) false) r] ++
                  [Called (EnvsStep (ar_action r)) r0])) by log_explicit.
  pose proof (collect_log_app _ _ _ _ _ H0 H1) as H01. rewrite <- app_assoc in H01.
  destruct r1 as [[]|e]; [|split; [exact H01|discriminate]].
  eapply sat_bind_with;
    [apply sat_when_log; [apply adaptive_sampling_sat|apply collect_log_nil]|].
  intros t2 r2 H2.
  pose proof (collect_log_app _ _ _ _ _ H01 H2) as H02. rewrite <- !app_assoc in H02.
  destruct r2 as [[]|e]; [|split; [exact H02|discriminate]].
  eapply sat_bind_with;
    [apply sat_when_log; [apply threshold_sampling_sat|apply collect_log_nil]|].
  intros t3 r3 H3.
  pose proof (collect_log_app _ _ _ _ _ H02 H3) as H03. rewrite <- !app_assoc in H03.
  destruct r3 as [[]|e]; [|split; [exact H03|discriminate]].
  apply sat_bind, sat_lift.
  destruct (scan_infos _ _ _ _ _) as [scanned|e].
  - apply sat_bind. exec_call. apply sat_ret. split.
    + match goal with
      | |- collect_log _ _ (_ ++ _ ++ _ ++ _ ++ _ ++ _ ++ [?e] ++ _) =>
          assert (He : collect_log l 0 [e]) by log_explicit
      end.
      pose proof (collect_log_app _ _ _ _ _ H03 He) as H04.
      rewrite <- !app_assoc in H04. exact H04.
    + intros l' [= <-]. eexists _, _, _. reflexivity.
  - split; [|discriminate]. rewrite app_nil_r. exact H03.
Qed.

Lemma collect_frame_refl l : collect_frame l l.
Proof. exists (rollouts l), (current_obs l), (episode_rewards l). destruct l; reflexivity. Qed.

Lemma collect_frame_trans l1 l2 l3 :
  collect_frame l1 l2 -> collect_frame l2 l3 -> collect_frame l1 l3.
Proof.
  intros (r & o & e & ->) (r' & o' & e' & ->). exists r', o', e'. reflexivity.
Qed.

Lemma collect_log_frame l s k t :
  collect_frame l s -> collect_log s k t -> collect_log l k t.
Proof. intros (r & o & e & ->) H. exact H. Qed.

Lemma collect_sat args l : sat (collect args l) (collect_post args l).
Proof.
  unfold collect.
  eapply sat_mono.
  - apply (sat_for_range (collect_step args)
             (fun k t s => collect_log l k t /\ collect_frame l s)
             (fun t _ => exists k, (k <= Z.to_nat (num_steps args))%nat /\
                                   collect_log l k t)).
    + split; [apply collect_log_nil|apply collect_frame_refl].
    + intros k t s Hk [Hlog Hfr].
      eapply sat_mono; [apply collect_step_sat|].
      intros t' r [Hlog' Hfr'].
      apply (collect_log_frame _ _ _ _ Hfr) in Hlog'.
      pose proof (collect_log_app _ _ _ _ _ Hlog Hlog') as Happ.
      rewrite Nat.add_1_r in Happ.
      destruct r as [s'|e].
      * split; [exact Happ|].
        eapply collect_frame_trans; [exact Hfr|]. apply Hfr'. reflexivity.
      * exists (S k). split; [lia|exact Happ].
  - intros t [l'|e] H; exact H.
Qed.

Lemma evaluate_log_nil l : evaluate_log l [].
Proof. split; constructor. Qed.

Lemma evaluate_log_app l t1 t2 :
  evaluate_log l t1 -> evaluate_log l t2 -> evaluate_log l (t1 ++ t2).
Proof.
  intros [H1 H2] [H3 H4]. unfold evaluate_log, policy_reads in *.
  rewrite flat_map_app. split; apply Forall_app; auto.
Qed.

Lemma evaluate_step_sat args step s :
  sat (evaluate_step args step s)
    (fun t r => evaluate_log (snd s) t /\
                forall s', r = Ok s' ->
                  exists e, snd s' = set_test_episode_rewards e (snd s)).
Proof.
  unfold evaluate_step. exec_r.
  - split; [log_explicit|]. intros s' [= <-]. eexists. reflexivity.
  - split; [log_explicit|]. discriminate.
Qed.

Lemma evaluate_sat args l : sat (evaluate args l) (evaluate_post args l).
Proof.
  unfold evaluate. apply sat_bind. exec_call. cbv beta iota.
  apply sat_bind. eapply sat_mono.
  - apply (sat_for_range (evaluate_step args)
             (fun _ t s => evaluate_log l t /\
                           exists e, snd s = set_test_episode_rewards e l)
             (fun t _ => evaluate_log l t)).
    + split; [apply evaluate_log_nil|].
      exists (test_episode_rewards l). destruct l; reflexivity.
    + intros k t s _ [Hlog [e He]].
      eapply sat_mono; [apply evaluate_step_sat|].
      intros t' r' [Hlog' Hfr']. rewrite He in Hlog', Hfr'.
      pose proof (evaluate_log_app _ _ _ Hlog Hlog') as Happ.
      destruct r' as [s'|e']; [|exact Happ].
      split; [exact Happ|].
      destruct (Hfr' s' eq_refl) as [e' ->]. exists e'. reflexivity.
  - assert (H0 : evaluate_log l [Called TestEnvsReset r]) by log_explicit.
    intros t [s|e] H.
    + destruct H as [Hlog [e He]]. apply sat_ret. split.
      * rewrite app_nil_r. apply (evaluate_log_app _ _ _ H0 Hlog).
      * intros l' [= <-]. exists e. exact He.
    + split; [apply (evaluate_log_app _ _ _ H0 H)|discriminate].
Qed.

(** The loop body meets its summary. *)
Lemma update_sat args num_updates j l :
  sat (update args num_updates j l) (update_post args num_updates j l).
Proof.
  unfold update, update_post.
  apply sat_seq; [apply schedule_sat|]. intros l1.
  apply sat_seq; [apply collect_sat|]. intros l2.
  apply sat_seq; [apply evaluate_sat|]. intros l3.
  apply sat_seq; [apply escalate_sat|]. intros l4.
  apply sat_seq; [apply advantage_sat|]. intros l5.
  apply sat_seq; [apply optimize_sat|]. intros ul.
  apply checkpoint_sat.
Qed.

(** ** A completed update *)

Ltac post_inv H :=
  let t1 := fresh "t" in
  let r1 := fresh "r" in
  let H1 := fresh "P" in
  destruct H as (t1 & r1 & H1 & H);
  destruct r1 as [?|?];
  [ destruct H as (? & -> & H)
  | destruct H as [_ H]; discriminate H ].

Lemma checkpoint_ok args num_updates j u l t l' :
  checkpoint_post args num_updates j u l t (Ok l') ->
  exists t_fork l7 t_best,
    t = checkpoint_log args num_updates j u l l' t_fork t_best /\
    fork_post args (after_naming args num_updates j l) t_fork (Ok l7) /\
    best_post args (after_naming args num_updates j l).(actor_critic) l7
      t_best (Ok l').
Proof.
  unfold checkpoint_post. intros H.
  post_inv H. destruct P as [-> _].
  post_inv H. rename P into Hfork.
  post_inv H. destruct P as ([] & -> & _).
  post_inv H. rename P into Hbest.
  post_inv H. destruct P as [-> _].
  destruct H as [-> [= ->]].
  eexists _, _, _. split; [|split; eassumption].
  unfold checkpoint_log. rewrite app_nil_r. reflexivity.
Qed.

Lemma after_naming_actor_critic args num_updates j l :
  actor_critic (after_naming args num_updates j l) = actor_critic l.
Proof. unfold after_naming. destruct (checkpoint_due _ _ _ _); reflexivity. Qed.

Lemma update_ok args num_updates j l t l' :
  update_post args num_updates j l t (Ok l') ->
  completed args num_updates j l t l'.
Proof.
  unfold update_post. intros H.
  post_inv H. destruct P as (o & -> & [= ->]).
  post_inv H. destruct P as [Hlog Hfr].
  post_inv H. destruct P as [Helog Hefr].
  destruct (Hefr _ eq_refl) as [e3 ->].
  post_inv H. rename P into Hesc.
  post_inv H. destruct P as (v & s & -> & [= ->]).
  post_inv H. destruct P as (u & s' & -> & [= ->]).
  apply checkpoint_ok in H. destruct H as (t_fork & l7 & t_best & -> & Hfork & Hbest).
  simpl fst in *. simpl snd in *.
  unfold completed. do 14 eexists. cbv zeta.
  rewrite after_naming_actor_critic in Hbest.
  split; [reflexivity|]. repeat (split; [eassumption|]). eassumption.
Qed.

(** ** What the log of a phase can and cannot contain *)

Lemma quiet {B} (g : entry -> list B) (p : phase) (t : list entry) :
  (forall e, phase_of e = p -> g e = []) ->
  Forall (fun e => phase_of e = p) t ->
  flat_map g t = [].
Proof.
  intros Hg Ht. induction Ht as [|e t He _ IH]; simpl; [reflexivity|].
  rewrite (Hg e He), IH. reflexivity.
Qed.

Ltac by_call :=
  let e := fresh "e" in
  let c := fresh "c" in
  intros e; destruct e as [? c ?]; destruct c; simpl;
  repeat match goal with
         | |- context [match ?x with _ => _ end] => destruct x
         end;
  congruence.

(** Fields of nested record updates, without unfolding anything else. *)
Ltac norm_fields :=
  cbn [handles curriculum specialist sampling_threshold actor_critic
       agent_optimizer rollouts current_obs episode_rewards
       test_episode_rewards next_checkpoint max_ep_reward
       set_curriculum set_specialist set_actor_critic set_agent_optimizer
       set_rollouts set_current_obs set_episode_rewards
       set_test_episode_rewards set_next_checkpoint set_max_ep_reward] in *.

Ltac quiet_at lem H :=
  match type of H with
  | Forall (fun e => phase_of e = ?p) ?t =>
      rewrite (lem p t) by (discriminate || exact H)
  end.

Lemma collect_log_phase l k t :
  collect_log l k t -> Forall (fun e => phase_of e = Collect) t.
Proof. intros H. apply H. Qed.

Lemma evaluate_log_phase l t :
  evaluate_log l t -> Forall (fun e => phase_of e = Evaluate) t.
Proof. intros H. apply H. Qed.

Lemma escalate_phase args l t r :
  escalate_post args l t r -> Forall (fun e => phase_of e = Escalate) t.
Proof.
  unfold escalate_post.
  destruct (use_curriculum args); [|intros [-> _]; constructor].
  destruct (900 <? _)%float; [destruct (curriculum l)|];
    intros [-> _]; repeat constructor.
Qed.

Lemma deepcopy_log_phase args l :
  Forall (fun e => phase_of e = Checkpoint) (deepcopy_log args l).
Proof. unfold deepcopy_log. destruct (cuda args); repeat constructor. Qed.

Lemma fork_phase args l t r :
  fork_post args l t r -> Forall (fun e => phase_of e = Checkpoint) t.
Proof.
  unfold fork_post.
  destruct (use_specialist args); [|intros [-> _]; constructor].
  destruct (1000 <? _)%float; [destruct (specialist l)|];
    intros [-> _]; repeat constructor.
  apply Forall_app. split; [apply deepcopy_log_phase|repeat constructor].
Qed.

Lemma best_phase args p l t r :
  best_post args p l t r -> Forall (fun e => phase_of e = Checkpoint) t.
Proof.
  unfold best_post.
  destruct (1 <? _); [|intros [-> _]; constructor].
  destruct (_ <? _)%float; intros [-> _]; repeat constructor.
Qed.

Lemma checkpoint_log_phase args num_updates j u l l2 t_fork r_fork t_best r_best p l1 :
  fork_post args (after_naming args num_updates j l) t_fork r_fork ->
  best_post args p l1 t_best r_best ->
  Forall (fun e => phase_of e = Checkpoint)
    (checkpoint_log args num_updates j u l l2 t_fork t_best).
Proof.
  intros Hf Hb. unfold checkpoint_log.
  repeat (apply Forall_app; split).
  - apply deepcopy_log_phase.
  - eapply fork_phase, Hf.
  - repeat constructor.
  - eapply best_phase, Hb.
  - destruct (1 <? _); repeat constructor.
Qed.

(** ** Which locals a phase can change *)

Lemma escalate_ok args l t l' :
  escalate_post args l t (Ok l') -> exists c, l' = set_curriculum c l.
Proof.
  unfold escalate_post.
  destruct (use_curriculum args);
    [destruct (900 <? _)%float; [destruct (curriculum l) eqn:Hc|]|].
  - intros [_ [= ->]]. eexists. reflexivity.
  - intros [_ [=]].
  - intros [_ [= ->]]. exists (curriculum l). destruct l; reflexivity.
  - intros [_ [= ->]]. exists (curriculum l). destruct l; reflexivity.
Qed.

Lemma fork_ok args l t l' :
  fork_post args l t (Ok l') -> exists s, l' = set_specialist s l.
Proof.
  unfold fork_post.
  destruct (use_specialist args);
    [destruct (1000 <? _)%float; [destruct (specialist l) eqn:Hs|]|].
  - intros [_ [= ->]]. eexists. reflexivity.
  - intros [_ [=]].
  - intros [_ [= ->]]. exists (specialist l). destruct l; reflexivity.
  - intros [_ [= ->]]. exists (specialist l). destruct l; reflexivity.
Qed.

Lemma best_ok args p l t l' :
  best_post args p l t (Ok l') -> exists m, l' = set_max_ep_reward m l.
Proof.
  unfold best_post.
  destruct (1 <? _); [destruct (_ <? _)%float|].
  - intros [_ [= ->]]. eexists. reflexivity.
  - intros [_ [= ->]]. exists (max_ep_reward l). destruct l; reflexivity.
  - intros [_ [= ->]]. exists (max_ep_reward l). destruct l; reflexivity.
Qed.

Lemma after_naming_frame args num_updates j l :
  exists q, after_naming args num_updates j l = set_next_checkpoint q l.
Proof.
  unfold after_naming. destruct (checkpoint_due _ _ _ _).
  - eexists. reflexivity.
  - exists (next_checkpoint l). destruct l; reflexivity.
Qed.

Lemma collect_frame_keeps l l' :
  collect_frame l l' ->
  curriculum l' = curriculum l /\ specialist l' = specialist l /\
  actor_critic l' = actor_critic l /\
  agent_optimizer l' = agent_optimizer l /\
  max_ep_reward l' = max_ep_reward l.
Proof. intros (r & o & e & ->). repeat split. Qed.

Lemma escalate_keeps args l t l' :
  escalate_post args l t (Ok l') ->
  specialist l' = specialist l /\ actor_critic l' = actor_critic l /\
  agent_optimizer l' = agent_optimizer l /\ rollouts l' = rollouts l /\
  episode_rewards l' = episode_rewards l /\
  max_ep_reward l' = max_ep_reward l.
Proof. intros H. destruct (escalate_ok _ _ _ _ H) as [c ->]. repeat split. Qed.

Lemma after_naming_keeps args num_updates j l :
  curriculum (after_naming args num_updates j l) = curriculum l /\
  specialist (after_naming args num_updates j l) = specialist l /\
  actor_critic (after_naming args num_updates j l) = actor_critic l /\
  episode_rewards (after_naming args num_updates j l) = episode_rewards l /\
  max_ep_reward (after_naming args num_updates j l) = max_ep_reward l.
Proof.
  destruct (after_naming_frame args num_updates j l) as [q ->]. repeat split.
Qed.

Lemma fork_keeps args l t l' :
  fork_post args l t (Ok l') ->
  curriculum l' = curriculum l /\ actor_critic l' = actor_critic l /\
  episode_rewards l' = episode_rewards l /\
  max_ep_reward l' = max_ep_reward l.
Proof. intros H. destruct (fork_ok _ _ _ _ H) as [s ->]. repeat split. Qed.

Lemma best_keeps args p l t l' :
  best_post args p l t (Ok l') ->
  curriculum l' = curriculum l /\ specialist l' = specialist l /\
  actor_critic l' = actor_critic l /\
  episode_rewards l' = episode_rewards l.
Proof. intros H. destruct (best_ok _ _ _ _ _ H) as [m ->]. repeat split. Qed.

(** ** Observations distribute over concatenated logs *)

Lemma curriculum_pushes_app t1 t2 :
  curriculum_pushes (t1 ++ t2) = curriculum_pushes t1 ++ curriculum_pushes t2.
Proof. apply flat_map_app. Qed.

Lemma specialist_pushes_app t1 t2 :
  specialist_pushes (t1 ++ t2) = specialist_pushes t1 ++ specialist_pushes t2.
Proof. apply flat_map_app. Qed.

Lemma saved_under_app f t1 t2 :
  saved_under f (t1 ++ t2) = saved_under f t1 ++ saved_under f t2.
Proof. apply flat_map_app. Qed.

Lemma aggregated_app t1 t2 :
  aggregated (t1 ++ t2) = aggregated t1 ++ aggregated t2.
Proof. apply flat_map_app. Qed.

Lemma lr_settings_app t1 t2 :
  lr_settings (t1 ++ t2) = lr_settings t1 ++ lr_settings t2.
Proof. apply flat_map_app. Qed.

Lemma policy_reads_app t1 t2 :
  policy_reads (t1 ++ t2) = policy_reads t1 ++ policy_reads t2.
Proof. apply flat_map_app. Qed.

Lemma policy_writes_app t1 t2 :
  policy_writes (t1 ++ t2) = policy_writes t1 ++ policy_writes t2.
Proof. apply flat_map_app. Qed.

Lemma update_optims_app t1 t2 :
  update_optims (t1 ++ t2) = update_optims t1 ++ update_optims t2.
Proof. apply flat_map_app. Qed.

Lemma step_answers_app t1 t2 :
  step_answers (t1 ++ t2) = step_answers t1 ++ step_answers t2.
Proof. apply flat_map_app. Qed.

Lemma inserted_masks_app t1 t2 :
  inserted_masks (t1 ++ t2) = inserted_masks t1 ++ inserted_masks t2.
Proof. apply flat_map_app. Qed.

(** No curriculum level is pushed outside the escalation phase. *)
Lemma curriculum_pushes_quiet p t :
  p <> Escalate ->
  Forall (fun e => phase_of e = p) t -> curriculum_pushes t = [].
Proof. intros Hp. apply quiet. revert Hp. clear. intros Hp. by_call. Qed.

(** The curriculum side of a completed update: only the escalation phase
    pushes a level, it decides on the rewards the update ends with, and no
    other phase touches the counter. *)
Lemma completed_curriculum args num_updates j l t l' :
  completed args num_updates j l t l' ->
  exists t4 l3 l4,
    escalate_post args l3 t4 (Ok l4) /\
    curriculum_pushes t = curriculum_pushes t4 /\
    curriculum l3 = curriculum l /\
    episode_rewards l3 = episode_rewards l' /\
    curriculum l' = curriculum l4.
Proof.
  intros (o & t2 & l2 & t3 & e3 & t4 & l4 & v & s & u & s' & t_fork & l7 &
          t_best & Ht & Hlog & Hfr & Helog & Hesc & Hfork & Hbest).
  cbv zeta in *.
  pose proof (checkpoint_log_phase _ _ _ u _ l' _ _ _ _ _ _ Hfork Hbest) as Hck.
  pose proof (escalate_phase _ _ _ _ Hesc) as Hep.
  destruct (collect_frame_keeps _ _ Hfr) as (Fc2 & Fs2 & Fa2 & Fo2 & Fm2).
  destruct (escalate_keeps _ _ _ _ Hesc) as (Fs4 & Fa4 & Fo4 & Fr4 & Fe4 & Fm4).
  match type of Hfork with
  | fork_post _ (after_naming _ _ _ ?x) _ _ =>
      destruct (after_naming_keeps args num_updates j x)
        as (Fc6 & Fs6 & Fa6 & Fe6 & Fm6)
  end.
  destruct (fork_keeps _ _ _ _ Hfork) as (Fc7 & Fa7 & Fe7 & Fm7).
  destruct (best_keeps _ _ _ _ _ Hbest) as (Fc8 & Fs8 & Fa8 & Fe8).
  norm_fields.
  exists t4, (set_test_episode_rewards e3 l2), l4.
  split; [exact Hesc|]. split; [|split; [|split]].
  - rewrite Ht, !curriculum_pushes_app.
    rewrite (curriculum_pushes_quiet Collect t2) by (discriminate || apply Hlog).
    rewrite (curriculum_pushes_quiet Evaluate t3) by (discriminate || apply Helog).
    quiet_at curriculum_pushes_quiet Hck.
    simpl. rewrite app_nil_r. reflexivity.
  - norm_fields. rewrite Fc2. reflexivity.
  - norm_fields. rewrite Fe8, Fe7, Fe6, Fe4. reflexivity.
  - rewrite Fc8, Fc7, Fc6. reflexivity.
Qed.

(** ** File names *)

Lemma string_app_nil (t : string) : "" +:+ t = t.
Proof. reflexivity. Qed.

Lemma string_app_cons (c : ascii) (s t : string) :
  String c s +:+ t = String c (s +:+ t).
Proof. reflexivity. Qed.

Lemma string_app_inv_head (s a b : string) : s +:+ a = s +:+ b -> a = b.
Proof.
  induction s as [|c s IH]; [auto|].
  rewrite !string_app_cons. intros [= H]. auto.
Qed.

Lemma digit_char_code (d : Z) :
  0 <= d < 10 -> nat_of_ascii (digit_char d) = (48 + Z.to_nat d)%nat.
Proof.
  intros Hd. unfold digit_char. apply nat_ascii_embedding. lia.
Qed.

(** The first character of a formatted number is a digit. *)
Lemma fmt_digits_acc fuel n acc :
  (exists d rest, acc = String (digit_char (d mod 10)) rest) ->
  exists d rest, fmt_digits fuel n acc = String (digit_char (d mod 10)) rest.
Proof.
  revert n acc. induction fuel as [|fuel IH]; intros n acc Hacc; simpl.
  - exact Hacc.
  - destruct (n <? 10); [eauto|]. apply IH. eauto.
Qed.

Lemma fmt_digits_head fuel n acc :
  exists d rest, fmt_digits (S fuel) n acc = String (digit_char (d mod 10)) rest.
Proof.
  simpl. destruct (n <? 10); [eauto|]. apply fmt_digits_acc. eauto.
Qed.

Lemma fmt_d_not_best n tail : fmt_d n +:+ tail <> "best.pt"%string.
Proof.
  unfold fmt_d. destruct (n <? 0).
  - rewrite string_app_cons. intros H. discriminate H.
  - destruct (fmt_digits_head (Z.to_nat (Z.log2 n)) n "") as (d & rest & E).
    rewrite E, string_app_cons. intros [= H _].
    apply (f_equal nat_of_ascii) in H.
    rewrite digit_char_code in H by (apply Z.mod_pos_bound; lia).
    pose proof (Z.mod_pos_bound d 10 ltac:(lia)) as Hd.
    change (nat_of_ascii "b") with 98%nat in H. lia.
Qed.

Lemma checkpoint_name_not_best args n :
  String.eqb (checkpoint_name args n) (best_name args) = false.
Proof.
  apply String.eqb_neq. unfold checkpoint_name, best_name. intros H.
  apply string_app_inv_head in H.
  rewrite string_app_cons, string_app_nil in H. injection H as H.
  exact (fmt_d_not_best _ _ H).
Qed.

Lemma latest_name_not_best args :
  String.eqb (latest_name args) (best_name args) = false.
Proof.
  apply String.eqb_neq. unfold latest_name, best_name. intros H.
  apply string_app_inv_head in H. discriminate H.
Qed.

Lemma specialist_name_not_best args s :
  String.eqb (specialist_name args s) (best_name args) = false.
Proof.
  apply String.eqb_neq. unfold specialist_name, best_name. intros H.
  apply string_app_inv_head in H.
  rewrite !string_app_cons in H. discriminate H.
Qed.

Lemma model_name_not_best args num_updates j l :
  String.eqb (model_name args num_updates j l) (best_name args) = false.
Proof.
  unfold model_name. destruct (checkpoint_due _ _ _ _).
  - apply checkpoint_name_not_best.
  - apply latest_name_not_best.
Qed.

(** ** The best snapshot *)

Lemma saved_under_quiet f p t :
  p <> Checkpoint ->
  Forall (fun e => phase_of e = p) t -> saved_under f t = [].
Proof. intros Hp. apply quiet. revert Hp. clear. intros Hp. by_call. Qed.

Lemma deepcopy_log_saves f args l : saved_under f (deepcopy_log args l) = [].
Proof. unfold deepcopy_log. destruct (cuda args); reflexivity. Qed.

Lemma fork_saves_no_best args l t r :
  fork_post args l t r -> saved_under (best_name args) t = [].
Proof.
  unfold fork_post.
  destruct (use_specialist args); [|intros [-> _]; reflexivity].
  destruct (1000 <? _)%float; [destruct (specialist l)|];
    intros [-> _]; try reflexivity.
  change (Called ?c ?r :: ?a ++ ?b) with ([Called c r] ++ a ++ b).
  rewrite !saved_under_app, deepcopy_log_saves. simpl.
  rewrite specialist_name_not_best. reflexivity.
Qed.

(** The best-snapshot side of a completed update: the check runs on the
    rewards, the running maximum and the parameters the update ends with,
    and nothing else writes under the best name. *)
Lemma completed_best args num_updates j l t l' :
  completed args num_updates j l t l' ->
  exists t_best l7,
    best_post args l'.(actor_critic) l7 t_best (Ok l') /\
    saved_under (best_name args) t = saved_under (best_name args) t_best /\
    episode_rewards l7 = episode_rewards l' /\
    max_ep_reward l7 = max_ep_reward l.
Proof.
  intros (o & t2 & l2 & t3 & e3 & t4 & l4 & v & s & u & s' & t_fork & l7 &
          t_best & Ht & Hlog & Hfr & Helog & Hesc & Hfork & Hbest).
  cbv zeta in *.
  pose proof (checkpoint_log_phase _ _ _ u _ l' _ _ _ _ _ _ Hfork Hbest) as Hck.
  pose proof (escalate_phase _ _ _ _ Hesc) as Hep.
  destruct (collect_frame_keeps _ _ Hfr) as (Fc2 & Fs2 & Fa2 & Fo2 & Fm2).
  destruct (escalate_keeps _ _ _ _ Hesc) as (Fs4 & Fa4 & Fo4 & Fr4 & Fe4 & Fm4).
  match type of Hfork with
  | fork_post _ (after_naming _ _ _ ?x) _ _ =>
      destruct (after_naming_keeps args num_updates j x)
        as (Fc6 & Fs6 & Fa6 & Fe6 & Fm6)
  end.
  destruct (fork_keeps _ _ _ _ Hfork) as (Fc7 & Fa7 & Fe7 & Fm7).
  destruct (best_keeps _ _ _ _ _ Hbest) as (Fc8 & Fs8 & Fa8 & Fe8).
  norm_fields.
  pose proof (fork_saves_no_best _ _ _ _ Hfork) as Hfs.
  exists t_best, l7.
  split; [|split; [|split]].
  - replace (actor_critic l') with (ur_net u); [exact Hbest|].
    rewrite Fa8, Fa7, Fa6. reflexivity.
  - rewrite Ht. unfold checkpoint_log.
    rewrite !saved_under_app, Hfs, deepcopy_log_saves.
    rewrite (saved_under_quiet _ Collect t2) by (discriminate || apply Hlog).
    rewrite (saved_under_quiet _ Evaluate t3) by (discriminate || apply Helog).
    rewrite (saved_under_quiet _ Escalate t4) by (discriminate || exact Hep).
    simpl. rewrite model_name_not_best. simpl.
    destruct (1 <? _); simpl; rewrite app_nil_r; reflexivity.
  - symmetry. exact Fe8.
  - rewrite Fm7, Fm6. norm_fields. rewrite Fm4. norm_fields. rewrite Fm2.
    reflexivity.
Qed.

(** ** An update, however it ends *)

Lemma bump_stay c : bump c [] c.
Proof. left. split; reflexivity. Qed.

Lemma escalate_bump args l t r :
  escalate_post args l t r ->
  exists c', bump l.(curriculum) (curriculum_pushes t) c' /\
             forall l', r = Ok l' -> l' = set_curriculum c' l.
Proof.
  unfold escalate_post.
  destruct (use_curriculum args);
    [destruct (900 <? _)%float; [destruct (curriculum l) as [c|] eqn:Hc|]|];
    intros [-> ->].
  - exists (Some (c + 1)). split; [right; exists c; repeat split|].
    intros l' [= <-]. reflexivity.
  - exists None. split; [apply bump_stay|discriminate].
  - exists (curriculum l). split; [apply bump_stay|].
    intros l' [= <-]. destruct l; reflexivity.
  - exists (curriculum l). split; [apply bump_stay|].
    intros l' [= <-]. destruct l; reflexivity.
Qed.

Lemma specialist_pushes_quiet p t :
  p <> Checkpoint ->
  Forall (fun e => phase_of e = p) t -> specialist_pushes t = [].
Proof. intros Hp. apply quiet. revert Hp. clear. intros Hp. by_call. Qed.

Lemma deepcopy_log_specialist args l : specialist_pushes (deepcopy_log args l) = [].
Proof. unfold deepcopy_log. destruct (cuda args); reflexivity. Qed.

Lemma fork_bump args l t r :
  fork_post args l t r ->
  exists s', bump l.(specialist) (specialist_pushes t) s' /\
             forall l', r = Ok l' -> l' = set_specialist s' l.
Proof.
  unfold fork_post.
  destruct (use_specialist args);
    [destruct (1000 <? _)%float; [destruct (specialist l) as [s|] eqn:Hs|]|];
    intros [-> ->].
  - exists (Some (s + 1)). split.
    + right. exists s. repeat split.
      change (Called ?c ?r :: ?a ++ ?b) with ([Called c r] ++ a ++ b).
      rewrite !specialist_pushes_app, deepcopy_log_specialist. reflexivity.
    + intros l' [= <-]. reflexivity.
  - exists None. split; [apply bump_stay|discriminate].
  - exists (specialist l). split; [apply bump_stay|].
    intros l' [= <-]. destruct l; reflexivity.
  - exists (specialist l). split; [apply bump_stay|].
    intros l' [= <-]. destruct l; reflexivity.
Qed.


Lemma best_never_raises args p l t e : ~ best_post args p l t (Raise e).
Proof.
  unfold best_post. destruct (1 <? _); [destruct (_ <? _)%float|];
    intros [_ [=]].
Qed.

Lemma best_pushes args p l t r :
  best_post args p l t r -> specialist_pushes t = [].
Proof.
  unfold best_post. destruct (1 <? _); [destruct (_ <? _)%float|];
    intros [-> _]; reflexivity.
Qed.

Lemma after_naming_fields args num_updates j l :
  let l0 := after_naming args num_updates j l in
  curriculum l0 = curriculum l /\ specialist l0 = specialist l /\
  handles l0 = handles l /\ sampling_threshold l0 = sampling_threshold l.
Proof.
  destruct (after_naming_frame args num_updates j l) as [q ->].
  repeat split.
Qed.

(** The checkpoint phase, however it ends. *)
Lemma checkpoint_any args num_updates j u l t r :
  checkpoint_post args num_updates j u l t r ->
  Forall (fun e => phase_of e = Checkpoint) t /\
  exists s', bump l.(specialist) (specialist_pushes t) s' /\
    forall l', r = Ok l' ->
      l'.(specialist) = s' /\ l'.(curriculum) = l.(curriculum) /\
      l'.(handles) = l.(handles) /\
      l'.(sampling_threshold) = l.(sampling_threshold).
Proof.
  unfold checkpoint_post. intros H.
  destruct (after_naming_fields args num_updates j l) as (Hc & Hs & Hh & Ht).
  cbv zeta in Hc, Hs, Hh, Ht.
  destruct H as (t0 & r0 & [-> ->] & t' & -> & H).
  destruct H as (t1 & r1 & Hfork & H).
  pose proof (fork_phase _ _ _ _ Hfork) as Hfp.
  destruct (fork_bump _ _ _ _ Hfork) as (s' & Hbump & Hfr).
  rewrite Hs in Hbump.
  destruct r1 as [l1|e].
  2: { destruct H as [-> ->]. split.
       - apply Forall_app. split; [apply deepcopy_log_phase|exact Hfp].
       - exists s'. rewrite specialist_pushes_app, deepcopy_log_specialist.
         split; [exact Hbump|discriminate]. }
  destruct H as (t'' & -> & H).
  destruct H as (t2 & r2 & ([] & -> & ->) & t3' & -> & H).
  destruct H as (t3 & r3 & Hbest & H).
  destruct r3 as [l2|e]; [|destruct (best_never_raises _ _ _ _ _ Hbest)].
  destruct H as (t4' & -> & H).
  destruct H as (t4 & r4 & [-> ->] & t5 & -> & [-> ->]).
  split.
  - repeat (apply Forall_app; split).
    + apply deepcopy_log_phase.
    + exact Hfp.
    + repeat constructor.
    + eapply best_phase, Hbest.
    + destruct (1 <? _); repeat constructor.
    + constructor.
  - exists s'. split.
    + rewrite !specialist_pushes_app, deepcopy_log_specialist,
        (best_pushes _ _ _ _ _ Hbest).
      simpl. rewrite app_nil_r.
      destruct (1 <? _); simpl; rewrite app_nil_r; exact Hbump.
    + intros l' [= <-].
      destruct (best_ok _ _ _ _ _ Hbest) as [m ->].
      rewrite (Hfr _ eq_refl). simpl. rewrite Hc, Hh, Ht. repeat split.
Qed.

Lemma update_attempted args num_updates j l t r :
  update_post args num_updates j l t r -> attempted args num_updates j l t r.
Proof.
  unfold update_post. intros H.
  destruct H as (t1 & r1 & (o & -> & ->) & t' & -> & H).
  destruct H as (t2 & r2 & Hcol & H).
  destruct r2 as [l2|e].
  2: { destruct H as [-> ->]. destruct Hcol as (k & Hk & Hlog).
       exists o, t2, [], [], [], [], [], (curriculum l), (specialist l).
       split; [rewrite !app_nil_r; reflexivity|].
       split; [apply Hlog|]. do 5 (split; [constructor|]).
       split; [destruct Hlog as (_ & _ & <-); exact Hk|].
       split; [unfold updates_done; simpl; lia|].
       split; [apply bump_stay|]. split; [apply bump_stay|]. discriminate. }
  destruct Hcol as [Hlog Hfr]. destruct H as (ta & -> & H).
  assert (Hsteps : env_steps t2 = Z.to_nat (num_steps args)) by apply Hlog.
  destruct Hfr as (r2 & o2 & e2 & ->).
  destruct H as (t3 & r3 & [Helog Hefr] & H).
  destruct r3 as [l3|e].
  2: { destruct H as [-> ->].
       exists o, t2, t3, [], [], [], [], (curriculum l), (specialist l).
       split; [rewrite !app_nil_r; reflexivity|].
       split; [apply Hlog|]. split; [apply Helog|].
       do 4 (split; [constructor|]).
       split; [lia|]. split; [unfold updates_done; simpl; lia|].
       split; [apply bump_stay|]. split; [apply bump_stay|]. discriminate. }
  destruct (Hefr _ eq_refl) as [e3 ->]. destruct H as (tb & -> & H).
  destruct H as (t4 & r4 & Hesc & H).
  pose proof (escalate_phase _ _ _ _ Hesc) as Hep.
  destruct (escalate_bump _ _ _ _ Hesc) as (c' & Hbump & Hcfr).
  simpl in Hbump.
  destruct r4 as [l4|e].
  2: { destruct H as [-> ->].
       exists o, t2, t3, t4, [], [], [], c', (specialist l).
       split; [rewrite !app_nil_r; reflexivity|].
       split; [apply Hlog|]. split; [apply Helog|]. split; [exact Hep|].
       do 3 (split; [constructor|]).
       split; [lia|]. split; [unfold updates_done; simpl; lia|].
       split; [exact Hbump|]. split; [apply bump_stay|]. discriminate. }
  rewrite (Hcfr _ eq_refl) in *. clear Hcfr. destruct H as (tc & -> & H).
  destruct H as (t5 & r5 & (v & s & -> & ->) & td & -> & H).
  destruct H as (t6 & r6 & (u & s' & -> & ->) & t7 & -> & H).
  simpl fst in H. simpl snd in H.
  apply checkpoint_any in H.
  destruct H as (Hck & s7 & Hsb & Hfin). simpl in Hsb.
  eexists o, t2, t3, t4, _, _, t7, c', s7.
  split; [reflexivity|].
  split; [apply Hlog|]. split; [apply Helog|]. split; [exact Hep|].
  split; [repeat constructor|]. split; [repeat constructor|].
  split; [exact Hck|].
  split; [lia|]. split; [unfold updates_done; simpl; lia|].
  split; [exact Hbump|]. split; [exact Hsb|].
  intros l' Hl'. destruct (Hfin l' Hl') as (-> & -> & -> & ->).
  repeat split. exact Hsteps.
Qed.

Lemma update_attempt args num_updates j l :
  sat (update args num_updates j l) (attempted args num_updates j l).
Proof.
  eapply sat_mono; [apply update_sat|]. intros t r. apply update_attempted.
Qed.

(** ** Phase order *)

Lemma ranked_uniform p t :
  Forall (fun e => phase_of e = p) t ->
  ranked (source_rank p) (source_rank p) t.
Proof.
  intros H. split.
  - eapply Forall_impl; [exact H|]. intros e ->. lia.
  - unfold in_order. induction H as [|e t He Ht IH]; constructor; [exact IH|].
    eapply Forall_impl; [exact Ht|]. intros e' He'. simpl in He'.
    rewrite He, He'. lia.
Qed.

Lemma ranked_app a b c d t1 t2 :
  (a <= b)%nat -> (b <= c)%nat -> (c <= d)%nat ->
  ranked a b t1 -> ranked c d t2 -> ranked a d (t1 ++ t2).
Proof.
  intros Hab Hbc Hcd [H1 S1] [H2 S2]. split.
  - apply Forall_app. split.
    + eapply Forall_impl; [exact H1|]. simpl. intros. lia.
    + eapply Forall_impl; [exact H2|]. simpl. intros. lia.
  - apply StronglySorted_app_2; [|exact S1|exact S2].
    intros x1 x2 Hx1 Hx2.
    rewrite Forall_forall in H1, H2.
    specialize (H1 x1 Hx1). specialize (H2 x2 Hx2). simpl in *. lia.
Qed.

Lemma attempted_in_order args num_updates j l t r :
  attempted args num_updates j l t r -> in_order source_rank t.
Proof.
  intros (o & t2 & t3 & t4 & t5 & t6 & t7 & c' & s' & -> & H2 & H3 & H4 &
          H5 & H6 & H7 & _).
  apply ranked_uniform in H2, H3, H4, H5, H6, H7. simpl in *.
  assert (H1 : ranked 1 1
                 [Called (SetOptimizerLr (agent_optimizer l)
                            (scheduled_lr args num_updates j)) o;
                  Called (StateDictCopy (actor_critic l)) tt])
    by (apply (ranked_uniform Schedule); repeat constructor).
  pose proof (ranked_app 6 6 7 7 _ _ ltac:(lia) ltac:(lia) ltac:(lia) H6 H7) as R6.
  pose proof (ranked_app 5 5 6 7 _ _ ltac:(lia) ltac:(lia) ltac:(lia) H5 R6) as R5.
  pose proof (ranked_app 4 4 5 7 _ _ ltac:(lia) ltac:(lia) ltac:(lia) H4 R5) as R4.
  pose proof (ranked_app 3 3 4 7 _ _ ltac:(lia) ltac:(lia) ltac:(lia) H3 R4) as R3.
  pose proof (ranked_app 2 2 3 7 _ _ ltac:(lia) ltac:(lia) ltac:(lia) H2 R3) as R2.
  pose proof (ranked_app 1 1 2 7 _ _ ltac:(lia) ltac:(lia) ltac:(lia) H1 R2) as R1.
  apply R1.
Qed.

Lemma in_order_pair rank (t : list entry) i k e1 e2 :
  in_order rank t -> t !! i = Some e1 -> t !! k = Some e2 -> (i < k)%nat ->
  (rank (phase_of e1) <= rank (phase_of e2))%nat.
Proof.
  unfold in_order. intros H. revert i k.
  induction H as [|e t Ht IH Hall]; intros i k Hi Hk Hik; [discriminate|].
  destruct k as [|k]; [lia|]. simpl in Hk.
  destruct i as [|i]; simpl in Hi.
  - injection Hi as <-. rewrite Forall_forall in Hall.
    apply Hall. eapply list_elem_of_lookup_2, Hk.
  - apply (IH i k Hi Hk). lia.
Qed.

Lemma uniform_phases p (t : list entry) :
  Forall (fun e => phase_of e = p) t ->
  map phase_of t = replicate (length t) p.
Proof.
  intros H. induction H as [|e t He _ IH]; simpl; [reflexivity|].
  rewrite He, IH. reflexivity.
Qed.

(** ** Learning rate and policy parameters *)

Lemma lr_settings_quiet p t :
  p <> Schedule ->
  Forall (fun e => phase_of e = p) t -> lr_settings t = [].
Proof. intros Hp. apply quiet. revert Hp. clear. intros Hp. by_call. Qed.

Lemma update_optims_quiet p t :
  p <> Optimize ->
  Forall (fun e => phase_of e = p) t -> update_optims t = [].
Proof. intros Hp. apply quiet. revert Hp. clear. intros Hp. by_call. Qed.

Lemma policy_writes_quiet p t :
  p <> Optimize ->
  Forall (fun e => phase_of e = p) t -> policy_writes t = [].
Proof. intros Hp. apply quiet. revert Hp. clear. intros Hp. by_call. Qed.

Lemma policy_reads_quiet p t :
  p <> Collect -> p <> Evaluate -> p <> Advantage ->
  Forall (fun e => phase_of e = p) t -> policy_reads t = [].
Proof.
  intros H1 H2 H3. apply quiet. revert H1 H2 H3. clear. intros H1 H2 H3.
  by_call.
Qed.

Lemma step_answers_quiet p t :
  p <> Collect ->
  Forall (fun e => phase_of e = p) t -> step_answers t = [].
Proof. intros Hp. apply quiet. revert Hp. clear. intros Hp. by_call. Qed.

(** In any update the learning rate is set once, by the first call. *)
Lemma attempted_lr args num_updates j l t r :
  attempted args num_updates j l t r ->
  exists o rest,
    t = Called (SetOptimizerLr l.(agent_optimizer)
                  (scheduled_lr args num_updates j)) o :: rest /\
    lr_settings rest = [].
Proof.
  intros (o & t2 & t3 & t4 & t5 & t6 & t7 & c' & s' & -> & H2 & H3 & H4 &
          H5 & H6 & H7 & _).
  eexists o, _. split; [reflexivity|].
  change (?e :: ?t) with ([e] ++ t).
  rewrite !lr_settings_app.
  rewrite (lr_settings_quiet Collect t2), (lr_settings_quiet Evaluate t3),
    (lr_settings_quiet Escalate t4), (lr_settings_quiet Advantage t5),
    (lr_settings_quiet Optimize t6), (lr_settings_quiet Checkpoint t7)
    by (discriminate || assumption).
  reflexivity.
Qed.

(** The policy side of a completed update: every [act] and [get_value] call
    reads the parameters the update started with, the one write is that of
    [agent.update], which runs on the optimizer handed back by
    [set_optimizer_lr], and its result is what the update ends with. *)
Lemma completed_policy args num_updates j l t l' :
  completed args num_updates j l t l' ->
  Forall (fun p => p = l.(actor_critic)) (policy_reads t) /\
  policy_writes t = [(l.(actor_critic), l'.(actor_critic))] /\
  exists o rest,
    t = Called (SetOptimizerLr l.(agent_optimizer)
                  (scheduled_lr args num_updates j)) o :: rest /\
    update_optims t = [o].
Proof.
  intros (o & t2 & l2 & t3 & e3 & t4 & l4 & v & s & u & s' & t_fork & l7 &
          t_best & Ht & Hlog & Hfr & Helog & Hesc & Hfork & Hbest).
  cbv zeta in *.
  pose proof (checkpoint_log_phase _ _ _ u _ l' _ _ _ _ _ _ Hfork Hbest) as Hck.
  pose proof (escalate_phase _ _ _ _ Hesc) as Hep.
  destruct (collect_frame_keeps _ _ Hfr) as (Fc2 & Fs2 & Fa2 & Fo2 & Fm2).
  destruct (escalate_keeps _ _ _ _ Hesc) as (Fs4 & Fa4 & Fo4 & Fr4 & Fe4 & Fm4).
  match type of Hfork with
  | fork_post _ (after_naming _ _ _ ?x) _ _ =>
      destruct (after_naming_keeps args num_updates j x)
        as (Fc6 & Fs6 & Fa6 & Fe6 & Fm6)
  end.
  destruct (fork_keeps _ _ _ _ Hfork) as (Fc7 & Fa7 & Fe7 & Fm7).
  destruct (best_keeps _ _ _ _ _ Hbest) as (Fc8 & Fs8 & Fa8 & Fe8).
  norm_fields.
  destruct Hlog as (Hp2 & Hr2 & _). destruct Helog as (Hp3 & Hr3).
  norm_fields. rewrite Ht. split; [|split].
  - rewrite !policy_reads_app.
    rewrite (policy_reads_quiet Escalate t4) by (discriminate || assumption).
    quiet_at policy_reads_quiet Hck.
    simpl (policy_reads (_ :: _)).
    assert (Hr3' : Forall (fun p => p = actor_critic l) (policy_reads t3)).
    { eapply Forall_impl; [exact Hr3|]. intros p ->. exact Fa2. }
    assert (Ha4 : actor_critic l4 = actor_critic l).
    { rewrite Fa4. norm_fields. exact Fa2. }
    repeat (apply Forall_app; split);
      first [ exact Hr2 | exact Hr3' | constructor; [exact Ha4|constructor]
            | constructor ].
  - rewrite !policy_writes_app.
    rewrite (policy_writes_quiet Collect t2), (policy_writes_quiet Evaluate t3),
      (policy_writes_quiet Escalate t4)
      by (discriminate || assumption).
    quiet_at policy_writes_quiet Hck.
    simpl. rewrite Fa4. norm_fields. rewrite Fa2, Fa8, Fa7, Fa6. reflexivity.
  - eexists o, _. split; [reflexivity|].
    rewrite !update_optims_app.
    rewrite (update_optims_quiet Collect t2), (update_optims_quiet Evaluate t3),
      (update_optims_quiet Escalate t4)
      by (discriminate || assumption).
    quiet_at update_optims_quiet Hck.
    simpl. rewrite Fo4. norm_fields. rewrite Fo2. reflexivity.
Qed.

(** ** Masks *)

Lemma float_zero_one : 0%float <> 1%float.
Proof.
  intros H. apply (f_equal (fun x => PrimFloat.eqb x 0)) in H.
  vm_compute in H. discriminate H.
Qed.

Lemma scan_infos_bad_masks maxlen infos :
  forall k bm rw bm' rw',
    scan_infos maxlen k infos bm rw = Ok (bm', rw') ->
    (forall q, (q < k)%nat -> bm' !! q = bm !! q) /\
    (forall p i, infos !! p = Some i ->
       bm' !! (k + p)%nat =
         match i !! "bad_transition"%string with
         | Some _ => Some 0%float
         | None => bm !! (k + p)%nat
         end).
Proof.
  induction infos as [|i0 rest IH]; intros k bm rw bm' rw' H; simpl in H.
  - injection H as <- <-. split; [reflexivity|]. intros p i Hp. discriminate Hp.
  - destruct (i0 !! "bad_transition"%string) as [v|] eqn:Hkey.
    + unfold setitem in H. destruct (decide (k < length bm)%nat) as [Hk|]; [|discriminate H].
      simpl in H.
      destruct (match i0 !! "episode"%string with
                | Some v0 => _ | None => _ end) as [rw1|]; [|discriminate H].
      simpl in H. destruct (IH _ _ _ _ _ H) as [Ha Hb]. split.
      * intros q Hq. rewrite Ha by lia. apply list_lookup_insert_ne. lia.
      * intros p i Hp. destruct p as [|p]; simpl in Hp.
        -- injection Hp as <-. rewrite Hkey, Nat.add_0_r, Ha by lia.
           apply list_lookup_insert_eq. exact Hk.
        -- replace (k + S p)%nat with (S k + p)%nat by lia.
           rewrite (Hb p i Hp). destruct (i !! "bad_transition"%string); [reflexivity|].
           apply list_lookup_insert_ne. lia.
    + simpl in H.
      destruct (match i0 !! "episode"%string with
                | Some v0 => _ | None => _ end) as [rw1|]; [|discriminate H].
      simpl in H. destruct (IH _ _ _ _ _ H) as [Ha Hb]. split.
      * intros q Hq. apply Ha. lia.
      * intros p i Hp. destruct p as [|p]; simpl in Hp.
        -- injection Hp as <-. rewrite Hkey, Nat.add_0_r. apply Ha. lia.
        -- replace (k + S p)%nat with (S k + p)%nat by lia. apply (Hb p i Hp).
Qed.

(** The masks computed in one collection step agree with the step's answer. *)
Lemma scanned_masks_agree args (sr : step_result tensor) rw bm rw' :
  scan_infos args.(num_processes) 0 sr.(sr_infos)
    (np_ones args.(num_processes)) rw = Ok (bm, rw') ->
  masks_agree args.(num_processes) sr (continuation_masks sr.(sr_done), bm).
Proof.
  intros H. destruct (scan_infos_bad_masks _ _ _ _ _ _ _ H) as [_ Hb].
  intros p i d Hp Hi Hd. specialize (Hb p i Hi). simpl in Hb. simpl.
  assert (Hone : np_ones (num_processes args) !! p = Some 1%float)
    by (apply lookup_replicate_2; exact Hp).
  assert (Hm : continuation_masks (sr_done sr) !! p
               = Some (if d then 0%float else 1%float)).
  { unfold continuation_masks. rewrite list_lookup_fmap, Hd. reflexivity. }
  rewrite Hb, Hm, Hone.
  pose proof float_zero_one as H01.
  destruct (i !! "bad_transition"%string) as [v|]; destruct d;
    repeat split; intros; try congruence; try (eexists; reflexivity);
    try (destruct H0; congruence).
Qed.

Lemma silent_nil : silent [].
Proof. split; reflexivity. Qed.

Lemma plot_values_silent l : sat (plot_values l) (fun t _ => silent t).
Proof. unfold plot_values. exec_r; split; reflexivity. Qed.

Lemma adaptive_sampling_silent args l :
  sat (adaptive_sampling args l) (fun t _ => silent t).
Proof. unfold adaptive_sampling. exec_r; split; reflexivity. Qed.

Lemma threshold_sampling_silent args step l :
  sat (threshold_sampling args step l) (fun t _ => silent t).
Proof.
  unfold threshold_sampling, when, load_local.
  destruct (sampling_threshold l); destruct (plot_prob args && (step =? 0));
    exec_r; split; reflexivity.
Qed.

Lemma collect_step_masks args step l :
  sat (collect_step args step l) (step_masks_post args).
Proof.
  unfold collect_step, step_masks_post.
  apply sat_bind. exec_call. cbv beta iota.
  apply sat_bind. exec_call. cbv beta iota.
  eapply sat_bind_with;
    [apply sat_when_log; [apply plot_values_silent|apply silent_nil]|].
  intros t1 r1 [A1 I1].
  destruct r1 as [[]|e].
  2: { exists r0. rewrite !step_answers_app, !inserted_masks_app, A1, I1.
       split; reflexivity. }
  eapply sat_bind_with;
    [apply sat_when_log; [apply adaptive_sampling_silent|apply silent_nil]|].
  intros t2 r2 [A2 I2].
  destruct r2 as [[]|e].
  2: { exists r0. rewrite !step_answers_app, !inserted_masks_app, A1, I1, A2, I2.
       split; reflexivity. }
  eapply sat_bind_with;
    [apply sat_when_log; [apply threshold_sampling_silent|apply silent_nil]|].
  intros t3 r3 [A3 I3].
  destruct r3 as [[]|e].
  2: { exists r0.
       rewrite !step_answers_app, !inserted_masks_app, A1, I1, A2, I2, A3, I3.
       split; reflexivity. }
  apply sat_bind, sat_lift.
  destruct (scan_infos _ _ _ _ _) as [[bm rw']|e] eqn:Hscan.
  - apply sat_bind. exec_call. apply sat_ret. exists r0.
    rewrite !step_answers_app, !inserted_masks_app, A1, I1, A2, I2, A3, I3.
    split; [reflexivity|]. eexists. split; [reflexivity|].
    eapply scanned_masks_agree, Hscan.
  - exists r0.
    rewrite !step_answers_app, !inserted_masks_app, A1, I1, A2, I2, A3, I3.
    split; reflexivity.
Qed.

Lemma collect_masks args l :
  sat (collect args l) (fun t _ => masks_aligned args.(num_processes) t).
Proof.
  unfold collect. eapply sat_mono.
  - apply (sat_for_range (collect_step args)
             (fun _ t _ => masks_aligned (num_processes args) t /\
                           length (step_answers t) = length (inserted_masks t))
             (fun t _ => masks_aligned (num_processes args) t)).
    + split; [|reflexivity]. intros k sr mb Hk. discriminate Hk.
    + intros k t s _ [Hal Hlen].
      eapply sat_mono; [apply collect_step_masks|].
      intros t' r (sr & Hsr & Hr).
      assert (Hpre : forall k0 sr0 mb0,
                (step_answers t ++ [sr]) !! k0 = Some sr0 ->
                inserted_masks t !! k0 = Some mb0 ->
                masks_agree (num_processes args) sr0 mb0).
      { intros k0 sr0 mb0 H1 H2. apply (Hal k0); [|exact H2].
        apply lookup_lt_Some in H2 as Hlt.
        rewrite lookup_app_l in H1 by lia. exact H1. }
      destruct r as [s'|e].
      * destruct Hr as (mb & Hmb & Hagree). split.
        -- intros k0 sr0 mb0.
           rewrite step_answers_app, inserted_masks_app, Hsr, Hmb.
           intros H1 H2.
           destruct (decide (k0 < length (inserted_masks t))%nat) as [Hlt|Hge].
           ++ rewrite lookup_app_l in H2 by lia. apply (Hpre k0); assumption.
           ++ rewrite lookup_app_r in H1 by lia.
              rewrite lookup_app_r in H2 by lia. rewrite Hlen in H1.
              destruct (k0 - length (inserted_masks t))%nat; [|discriminate H1].
              simpl in H1, H2. injection H1 as <-. injection H2 as <-.
              exact Hagree.
        -- rewrite step_answers_app, inserted_masks_app, Hsr, Hmb, !length_app.
           simpl. lia.
      * intros k0 sr0 mb0.
        rewrite step_answers_app, inserted_masks_app, Hsr, Hr, app_nil_r.
        apply Hpre.
  - intros t [l'|e] H; [apply H|exact H].
Qed.

(** ** Whole runs *)

Lemma setup_sat args : sat (setup args) (setup_post args).
Proof.
  unfold setup, setup_post.
  destruct (use_curriculum args), (use_specialist args),
    (use_threshold_sampling args), (plot_prob args),
    (load_saved_controller args);
    exec; eexists; (split; [reflexivity|]); repeat split.
Qed.

Lemma attempted_summary args num_updates j l t r :
  attempted args num_updates j l t r -> update_summary args l t r.
Proof.
  intros (o & t2 & t3 & t4 & t5 & t6 & t7 & c' & s' & -> & H2 & H3 & H4 &
          H5 & H6 & H7 & Hsteps & Hupd & Hc & Hs & Hok).
  assert (Ec : curriculum_pushes
                 ([Called (SetOptimizerLr (agent_optimizer l)
                             (scheduled_lr args num_updates j)) o;
                   Called (StateDictCopy (actor_critic l)) tt] ++
                  t2 ++ t3 ++ t4 ++ t5 ++ t6 ++ t7) = curriculum_pushes t4).
  { rewrite !curriculum_pushes_app.
    rewrite (curriculum_pushes_quiet Collect t2),
      (curriculum_pushes_quiet Evaluate t3),
      (curriculum_pushes_quiet Advantage t5),
      (curriculum_pushes_quiet Optimize t6),
      (curriculum_pushes_quiet Checkpoint t7) by (discriminate || assumption).
    simpl. apply app_nil_r. }
  assert (Es : specialist_pushes
                 ([Called (SetOptimizerLr (agent_optimizer l)
                             (scheduled_lr args num_updates j)) o;
                   Called (StateDictCopy (actor_critic l)) tt] ++
                  t2 ++ t3 ++ t4 ++ t5 ++ t6 ++ t7) = specialist_pushes t7).
  { rewrite !specialist_pushes_app.
    rewrite (specialist_pushes_quiet Collect t2),
      (specialist_pushes_quiet Evaluate t3),
      (specialist_pushes_quiet Escalate t4),
      (specialist_pushes_quiet Advantage t5),
      (specialist_pushes_quiet Optimize t6) by (discriminate || assumption).
    reflexivity. }
  assert (Eu : update_optims
                 ([Called (SetOptimizerLr (agent_optimizer l)
                             (scheduled_lr args num_updates j)) o;
                   Called (StateDictCopy (actor_critic l)) tt] ++
                  t2 ++ t3 ++ t4 ++ t5 ++ t6 ++ t7) = update_optims t6).
  { rewrite !update_optims_app.
    rewrite (update_optims_quiet Collect t2),
      (update_optims_quiet Evaluate t3),
      (update_optims_quiet Escalate t4),
      (update_optims_quiet Advantage t5),
      (update_optims_quiet Checkpoint t7) by (discriminate || assumption).
    simpl. apply app_nil_r. }
  assert (Ea : step_answers
                 ([Called (SetOptimizerLr (agent_optimizer l)
                             (scheduled_lr args num_updates j)) o;
                   Called (StateDictCopy (actor_critic l)) tt] ++
                  t2 ++ t3 ++ t4 ++ t5 ++ t6 ++ t7) = step_answers t2).
  { rewrite !step_answers_app.
    rewrite (step_answers_quiet Evaluate t3),
      (step_answers_quiet Escalate t4),
      (step_answers_quiet Advantage t5),
      (step_answers_quiet Optimize t6),
      (step_answers_quiet Checkpoint t7) by (discriminate || assumption).
    simpl. apply app_nil_r. }
  exists c', s'. unfold updates_done, env_steps in *. rewrite Ec, Es, Eu, Ea.
  repeat (split; [assumption|]).
  intros l' Hl'. destruct (Hok l' Hl') as (? & ? & ? & ? & ? & ?).
  repeat split; assumption.
Qed.

Lemma update_summarised args num_updates j l :
  sat (update args num_updates j l) (update_summary args l).
Proof.
  eapply sat_mono; [apply update_attempt|]. intros t r.
  apply attempted_summary.
Qed.

Lemma counts_to_bump xs c p c' :
  counts_to xs c -> bump c p c' -> counts_to (xs ++ p) c'.
Proof.
  intros Hc [[-> ->]|(n & -> & -> & ->)].
  - rewrite app_nil_r. exact Hc.
  - destruct Hc as [Hn ->]. split; [lia|].
    replace (Z.to_nat (n + 1)) with (S (Z.to_nat n)) by lia.
    rewrite (seq_S (S (Z.to_nat n)) 0), map_app. simpl.
    repeat f_equal. lia.
Qed.

Lemma counts_to_from_zero xs c :
  counts_to xs c -> counts_from_zero xs /\ last xs = c.
Proof.
  unfold counts_to, counts_from_zero. destruct c as [n|].
  - intros [Hn ->]. rewrite length_map, length_seq. split; [reflexivity|].
    rewrite (seq_S (Z.to_nat n) 0), map_app.
    change (map Z.of_nat [(0 + Z.to_nat n)%nat]) with [Z.of_nat (Z.to_nat n)].
    rewrite last_snoc. f_equal. lia.
  - intros ->. split; reflexivity.
Qed.

Lemma setup_counts args t l0 :
  l0.(curriculum) = (if args.(use_curriculum) then Some 0 else None) ->
  l0.(specialist) = (if args.(use_specialist) then Some 0 else None) ->
  curriculum_pushes t = (if args.(use_curriculum) then [0] else []) ->
  specialist_pushes t = (if args.(use_specialist) then [0] else []) ->
  counts_to (curriculum_pushes t) l0.(curriculum) /\
  counts_to (specialist_pushes t) l0.(specialist).
Proof.
  intros -> -> -> ->.
  destruct (use_curriculum args), (use_specialist args); simpl;
    repeat split; lia.
Qed.

(** The whole run meets its summary. *)
Lemma train_sat args : sat (train args) (run_post args).
Proof.
  unfold train.
  eapply sat_bind_with; [apply setup_sat|].
  intros t0 r0 (l0 & -> & Hc & Hs & _ & _ & _ & _ & Pc & Ps & Pu & Pa & _).
  destruct (setup_counts args t0 l0 Hc Hs Pc Ps) as [Cc Cs].
  apply sat_bind, sat_lift.
  destruct (num_updates_of args) as [n|e] eqn:Hn.
  - eapply sat_mono.
    + apply (sat_for_range (update args n)
               (fun k t l =>
                  counts_to (curriculum_pushes (t0 ++ t)) l.(curriculum) /\
                  counts_to (specialist_pushes (t0 ++ t)) l.(specialist) /\
                  updates_done t = k /\
                  env_steps t = (k * Z.to_nat args.(num_steps))%nat)
               (fun t _ =>
                  (exists c, counts_to (curriculum_pushes (t0 ++ t)) c) /\
                  (exists s, counts_to (specialist_pushes (t0 ++ t)) s) /\
                  (updates_done t <= Z.to_nat n)%nat /\
                  (env_steps t <= Z.to_nat n * Z.to_nat args.(num_steps))%nat)).
      * rewrite app_nil_r. repeat split; assumption.
      * intros k t l Hk (Ic & Is & Iu & Ie).
        eapply sat_mono; [apply update_summarised|].
        intros t' r (c' & s' & Bc & Bs & Uu & Ue & Hok).
        pose proof (counts_to_bump _ _ _ _ Ic Bc) as Ic'.
        pose proof (counts_to_bump _ _ _ _ Is Bs) as Is'.
        rewrite <- curriculum_pushes_app, <- app_assoc in Ic'.
        rewrite <- specialist_pushes_app, <- app_assoc in Is'.
        unfold updates_done, env_steps in *.
        destruct r as [l'|e].
        -- destruct (Hok l' eq_refl) as (-> & -> & _ & _ & Hu1 & He1).
           split; [exact Ic'|]. split; [exact Is'|].
           rewrite update_optims_app, step_answers_app, !length_app. lia.
        -- split; [eauto|]. split; [eauto|].
           rewrite update_optims_app, step_answers_app, !length_app. nia.
    + intros t r H. cbv beta. rewrite app_nil_l.
      unfold run_post, updates_done, env_steps.
      rewrite update_optims_app, step_answers_app, Pu, Pa. simpl.
      destruct r as [l'|e].
      * destruct H as (Ic & Is & Iu & Ie).
        destruct (counts_to_from_zero _ _ Ic) as [Zc Lc].
        destruct (counts_to_from_zero _ _ Is) as [Zs Ls].
        unfold updates_done, env_steps in *.
        split; [exact Zc|]. split; [exact Zs|]. split.
        -- intros n' Hn'. rewrite Hn in Hn'. injection Hn' as <-. lia.
        -- intros l'' [= <-]. split; [auto|]. split; [auto|].
           exists n. repeat split; assumption.
      * destruct H as ((c & Ic) & (s & Is) & Iu & Ie).
        destruct (counts_to_from_zero _ _ Ic) as [Zc _].
        destruct (counts_to_from_zero _ _ Is) as [Zs _].
        split; [exact Zc|]. split; [exact Zs|]. split; [|discriminate].
        intros n' Hn'. rewrite Hn in Hn'. injection Hn' as <-.
        split; assumption.
  - rewrite app_nil_r.
    destruct (counts_to_from_zero _ _ Cc) as [Zc _].
    destruct (counts_to_from_zero _ _ Cs) as [Zs _].
    split; [exact Zc|]. split; [exact Zs|]. split; [|discriminate].
    intros n' Hn'. rewrite Hn in Hn'. discriminate Hn'.
Qed.

(** The specialist side of a completed update: only the fork pushes an
    index, it decides on the rewards the update ends with, and no other
    phase touches the counter. *)
Lemma completed_specialist args num_updates j l t l' :
  completed args num_updates j l t l' ->
  exists t_fork l0 l7,
    fork_post args l0 t_fork (Ok l7) /\
    specialist_pushes t = specialist_pushes t_fork /\
    specialist l0 = specialist l /\
    episode_rewards l0 = episode_rewards l' /\
    specialist l' = specialist l7.
Proof.
  intros (o & t2 & l2 & t3 & e3 & t4 & l4 & v & s & u & s' & t_fork & l7 &
          t_best & Ht & Hlog & Hfr & Helog & Hesc & Hfork & Hbest).
  cbv zeta in *.
  pose proof (checkpoint_log_phase _ _ _ u _ l' _ _ _ _ _ _ Hfork Hbest) as Hck.
  pose proof (escalate_phase _ _ _ _ Hesc) as Hep.
  destruct (collect_frame_keeps _ _ Hfr) as (Fc2 & Fs2 & Fa2 & Fo2 & Fm2).
  destruct (escalate_keeps _ _ _ _ Hesc) as (Fs4 & Fa4 & Fo4 & Fr4 & Fe4 & Fm4).
  match type of Hfork with
  | fork_post _ (after_naming _ _ _ ?x) _ _ =>
      destruct (after_naming_keeps args num_updates j x)
        as (Fc6 & Fs6 & Fa6 & Fe6 & Fm6)
  end.
  destruct (fork_keeps _ _ _ _ Hfork) as (Fc7 & Fa7 & Fe7 & Fm7).
  destruct (best_keeps _ _ _ _ _ Hbest) as (Fc8 & Fs8 & Fa8 & Fe8).
  norm_fields.
  pose proof (best_pushes _ _ _ _ _ Hbest) as Hbp.
  eexists t_fork, _, l7. split; [exact Hfork|].
  split; [|split; [|split]].
  - rewrite Ht. unfold checkpoint_log.
    rewrite !specialist_pushes_app, Hbp, deepcopy_log_specialist.
    rewrite (specialist_pushes_quiet Collect t2) by (discriminate || apply Hlog).
    rewrite (specialist_pushes_quiet Evaluate t3) by (discriminate || apply Helog).
    rewrite (specialist_pushes_quiet Escalate t4) by (discriminate || exact Hep).
    simpl. destruct (1 <? _); simpl; rewrite ?app_nil_r; reflexivity.
  - rewrite Fs6. norm_fields. rewrite Fs4. norm_fields. rewrite Fs2.
    reflexivity.
  - rewrite Fe8, Fe7. reflexivity.
  - exact Fs8.
Qed.

(** ** The frame budget *)

Lemma py_int_floor (q : Q) : (0 <= q)%Q -> py_int q = Qfloor q.
Proof.
  destruct q as [n d]. unfold Qle, py_int. simpl. intros H.
  apply Z.quot_div_nonneg; lia.
Qed.

Lemma Qfloor_div_pos (q : Q) (a : Z) :
  0 < a -> Qfloor (q / inject_Z a) = Qfloor q / a.
Proof.
  destruct q as [n d]. destruct a as [|pa|pa]; try lia. intros _.
  unfold Qdiv, Qmult, Qinv, inject_Z. simpl.
  rewrite Z.mul_1_r, Pos2Z.inj_mul, Z.div_div by lia. reflexivity.
Qed.

(** [num_updates] is the floor of the budget over the frames of one update,
    and that many updates stay within the budget. *)
Lemma num_updates_floor args :
  0 < args.(num_steps) -> 0 < args.(num_processes) ->
  (0 <= args.(num_frames))%Q ->
  num_updates_of args =
    Ok (Qfloor (args.(num_frames) / inject_Z args.(num_steps)
                / inject_Z args.(num_processes))) /\
  (inject_Z (Qfloor (args.(num_frames) / inject_Z args.(num_steps)
                     / inject_Z args.(num_processes))
             * args.(num_steps) * args.(num_processes))
   <= args.(num_frames))%Q.
Proof.
  intros Hs Hp Hf. rewrite !Qfloor_div_pos by assumption.
  unfold num_updates_of, floordiv.
  destruct (Z.eqb_spec (num_steps args) 0) as [E|_]; [lia|]. simpl.
  destruct (Z.eqb_spec (num_processes args) 0) as [E|_]; [lia|].
  rewrite py_int_floor by assumption. split; [reflexivity|].
  eapply Qle_trans; [|apply Qfloor_le].
  rewrite <- Zle_Qle.
  pose proof (Z.mul_div_le (Qfloor (num_frames args)) (num_steps args) Hs).
  pose proof (Z.mul_div_le (Qfloor (num_frames args) / num_steps args)
                (num_processes args) Hp).
  nia.
Qed.

Lemma num_updates_pos args :
  0 < args.(num_steps) -> 0 < args.(num_processes) ->
  args.(num_steps) * args.(num_processes) <= py_int args.(num_frames) ->
  exists n, num_updates_of args = Ok n /\ 1 <= n.
Proof.
  intros Hs Hp Hf. unfold num_updates_of, floordiv.
  destruct (Z.eqb_spec (num_steps args) 0) as [E|_]; [lia|]. simpl.
  destruct (Z.eqb_spec (num_processes args) 0) as [E|_]; [lia|].
  eexists. split; [reflexivity|].
  apply Z.div_le_lower_bound; [lia|].
  rewrite Z.mul_1_r. apply Z.div_le_lower_bound; [lia|exact Hf].
Qed.

(** ** The unbound name in the threshold-sampling plot *)

Lemma sat_conj {A} (m : M A) (P Q : list entry -> result A -> Prop) :
  sat m P -> sat m Q -> sat m (fun t r => P t r /\ Q t r).
Proof. intros HP HQ w. split; [apply HP|apply HQ]. Qed.

Lemma ax_is_unbound (bound : gset string) :
  load_name bound "ax" = Raise (NameError "ax").
Proof. reflexivity. Qed.

Lemma plot_handles_bound (x : string) :
  x = "ax1"%string \/ x = "ax2"%string \/ x = "fig"%string ->
  load_name ({["plt"; "fig"; "ax1"; "ax2"]}%string : gset string) x = Ok tt.
Proof. intros [->|[->| ->]]; vm_compute; reflexivity. Qed.

Lemma collect_step_crash args l :
  args.(plot_prob) = true ->
  args.(use_threshold_sampling) = true ->
  l.(handles) = ({["plt"; "fig"; "ax1"; "ax2"]}%string : gset string) ->
  is_Some l.(sampling_threshold) ->
  sat (collect_step args 0 l) (fun _ r => r = Raise (NameError "ax")).
Proof.
  intros Hp Ht Hh [v Hv].
  unfold collect_step, plot_values, adaptive_sampling, threshold_sampling,
    when, load_local.
  rewrite Hp, Ht, Hh, Hv.
  replace (true && (0 =? 0)) with true by reflexivity.
  rewrite !plot_handles_bound by auto. rewrite ax_is_unbound.
  destruct (use_adaptive_sampling args); exec; reflexivity.
Qed.

Lemma collect_crash args l :
  args.(plot_prob) = true ->
  args.(use_threshold_sampling) = true ->
  l.(handles) = ({["plt"; "fig"; "ax1"; "ax2"]}%string : gset string) ->
  is_Some l.(sampling_threshold) ->
  0 < args.(num_steps) ->
  sat (collect args l)
    (fun t r => r = Raise (NameError "ax") /\ collect_log l 1 t).
Proof.
  intros Hp Ht Hh Hv Hs. unfold collect, for_range.
  destruct (Z.to_nat (num_steps args)) as [|n] eqn:E; [lia|]. simpl.
  apply sat_bind. eapply sat_mono.
  - apply sat_conj; [apply collect_step_crash; assumption|apply collect_step_sat].
  - intros t r [-> [Hlog _]]. split; [reflexivity|exact Hlog].
Qed.

Lemma update_crash args num_updates j l :
  args.(plot_prob) = true ->
  args.(use_threshold_sampling) = true ->
  l.(handles) = ({["plt"; "fig"; "ax1"; "ax2"]}%string : gset string) ->
  is_Some l.(sampling_threshold) ->
  0 < args.(num_steps) ->
  sat (update args num_updates j l)
    (fun t r => r = Raise (NameError "ax") /\
                length (step_answers t) = 1%nat /\
                update_optims t = []).
Proof.
  intros Hp Ht Hh Hv Hs. unfold update.
  eapply sat_bind_with; [apply schedule_sat|].
  intros t1 r1 (o & -> & ->).
  apply sat_bind. eapply sat_mono.
  - apply (collect_crash args (set_agent_optimizer o l)); assumption.
  - intros t r [-> (Hph & _ & Hst)]. unfold env_steps in Hst.
    rewrite !step_answers_app, !update_optims_app.
    rewrite (update_optims_quiet Collect t) by (discriminate || exact Hph).
    simpl. repeat split. exact Hst.
Qed.

Lemma main_trace args w : trace_of (main args) w = trace_of (train args) w.
Proof.
  unfold main, trace_of, bind. destruct (train args w) as [[t w1] [a|e]];
    simpl; [apply app_nil_r|reflexivity].
Qed.

Lemma main_outcome args w :
  outcome_of (main args) w =
    match outcome_of (train args) w with
    | Ok _ => Ok tt
    | Raise e => Raise e
    end.
Proof.
  unfold main, outcome_of, bind. destruct (train args w) as [[t w1] [a|e]];
    reflexivity.
Qed.

Lemma train_crash args :
  args.(plot_prob) = true ->
  args.(use_threshold_sampling) = true ->
  0 < args.(num_steps) -> 0 < args.(num_processes) ->
  args.(num_steps) * args.(num_processes) <= py_int args.(num_frames) ->
  sat (train args)
    (fun t r => r = Raise (NameError "ax") /\
                env_steps t = 1%nat /\ updates_done t = 0%nat).
Proof.
  intros Hp Ht Hs Hw Hf. unfold train.
  eapply sat_bind_with; [apply setup_sat|].
  intros t0 r0 (l0 & -> & _ & _ & Hth & Hh & _ & _ & _ & _ & Pu & Pa & _).
  rewrite Ht in Hth. rewrite Hp in Hh.
  apply sat_bind, sat_lift.
  destruct (num_updates_pos args Hs Hw Hf) as (n & -> & Hn).
  unfold for_range. destruct (Z.to_nat n) as [|k] eqn:E; [lia|].
  simpl for_loop. apply sat_bind. eapply sat_mono.
  - apply (update_crash args n 0 l0); try assumption.
    rewrite Hth. eexists. reflexivity.
  - intros t r (-> & Hst & Hup). unfold env_steps, updates_done.
    rewrite !step_answers_app, !update_optims_app, Pu, Pa, Hup.
    simpl. repeat split. exact Hst.
Qed.

(** ** Aggregates over the reward deque *)

Lemma aggregated_quiet p t :
  p <> Escalate -> p <> Checkpoint ->
  Forall (fun e => phase_of e = p) t -> aggregated t = [].
Proof.
  intros H1 H2. apply quiet. revert H1 H2. clear. intros H1 H2. by_call.
Qed.

Lemma logged_app t1 t2 : logged (t1 ++ t2) = logged t1 ++ logged t2.
Proof. apply flat_map_app. Qed.

Lemma logged_quiet p t :
  p <> Checkpoint ->
  Forall (fun e => phase_of e = p) t -> logged t = [].
Proof. intros Hp. apply quiet. revert Hp. clear. intros Hp. by_call. Qed.

Lemma escalate_aggregated args l t l' :
  escalate_post args l t (Ok l') ->
  aggregated t = (if args.(use_curriculum) then [l.(episode_rewards)] else []).
Proof.
  unfold escalate_post. destruct (use_curriculum args);
    [destruct (900 <? _)%float; [destruct (curriculum l)|]|];
    intros [-> E]; reflexivity.
Qed.

Lemma deepcopy_log_quiet args l :
  aggregated (deepcopy_log args l) = [] /\ logged (deepcopy_log args l) = [].
Proof. unfold deepcopy_log. destruct (cuda args); split; reflexivity. Qed.

Lemma fork_aggregated args l t l' :
  fork_post args l t (Ok l') ->
  aggregated t = (if args.(use_specialist) then [l.(episode_rewards)] else [])
  /\ logged t = [].
Proof.
  unfold fork_post. destruct (use_specialist args);
    [destruct (1000 <? _)%float; [destruct (specialist l)|]|];
    intros [-> E]; try (split; reflexivity); try discriminate E.
  change (Called ?c ?r :: ?a ++ ?b) with ([Called c r] ++ a ++ b).
  destruct (deepcopy_log_quiet args l) as [Ea El].
  rewrite !aggregated_app, !logged_app, Ea, El. split; reflexivity.
Qed.

Lemma best_aggregated args p l t l' :
  best_post args p l t (Ok l') ->
  aggregated t =
    (if (1 <? Z.of_nat (length l.(episode_rewards)))
     then if (l.(max_ep_reward) <? np_mean l.(episode_rewards))%float
          then [l.(episode_rewards); l.(episode_rewards)]
          else [l.(episode_rewards)]
     else []) /\
  logged t = [].
Proof.
  unfold best_post. destruct (1 <? _); [destruct (_ <? _)%float|];
    intros [-> _]; split; reflexivity.
Qed.

(** The aggregates a completed update evaluates and the record it logs: the
    curriculum and the specialist checks evaluate theirs whenever their
    feature is enabled, the best-snapshot check and the logger only when
    more than one reward is recorded. *)
Lemma completed_aggregates args num_updates j l t l' :
  completed args num_updates j l t l' ->
  aggregated t =
    (if args.(use_curriculum) then [l'.(episode_rewards)] else []) ++
    (if args.(use_specialist) then [l'.(episode_rewards)] else []) ++
    (if (1 <? Z.of_nat (length l'.(episode_rewards)))
     then if (l.(max_ep_reward) <? np_mean l'.(episode_rewards))%float
          then [l'.(episode_rewards); l'.(episode_rewards)]
          else [l'.(episode_rewards)]
     else []) /\
  logged t =
    (if (1 <? Z.of_nat (length l'.(episode_rewards)))
     then [l'.(episode_rewards)] else []).
Proof.
  intros (o & t2 & l2 & t3 & e3 & t4 & l4 & v & s & u & s' & t_fork & l7 &
          t_best & Ht & Hlog & Hfr & Helog & Hesc & Hfork & Hbest).
  cbv zeta in *.
  pose proof (escalate_phase _ _ _ _ Hesc) as Hep.
  destruct (collect_frame_keeps _ _ Hfr) as (Fc2 & Fs2 & Fa2 & Fo2 & Fm2).
  destruct (escalate_keeps _ _ _ _ Hesc) as (Fs4 & Fa4 & Fo4 & Fr4 & Fe4 & Fm4).
  match type of Hfork with
  | fork_post _ (after_naming _ _ _ ?x) _ _ =>
      destruct (after_naming_keeps args num_updates j x)
        as (Fc6 & Fs6 & Fa6 & Fe6 & Fm6)
  end.
  destruct (fork_keeps _ _ _ _ Hfork) as (Fc7 & Fa7 & Fe7 & Fm7).
  destruct (best_keeps _ _ _ _ _ Hbest) as (Fc8 & Fs8 & Fa8 & Fe8).
  destruct (fork_aggregated _ _ _ _ Hfork) as [Af Lf].
  destruct (best_aggregated _ _ _ _ _ Hbest) as [Ab Lb].
  pose proof (escalate_aggregated _ _ _ _ Hesc) as Ae.
  norm_fields.
  assert (E7 : episode_rewards l7 = episode_rewards l') by (symmetry; exact Fe8).
  assert (E4 : episode_rewards l4 = episode_rewards l').
  { rewrite Fe8, Fe7, Fe6. reflexivity. }
  assert (M7 : max_ep_reward l7 = max_ep_reward l).
  { rewrite Fm7, Fm6. norm_fields. rewrite Fm4. norm_fields. exact Fm2. }
  rewrite Fe6 in Af. norm_fields. rewrite E4 in Af.
  rewrite <- Fe4, E4 in Ae. rewrite E7, M7 in Ab.
  destruct (deepcopy_log_quiet args
              (after_naming args num_updates j
                 (set_rollouts s' (set_agent_optimizer (ur_optim u)
                    (set_actor_critic (ur_net u) (set_rollouts s l4))))))
    as [Ad Ld].
  rewrite Ht. unfold checkpoint_log. split.
  - rewrite !aggregated_app, Ae, Af, Ab, Ad.
    rewrite (aggregated_quiet Collect t2) by (discriminate || apply Hlog).
    rewrite (aggregated_quiet Evaluate t3) by (discriminate || apply Helog).
    simpl. destruct (1 <? _); simpl; rewrite ?app_nil_r; reflexivity.
  - rewrite !logged_app, Lf, Lb, Ld.
    rewrite (logged_quiet Collect t2) by (discriminate || apply Hlog).
    rewrite (logged_quiet Evaluate t3) by (discriminate || apply Helog).
    rewrite (logged_quiet Escalate t4) by (discriminate || exact Hep).
    simpl. destruct (1 <? _); reflexivity.
Qed.

(** ** The frame budget

    With at least one step and one worker per update and a budget that is
    not negative, [num_updates] is the floor of
    [num_frames / num_steps / num_processes].  A run makes no more updates
    than that, however it ends, and exactly that many, of [num_steps] steps
    of the environments each, when it ends normally; that many updates stay
    within the budget. *)
Lemma frame_budget args w :
  0 < args.(num_steps) -> 0 < args.(num_processes) ->
  (0 <= args.(num_frames))%Q ->
  let n := Qfloor (args.(num_frames) / inject_Z args.(num_steps)
                   / inject_Z args.(num_processes)) in
  (updates_done (trace_of (main args) w) <= Z.to_nat n)%nat /\
  (env_steps (trace_of (main args) w)
   <= Z.to_nat n * Z.to_nat args.(num_steps))%nat /\
  (inject_Z (n * args.(num_steps) * args.(num_processes))
   <= args.(num_frames))%Q /\
  (outcome_of (main args) w = Ok tt ->
   updates_done (trace_of (main args) w) = Z.to_nat n /\
   env_steps (trace_of (main args) w)
     = (Z.to_nat n * Z.to_nat args.(num_steps))%nat).
Proof.
  intros Hs Hp Hf n.
  destruct (num_updates_floor args Hs Hp Hf) as [Hn Hle]. fold n in Hn, Hle.
  rewrite main_trace, main_outcome.
  pose proof (train_sat args w) as (_ & _ & Hany & Hok).
  destruct (Hany n Hn) as [Hu He].
  split; [exact Hu|]. split; [exact He|]. split; [exact Hle|].
  destruct (outcome_of (train args) w) as [l'|e]; [|discriminate].
  intros _. destruct (Hok l' eq_refl) as (_ & _ & n' & Hn' & Hu' & He').
  rewrite Hn in Hn'. injection Hn' as <-. split; assumption.
Qed.

Lemma in_order_phases rank (t : list entry) i k p q :
  in_order rank t ->
  map phase_of t !! i = Some p -> map phase_of t !! k = Some q ->
  (i < k)%nat -> (rank p <= rank q)%nat.
Proof.
  intros H Hi Hk Hik.
  change (map phase_of t) with (phase_of <$> t) in Hi, Hk.
  rewrite list_lookup_fmap in Hi, Hk.
  destruct (t !! i) as [e1|] eqn:E1; [|discriminate].
  destruct (t !! k) as [e2|] eqn:E2; [|discriminate].
  injection Hi as <-. injection Hk as <-.
  exact (in_order_pair rank t i k e1 e2 H E1 E2 Hik).
Qed.

(** ** Runs without an update *)

(** When [num_updates] cannot be computed or is not positive, the run is the
    set-up alone. *)
Lemma train_idle args w :
  (forall n, num_updates_of args = Ok n -> n <= 0) ->
  trace_of (train args) w = trace_of (setup args) w /\
  outcome_of (train args) w =
    rbind (outcome_of (setup args) w)
      (fun l => rbind (num_updates_of args) (fun _ => Ok l)).
Proof.
  intros H. unfold train, trace_of, outcome_of, bind.
  destruct (setup args w) as [[t w1] [l|e]]; simpl; [|split; reflexivity].
  destruct (num_updates_of args) as [n|e]; simpl.
  - unfold for_range. replace (Z.to_nat n) with O
      by (specialize (H n eq_refl); lia).
    simpl. rewrite !app_nil_r. split; reflexivity.
  - rewrite app_nil_r. split; reflexivity.
Qed.

Lemma saves_app t1 t2 : saves (t1 ++ t2) = saves t1 ++ saves t2.
Proof. apply flat_map_app. Qed.

Lemma setup_saves args : sat (setup args) (fun t _ => saves t = []).
Proof.
  unfold setup.
  destruct (use_curriculum args), (use_specialist args),
    (use_threshold_sampling args), (plot_prob args),
    (load_saved_controller args);
    exec; reflexivity.
Qed.

Lemma num_updates_zero_division args :
  args.(num_steps) = 0 \/ args.(num_processes) = 0 ->
  num_updates_of args = Raise ZeroDivisionError.
Proof.
  unfold num_updates_of, floordiv.
  destruct (Z.eqb_spec (num_steps args) 0) as [E|N]; [reflexivity|].
  intros [H|H]; [contradiction|]. simpl. rewrite H. reflexivity.
Qed.

Lemma num_updates_none args :
  0 < args.(num_steps) -> 0 < args.(num_processes) ->
  py_int args.(num_frames) < args.(num_steps) * args.(num_processes) ->
  exists n, num_updates_of args = Ok n /\ n <= 0.
Proof.
  intros Hs Hp Hf. unfold num_updates_of, floordiv.
  destruct (Z.eqb_spec (num_steps args) 0) as [E|_]; [lia|]. simpl.
  destruct (Z.eqb_spec (num_processes args) 0) as [E|_]; [lia|].
  eexists. split; [reflexivity|].
  rewrite Z.div_div by lia.
  assert (py_int (num_frames args) / (num_steps args * num_processes args) < 1);
    [|lia].
  apply Z.div_lt_upper_bound; lia.
Qed.

(** ** The files an update writes *)

Lemma saves_quiet p t :
  p <> Checkpoint -> Forall (fun e => phase_of e = p) t -> saves t = [].
Proof. intros Hp. apply quiet. revert Hp. clear. intros Hp. by_call. Qed.

Lemma deepcopy_log_no_save args l : saves (deepcopy_log args l) = [].
Proof. unfold deepcopy_log. destruct (cuda args); reflexivity. Qed.

Lemma fork_saves args l t l' :
  fork_post args l t (Ok l') ->
  saves t =
    (if args.(use_specialist) && (1000 <? np_mean l.(episode_rewards))%float
     then match l.(specialist) with
          | Some s => [(l.(actor_critic), args.(save_dir),
                        specialist_name args s)]
          | None => []
          end
     else []).
Proof.
  unfold fork_post. destruct (use_specialist args);
    [destruct (1000 <? _)%float; [destruct (specialist l)|]|];
    intros [-> E]; try reflexivity.
  change (Called ?c ?r :: ?a ++ ?b) with ([Called c r] ++ a ++ b).
  rewrite !saves_app, deepcopy_log_no_save. reflexivity.
Qed.

Lemma best_saves args p l t l' :
  best_post args p l t (Ok l') ->
  saves t =
    (if (1 <? Z.of_nat (length l.(episode_rewards)))
        && (l.(max_ep_reward) <? np_mean l.(episode_rewards))%float
     then [(p, args.(save_dir), best_name args)]
     else []).
Proof.
  unfold best_post. destruct (1 <? _); [destruct (_ <? _)%float|];
    intros [-> _]; reflexivity.
Qed.

Lemma collect_frame_checkpoint l l' :
  collect_frame l l' -> next_checkpoint l' = next_checkpoint l.
Proof. intros (r & o & e & ->). reflexivity. Qed.

Lemma escalate_checkpoint args l t l' :
  escalate_post args l t (Ok l') -> next_checkpoint l' = next_checkpoint l.
Proof. intros H. destruct (escalate_ok _ _ _ _ H) as [c ->]. reflexivity. Qed.

Lemma fork_checkpoint args l t l' :
  fork_post args l t (Ok l') -> next_checkpoint l' = next_checkpoint l.
Proof. intros H. destruct (fork_ok _ _ _ _ H) as [s ->]. reflexivity. Qed.

Lemma best_checkpoint args p l t l' :
  best_post args p l t (Ok l') -> next_checkpoint l' = next_checkpoint l.
Proof. intros H. destruct (best_ok _ _ _ _ _ H) as [m ->]. reflexivity. Qed.

Lemma checkpoint_due_ext args num_updates j l1 l2 :
  next_checkpoint l1 = next_checkpoint l2 ->
  checkpoint_due args num_updates j l1 = checkpoint_due args num_updates j l2.
Proof. intros H. unfold checkpoint_due. rewrite H. reflexivity. Qed.

Lemma model_name_ext args num_updates j l1 l2 :
  next_checkpoint l1 = next_checkpoint l2 ->
  model_name args num_updates j l1 = model_name args num_updates j l2.
Proof.
  intros H. unfold model_name.
  rewrite (checkpoint_due_ext args num_updates j l1 l2 H), H. reflexivity.
Qed.

Lemma after_naming_checkpoint args num_updates j l :
  next_checkpoint (after_naming args num_updates j l) =
    if checkpoint_due args num_updates j l
    then (next_checkpoint l + args.(save_every))%Q
    else next_checkpoint l.
Proof.
  unfold after_naming. destruct (checkpoint_due _ _ _ _); reflexivity.
Qed.

(** The files a completed update writes, in order, and where it leaves the
    next checkpoint. *)
Lemma completed_saves args num_updates j l t l' :
  completed args num_updates j l t l' ->
  saves t =
    (if args.(use_specialist) && (1000 <? np_mean l'.(episode_rewards))%float
     then match l.(specialist) with
          | Some s => [(l'.(actor_critic), args.(save_dir),
                        specialist_name args s)]
          | None => []
          end
     else []) ++
    [(l'.(actor_critic), args.(save_dir), model_name args num_updates j l)] ++
    (if (1 <? Z.of_nat (length l'.(episode_rewards)))
        && (l.(max_ep_reward) <? np_mean l'.(episode_rewards))%float
     then [(l'.(actor_critic), args.(save_dir), best_name args)]
     else []) /\
  next_checkpoint l' =
    (if checkpoint_due args num_updates j l
     then (next_checkpoint l + args.(save_every))%Q
     else next_checkpoint l).
Proof.
  intros (o & t2 & l2 & t3 & e3 & t4 & l4 & v & s & u & s' & t_fork & l7 &
          t_best & Ht & Hlog & Hfr & Helog & Hesc & Hfork & Hbest).
  cbv zeta in *.
  pose proof (escalate_phase _ _ _ _ Hesc) as Hep.
  destruct (collect_frame_keeps _ _ Hfr) as (Fc2 & Fs2 & Fa2 & Fo2 & Fm2).
  pose proof (collect_frame_checkpoint _ _ Hfr) as Fn2.
  destruct (escalate_keeps _ _ _ _ Hesc) as (Fs4 & Fa4 & Fo4 & Fr4 & Fe4 & Fm4).
  pose proof (escalate_checkpoint _ _ _ _ Hesc) as Fn4.
  match type of Hfork with
  | fork_post _ (after_naming _ _ _ ?x) _ _ =>
      destruct (after_naming_keeps args num_updates j x)
        as (Fc6 & Fs6 & Fa6 & Fe6 & Fm6);
      pose proof (after_naming_checkpoint args num_updates j x) as Fn6;
      assert (Fx : next_checkpoint x = next_checkpoint l)
  end.
  { norm_fields. rewrite Fn4. norm_fields. exact Fn2. }
  destruct (fork_keeps _ _ _ _ Hfork) as (Fc7 & Fa7 & Fe7 & Fm7).
  pose proof (fork_checkpoint _ _ _ _ Hfork) as Fn7.
  destruct (best_keeps _ _ _ _ _ Hbest) as (Fc8 & Fs8 & Fa8 & Fe8).
  pose proof (best_checkpoint _ _ _ _ _ Hbest) as Fn8.
  pose proof (fork_saves _ _ _ _ Hfork) as Sf.
  pose proof (best_saves _ _ _ _ _ Hbest) as Sb.
  rewrite (checkpoint_due_ext _ _ _ _ _ Fx), Fx in Fn6.
  rewrite Fa6, Fe6, Fs6 in Sf.
  norm_fields.
  assert (Pa : ur_net u = actor_critic l').
  { rewrite Fa8, Fa7, Fa6. reflexivity. }
  assert (E7 : episode_rewards l7 = episode_rewards l') by (symmetry; exact Fe8).
  assert (E4 : episode_rewards l4 = episode_rewards l').
  { rewrite Fe8, Fe7, Fe6. reflexivity. }
  assert (M7 : max_ep_reward l7 = max_ep_reward l).
  { rewrite Fm7, Fm6. norm_fields. rewrite Fm4. norm_fields. exact Fm2. }
  assert (S4 : specialist l4 = specialist l).
  { rewrite Fs4. norm_fields. exact Fs2. }
  rewrite E4, S4, Pa in Sf. rewrite E7, M7, Pa in Sb.
  split.
  - rewrite Ht. unfold checkpoint_log.
    rewrite !saves_app, Sf, Sb, deepcopy_log_no_save.
    rewrite (saves_quiet Collect t2) by (discriminate || apply Hlog).
    rewrite (saves_quiet Evaluate t3) by (discriminate || apply Helog).
    rewrite (saves_quiet Escalate t4) by (discriminate || exact Hep).
    rewrite Fa6. norm_fields. rewrite Pa.
    rewrite (model_name_ext args num_updates j _ l)
      by (cbn [next_checkpoint set_rollouts set_agent_optimizer
               set_actor_critic]; exact Fx).
    simpl. destruct (1 <? _); simpl; rewrite ?app_nil_r; reflexivity.
  - rewrite Fn8, Fn7. exact Fn6.
Qed.

Lemma checkpoint_due_spec args num_updates j l :
  checkpoint_due args num_updates j l = true <->
  ((next_checkpoint l
    <= inject_Z ((j + 1) * args.(num_steps) * args.(num_processes)))%Q \/
   j = num_updates - 1) /\
  args.(save_dir) <> ""%string.
Proof.
  unfold checkpoint_due, int_ge_float.
  rewrite andb_true_iff, orb_true_iff, negb_true_iff, Qle_bool_iff,
    Z.eqb_eq, String.eqb_neq.
  reflexivity.
Qed.

(** ** The reward deques *)

Lemma deque_append_length {A} (maxlen : Z) (x : A) (d : list A) :
  length (deque_append maxlen x d)
  = Nat.min (S (length d)) (Z.to_nat maxlen).
Proof.
  unfold deque_append. rewrite length_drop, length_app.
  change (length [x]) with 1%nat. lia.
Qed.

Lemma deque_extend_app {A} (maxlen : Z) (xs ys : list A) (d : list A) :
  deque_extend maxlen (xs ++ ys) d
  = deque_extend maxlen ys (deque_extend maxlen xs d).
Proof. apply foldl_app. Qed.

Lemma deque_extend_length {A} (maxlen : Z) (xs : list A) (d : list A) :
  (length d <= Z.to_nat maxlen)%nat ->
  (length (deque_extend maxlen xs d) <= Z.to_nat maxlen)%nat.
Proof.
  revert d. induction xs as [|x xs IH]; intros d Hd; simpl; [exact Hd|].
  apply IH. rewrite deque_append_length. lia.
Qed.

(** Appending one by one keeps the newest [maxlen] entries. *)
Lemma deque_extend_drop {A} (maxlen : Z) (xs : list A) (d : list A) :
  (length d <= Z.to_nat maxlen)%nat ->
  deque_extend maxlen xs d
  = drop (length (d ++ xs) - Z.to_nat maxlen) (d ++ xs).
Proof.
  revert d. induction xs as [|x xs IH]; intros d Hd.
  - simpl. rewrite app_nil_r. replace (length d - Z.to_nat maxlen)%nat with O
      by lia. reflexivity.
  - change (deque_extend maxlen (x :: xs) d)
      with (deque_extend maxlen xs (deque_append maxlen x d)).
    rewrite IH by (rewrite deque_append_length; lia).
    unfold deque_append.
    rewrite <- drop_app_le by (rewrite length_app; simpl; lia).
    rewrite drop_drop, <- app_assoc. simpl.
    f_equal. rewrite length_drop, !length_app. simpl. lia.
Qed.

Lemma returns_of_cons (i : info) (rest : list info) :
  returns_of (i :: rest) =
    match i !! "episode"%string with
    | Some (InfoDict d) =>
        match d !! "r"%string with
        | Some r => [r]
        | None => []
        end
    | _ => []
    end ++ returns_of rest.
Proof. reflexivity. Qed.

Lemma scan_infos_rewards maxlen infos :
  forall p bm rw bm' rw',
    scan_infos maxlen p infos bm rw = Ok (bm', rw') ->
    rw' = deque_extend maxlen (returns_of infos) rw /\
    episodes_well_formed infos.
Proof.
  induction infos as [|i rest IH]; intros p bm rw bm' rw' H; simpl in H.
  - injection H as _ <-. split; [reflexivity|constructor].
  - rewrite returns_of_cons. unfold episodes_well_formed.
    rewrite Forall_cons.
    destruct (match i !! "bad_transition"%string with
              | Some _ => setitem bm p 0%float
              | None => Ok bm
              end) as [bm1|e]; [|discriminate H]. simpl in H.
    destruct (i !! "episode"%string) as [[d|b]|]; simpl in H.
    + destruct (d !! "r"%string) as [r|]; [|discriminate H]. simpl in H.
      destruct (IH _ _ _ _ _ H) as [-> Hwf].
      split; [reflexivity|]. split; [eexists; reflexivity|exact Hwf].
    + discriminate H.
    + destruct (IH _ _ _ _ _ H) as [-> Hwf].
      split; [reflexivity|]. split; [exact I|exact Hwf].
Qed.

Lemma scan_infos_error maxlen infos :
  forall p bm rw e,
    scan_infos maxlen p infos bm rw = Raise e -> scan_error e.
Proof.
  unfold scan_error.
  induction infos as [|i rest IH]; intros p bm rw e H; simpl in H;
    [discriminate H|].
  destruct (i !! "bad_transition"%string); simpl in H.
  - unfold setitem in H. destruct (decide (p < length bm)%nat); simpl in H.
    + destruct (i !! "episode"%string) as [[d|b]|]; simpl in H.
      * destruct (d !! "r"%string); simpl in H; [eauto|].
        injection H as <-. auto.
      * injection H as <-. auto.
      * eauto.
    + injection H as <-. auto.
  - destruct (i !! "episode"%string) as [[d|b]|]; simpl in H.
    + destruct (d !! "r"%string); simpl in H; [eauto|].
      injection H as <-. auto.
    + injection H as <-. auto.
    + eauto.
Qed.

(** Well-formed infos of no more workers than the run has are scanned
    without an error. *)
Lemma scan_infos_total maxlen infos :
  forall p bm rw,
    episodes_well_formed infos ->
    (p + length infos <= length bm)%nat ->
    exists bm', scan_infos maxlen p infos bm rw
                = Ok (bm', deque_extend maxlen (returns_of infos) rw) /\
                length bm' = length bm.
Proof.
  induction infos as [|i rest IH]; intros p bm rw Hwf Hlen.
  - exists bm. split; reflexivity.
  - apply Forall_cons in Hwf as [Hi Hrest]. simpl in Hlen.
    rewrite returns_of_cons. simpl.
    assert (Hset : exists bm1,
               match i !! "bad_transition"%string with
               | Some _ => setitem bm p 0%float
               | None => Ok bm
               end = Ok bm1 /\ length bm1 = length bm).
    { destruct (i !! "bad_transition"%string).
      - unfold setitem. destruct (decide (p < length bm)%nat); [|lia].
        eexists. split; [reflexivity|]. apply length_insert.
      - exists bm. split; reflexivity. }
    destruct Hset as (bm1 & -> & Hl1). simpl.
    destruct (i !! "episode"%string) as [[d|b]|]; simpl.
    + destruct Hi as [r Hr]. rewrite Hr. simpl.
      destruct (IH (S p) bm1 (deque_append maxlen r rw) Hrest) as (bm' & E & L);
        [lia|].
      exists bm'. split; [exact E|lia].
    + contradiction.
    + destruct (IH (S p) bm1 rw Hrest) as (bm' & E & L); [lia|].
      exists bm'. split; [exact E|lia].
Qed.

Lemma scan_test_infos_rewards maxlen infos :
  forall rw rw',
    scan_test_infos maxlen infos rw = Ok rw' ->
    rw' = deque_extend maxlen (returns_of infos) rw.
Proof.
  induction infos as [|i rest IH]; intros rw rw' H; simpl in H.
  - injection H as <-. reflexivity.
  - rewrite returns_of_cons.
    destruct (i !! "episode"%string) as [[d|b]|]; simpl in H.
    + destruct (d !! "r"%string) as [r|]; [|discriminate H]. simpl in H.
      apply IH in H. exact H.
    + discriminate H.
    + apply IH in H. exact H.
Qed.

Lemma scan_test_infos_error maxlen infos :
  forall rw e, scan_test_infos maxlen infos rw = Raise e -> scan_error e.
Proof.
  unfold scan_error.
  induction infos as [|i rest IH]; intros rw e H; simpl in H;
    [discriminate H|].
  destruct (i !! "episode"%string) as [[d|b]|]; simpl in H.
  - destruct (d !! "r"%string); simpl in H; [eauto|].
    injection H as <-. auto.
  - injection H as <-. auto.
  - eauto.
Qed.

(** One collection step: one answer of the environments, whose reported
    returns are appended to the reward deque. *)
Lemma collect_step_rewards args step l :
  sat (collect_step args step l)
    (fun t r =>
       exists sr, step_answers t = [sr] /\
         forall l', r = Ok l' ->
           episode_rewards l' =
             deque_extend args.(num_processes) (returns_of sr.(sr_infos))
               (episode_rewards l) /\
           episodes_well_formed sr.(sr_infos)).
Proof.
  unfold collect_step.
  apply sat_bind. exec_call. cbv beta iota.
  apply sat_bind. exec_call. cbv beta iota.
  eapply sat_bind_with;
    [apply sat_when_log; [apply plot_values_silent|apply silent_nil]|].
  intros t1 r1 [A1 _].
  destruct r1 as [[]|e].
  2: { exists r0. rewrite !step_answers_app, A1. split; [reflexivity|discriminate]. }
  eapply sat_bind_with;
    [apply sat_when_log; [apply adaptive_sampling_silent|apply silent_nil]|].
  intros t2 r2 [A2 _].
  destruct r2 as [[]|e].
  2: { exists r0. rewrite !step_answers_app, A1, A2.
       split; [reflexivity|discriminate]. }
  eapply sat_bind_with;
    [apply sat_when_log; [apply threshold_sampling_silent|apply silent_nil]|].
  intros t3 r3 [A3 _].
  destruct r3 as [[]|e].
  2: { exists r0. rewrite !step_answers_app, A1, A2, A3.
       split; [reflexivity|discriminate]. }
  apply sat_bind, sat_lift.
  destruct (scan_infos _ _ _ _ _) as [[bm rw']|e] eqn:Hscan.
  - apply sat_bind. exec_call. apply sat_ret. exists r0.
    rewrite !step_answers_app, A1, A2, A3.
    split; [reflexivity|]. intros l' [= <-]. norm_fields.
    apply (scan_infos_rewards _ _ _ _ _ _ _ Hscan).
  - exists r0. rewrite !step_answers_app, A1, A2, A3.
    split; [reflexivity|discriminate].
Qed.

(** The returns the training environments reported over a log, in step and
    worker order. *)
Lemma reported_app (t1 t2 : list (step_result tensor)) :
  flat_map (fun sr => returns_of sr.(sr_infos)) (t1 ++ t2)
  = flat_map (fun sr => returns_of sr.(sr_infos)) t1
    ++ flat_map (fun sr => returns_of sr.(sr_infos)) t2.
Proof. apply flat_map_app. Qed.

Lemma collect_rewards args l :
  sat (collect args l)
    (fun t r =>
       forall l', r = Ok l' ->
         episode_rewards l' =
           deque_extend args.(num_processes)
             (flat_map (fun sr => returns_of sr.(sr_infos)) (step_answers t))
             (episode_rewards l) /\
         Forall (fun sr => episodes_well_formed sr.(sr_infos))
           (step_answers t)).
Proof.
  unfold collect. eapply sat_mono.
  - apply (sat_for_range (collect_step args)
             (fun _ t s =>
                episode_rewards s =
                  deque_extend args.(num_processes)
                    (flat_map (fun sr => returns_of sr.(sr_infos))
                       (step_answers t))
                    (episode_rewards l) /\
                Forall (fun sr => episodes_well_formed sr.(sr_infos))
                  (step_answers t))
             (fun _ _ => True)).
    + split; [reflexivity|constructor].
    + intros k t s _ [Hrw Hwf].
      eapply sat_mono; [apply collect_step_rewards|].
      intros t' [s'|e] (sr & Hsr & Hok); [|exact I].
      destruct (Hok s' eq_refl) as [Hrw' Hwf'].
      rewrite step_answers_app, Hsr, reported_app, deque_extend_app, <- Hrw.
      simpl. rewrite app_nil_r. split; [exact Hrw'|].
      apply Forall_app. split; [exact Hwf|]. constructor; [exact Hwf'|constructor].
  - intros t [l'|e] H l'' E; [|discriminate E].
    injection E as <-. exact H.
Qed.

(** ** Invariants of the loop *)

Lemma sat_holds_trace {A} (m : M A) (T T' : list entry -> Prop)
    (I : A -> Prop) (E : exn -> Prop) :
  sat m (fun t _ => T' t) -> sat m (holds T I E) -> sat m (holds T' I E).
Proof. intros H1 H2 w. split; [apply H1|apply H2]. Qed.

Lemma sat_holds_bind {A B} (m : M A) (k : A -> M B)
    (T : list entry -> Prop) (IA : A -> Prop) (IB : B -> Prop)
    (E : exn -> Prop) :
  (forall t1 t2, T t1 -> T t2 -> T (t1 ++ t2)) ->
  sat m (holds T IA E) ->
  (forall a, IA a -> sat (k a) (holds T IB E)) ->
  sat (bind m k) (holds T IB E).
Proof.
  intros Happ Hm Hk. apply sat_bind. eapply sat_mono; [exact Hm|].
  intros t1 [a|e] [HT HI].
  - eapply sat_mono; [apply (Hk a HI)|]. intros t2 r2 [HT2 HI2].
    split; [apply Happ; assumption|exact HI2].
  - split; assumption.
Qed.

Lemma sat_holds_call {R} (c : call_t R) (T : list entry -> Prop)
    (E : exn -> Prop) :
  (forall r, T [Called c r]) -> sat (call c) (holds T (fun _ => True) E).
Proof. intros H. apply sat_call. intros r. split; [apply H|exact I]. Qed.

Lemma sat_holds_when (b : bool) (m : M unit) (T : list entry -> Prop)
    (E : exn -> Prop) :
  T [] ->
  (b = true -> sat m (holds T (fun _ => True) E)) ->
  sat (when b m) (holds T (fun _ => True) E).
Proof.
  intros H0 Hm. apply sat_when; [exact Hm|]. intros _. split; [exact H0|exact I].
Qed.

Lemma sat_holds_lift {A} (r : result A) (T : list entry -> Prop)
    (I : A -> Prop) (E : exn -> Prop) :
  T [] -> match r with Ok a => I a | Raise e => E e end ->
  sat (lift r) (holds T I E).
Proof. intros H0 Hr. apply sat_lift. split; assumption. Qed.

Lemma sat_holds_ret {A} (a : A) (T : list entry -> Prop)
    (I : A -> Prop) (E : exn -> Prop) :
  T [] -> I a -> sat (ret a) (holds T I E).
Proof. intros H0 Ha. apply sat_ret. split; assumption. Qed.

Lemma sat_holds_for_range {St} (body : Z -> St -> M St)
    (T : list entry -> Prop) (I : St -> Prop) (E : exn -> Prop)
    (n : Z) (s : St) :
  T [] -> (forall t1 t2, T t1 -> T t2 -> T (t1 ++ t2)) -> I s ->
  (forall k s, I s -> sat (body k s) (holds T I E)) ->
  sat (for_range n body s) (holds T I E).
Proof.
  intros H0 Happ Hs Hbody. eapply sat_mono.
  - apply (sat_for_range body (fun _ t s => T t /\ I s)
             (fun t e => T t /\ E e)).
    + split; assumption.
    + intros k t s' _ [HT HI]. eapply sat_mono; [apply (Hbody _ _ HI)|].
      intros t' [s''|e] [HT' HI']; (split; [apply Happ; assumption|exact HI']).
  - intros t [s'|e] H; exact H.
Qed.

Lemma unlogged_nil args : unlogged args [].
Proof. intros _. split; reflexivity. Qed.

Lemma unlogged_app args t1 t2 :
  unlogged args t1 -> unlogged args t2 -> unlogged args (t1 ++ t2).
Proof.
  intros H1 H2 Hp. destruct (H1 Hp) as [L1 S1]. destruct (H2 Hp) as [L2 S2].
  rewrite logged_app, saved_under_app, L1, L2, S1, S2. split; reflexivity.
Qed.

Lemma unlogged_quiet args p t :
  p <> Checkpoint -> Forall (fun e => phase_of e = p) t -> unlogged args t.
Proof.
  intros Hp Ht _. split.
  - apply (logged_quiet p); assumption.
  - apply (saved_under_quiet _ p); assumption.
Qed.

Lemma anything_app (t1 t2 : list entry) : True -> True -> True.
Proof. intros _ _. exact I. Qed.

Lemma steady_keeps args l l' :
  curriculum l' = curriculum l -> specialist l' = specialist l ->
  sampling_threshold l' = sampling_threshold l -> handles l' = handles l ->
  episode_rewards l' = episode_rewards l ->
  steady args l -> steady args l'.
Proof.
  intros Hc Hs Ht Hh He [(R1 & R2 & R3 & R4) Hlen].
  unfold steady, ready. rewrite Hc, Hs, Ht, Hh, He. repeat split; assumption.
Qed.

Lemma schedule_steady args num_updates j l :
  steady args l ->
  sat (schedule args num_updates j l)
    (holds (unlogged args) (steady args) (expected args)).
Proof.
  intros Hst. unfold schedule. exec. split.
  - intros _. split; reflexivity.
  - exact Hst.
Qed.

Lemma plot_values_ends args l :
  l.(handles) = ({["plt"; "fig"; "ax1"; "ax2"]}%string : gset string) ->
  sat (plot_values l) (holds (fun _ => True) (fun _ => True) (expected args)).
Proof.
  intros Hh. unfold plot_values. rewrite Hh.
  rewrite !plot_handles_bound by auto.
  exec. split; exact I.
Qed.

Lemma adaptive_sampling_ends args l :
  sat (adaptive_sampling args l)
    (holds (fun _ => True) (fun _ => True) (expected args)).
Proof. unfold adaptive_sampling. exec. split; exact I. Qed.

Lemma threshold_sampling_ends args step l :
  steady args l -> args.(use_threshold_sampling) = true ->
  sat (threshold_sampling args step l)
    (holds (fun _ => True) (fun _ => True) (expected args)).
Proof.
  intros [(_ & _ & Rt & Rh) _] Ht. unfold threshold_sampling.
  destruct (Rt Ht) as [v ->]. unfold load_local, when.
  destruct (plot_prob args && (step =? 0)) eqn:Hb.
  - apply andb_true_iff in Hb as [Hp _].
    rewrite ax_is_unbound. exec. split; [exact I|].
    right. left. repeat split; assumption.
  - exec. split; exact I.
Qed.

Lemma collect_step_ends args step l :
  steady args l ->
  sat (collect_step args step l)
    (holds (fun _ => True) (steady args) (expected args)).
Proof.
  intros Hst. unfold collect_step.
  eapply sat_holds_bind;
    [auto|apply sat_holds_call; auto|intros a _; cbv beta].
  eapply sat_holds_bind;
    [auto|apply sat_holds_call; auto|intros sr _; cbv beta].
  eapply sat_holds_bind; [auto| |intros _ _].
  { apply sat_holds_when; [exact I|]. intros Hb.
    apply andb_true_iff in Hb as [Hp _].
    apply plot_values_ends. apply Hst, Hp. }
  eapply sat_holds_bind; [auto| |intros _ _].
  { apply sat_holds_when; [exact I|]. intros _. apply adaptive_sampling_ends. }
  eapply sat_holds_bind; [auto| |intros _ _].
  { apply sat_holds_when; [exact I|]. intros Ht.
    apply threshold_sampling_ends; assumption. }
  eapply sat_holds_bind with
    (IA := fun sc : list float * list float =>
             (length sc.2 <= Z.to_nat args.(num_processes))%nat);
    [auto| |intros sc Hsc; cbv beta].
  { apply sat_holds_lift; [exact I|].
    destruct (scan_infos _ _ _ _ _) as [[bm rw]|e] eqn:Hscan.
    - apply scan_infos_rewards in Hscan as [-> _].
      apply deque_extend_length, Hst.
    - right. right. eapply scan_infos_error, Hscan. }
  eapply sat_holds_bind;
    [auto|apply sat_holds_call; auto|intros r _; cbv beta].
  apply sat_holds_ret; [exact I|].
  destruct Hst as [Hr _]. split; [exact Hr|exact Hsc].
Qed.

Lemma collect_steady args l :
  steady args l ->
  sat (collect args l) (holds (unlogged args) (steady args) (expected args)).
Proof.
  intros Hst. apply sat_holds_trace with (T := fun _ => True).
  - eapply sat_mono; [apply collect_sat|].
    intros t [l'|e] H; apply (unlogged_quiet args Collect);
      try discriminate.
    + apply H.
    + destruct H as (k & _ & H). apply H.
  - unfold collect. apply sat_holds_for_range; auto.
    intros k s Hs. apply collect_step_ends, Hs.
Qed.

Lemma evaluate_steady args l :
  steady args l ->
  sat (evaluate args l) (holds (unlogged args) (steady args) (expected args)).
Proof.
  intros Hst. apply sat_holds_trace with (T := fun _ => True).
  - eapply sat_mono; [apply evaluate_sat|].
    intros t r [H _]. apply (unlogged_quiet args Evaluate);
      [discriminate|apply H].
  - unfold evaluate.
    eapply sat_holds_bind;
      [auto|apply sat_holds_call; auto|intros obs _; cbv beta].
    eapply sat_holds_bind with
      (IA := fun s : tensor * locals => steady args s.2);
      [auto| |intros s Hs; apply sat_holds_ret; [exact I|exact Hs]].
    apply sat_holds_for_range; auto.
    intros k [o s] Hs. unfold evaluate_step. simpl in *.
    eapply sat_holds_bind;
      [auto|apply sat_holds_call; auto|intros a _; cbv beta].
    eapply sat_holds_bind;
      [auto|apply sat_holds_call; auto|intros sr _; cbv beta].
    eapply sat_holds_bind with (IA := fun _ => True);
      [auto| |intros rw _; apply sat_holds_ret; [exact I|exact Hs]].
    apply sat_holds_lift; [exact I|].
    destruct (scan_test_infos _ _ _) as [rw|e] eqn:Hscan; [exact I|].
    right. right. eapply scan_test_infos_error, Hscan.
Qed.

Lemma escalate_steady args l :
  steady args l ->
  sat (escalate_curriculum args l)
    (holds (unlogged args) (steady args) (expected args)).
Proof.
  intros Hst. unfold escalate_curriculum.
  destruct (use_curriculum args) eqn:Hc.
  - destruct Hst as [Hr Hlen]. destruct Hr as (Rc & Rs & Rt & Rh).
    destruct (Rc Hc) as [c Ec]. rewrite Ec. unfold load_local.
    exec. destruct (900 <? _)%float; exec; (split; [intros _; split; reflexivity|]).
    + split; [|exact Hlen]. repeat split; try assumption.
      intros _. eexists. reflexivity.
    + split; [|exact Hlen]. repeat split; assumption.
  - exec. split; [intros _; split; reflexivity|exact Hst].
Qed.

Lemma advantage_steady args l :
  steady args l ->
  sat (advantage args l) (holds (unlogged args) (steady args) (expected args)).
Proof.
  intros Hst. unfold advantage. exec. split.
  - intros _. split; reflexivity.
  - exact Hst.
Qed.

Lemma optimize_steady args l :
  steady args l ->
  sat (optimize l)
    (holds (unlogged args) (fun ul => steady args ul.2) (expected args)).
Proof.
  intros Hst. unfold optimize. exec. split.
  - intros _. split; reflexivity.
  - exact Hst.
Qed.

Lemma fork_steady args l :
  steady args l ->
  sat (fork_specialist args l)
    (holds (unlogged args) (steady args) (expected args)).
Proof.
  intros Hst. unfold fork_specialist.
  destruct (use_specialist args) eqn:Hs.
  - destruct Hst as [Hr Hlen]. destruct Hr as (Rc & Rs & Rt & Rh).
    destruct (Rs Hs) as [s Es]. rewrite Es. unfold load_local, when.
    exec. destruct (1000 <? _)%float; [destruct (cuda args)|]; exec;
      (split; [intros _; split;
                 [reflexivity|simpl; rewrite ?specialist_name_not_best;
                               reflexivity]|]).
    + split; [|exact Hlen]. repeat split; try assumption.
      intros _. eexists. reflexivity.
    + split; [|exact Hlen]. repeat split; try assumption.
      intros _. eexists. reflexivity.
    + split; [|exact Hlen]. repeat split; assumption.
  - exec. split; [intros _; split; reflexivity|exact Hst].
Qed.

Lemma few_rewards args l :
  steady args l -> args.(num_processes) <= 1 ->
  (1 <? Z.of_nat (length l.(episode_rewards))) = false.
Proof. intros [_ Hlen] Hp. apply Z.ltb_ge. lia. Qed.

Lemma best_steady args p l :
  steady args l ->
  sat (save_best args p l)
    (holds (unlogged args) (steady args) (expected args)).
Proof.
  intros Hst. pose proof (few_rewards args l Hst) as Hfew.
  unfold save_best.
  destruct (1 <? Z.of_nat (length (episode_rewards l))).
  - exec. destruct (_ <? _)%float; exec;
      (split; [intros Hp; discriminate (Hfew Hp)|exact Hst]).
  - exec. split; [intros _; split; reflexivity|exact Hst].
Qed.

Lemma log_steady args j u l :
  steady args l ->
  sat (log_metrics args j u l)
    (holds (unlogged args) (fun _ => True) (expected args)).
Proof.
  intros Hst. pose proof (few_rewards args l Hst) as Hfew.
  unfold log_metrics, when.
  destruct (1 <? Z.of_nat (length (episode_rewards l))).
  - exec. split; [intros Hp; discriminate (Hfew Hp)|exact I].
  - exec. split; [intros _; split; reflexivity|exact I].
Qed.

Lemma checkpoint_steady args num_updates j u l :
  steady args l ->
  sat (checkpoint args num_updates j u l)
    (holds (unlogged args) (steady args) (expected args)).
Proof.
  intros Hst. unfold checkpoint. cbv zeta.
  fold (after_naming args num_updates j l).
  fold (model_name args num_updates j l).
  assert (Hst0 : steady args (after_naming args num_updates j l)).
  { destruct (after_naming_fields args num_updates j l) as (Hc & Hs & Hh & Ht).
    destruct (after_naming_keeps args num_updates j l) as (_ & _ & _ & He & _).
    cbv zeta in *. eapply steady_keeps; eassumption. }
  eapply sat_holds_bind; [apply unlogged_app| |intros _ _].
  { apply sat_holds_when; [apply unlogged_nil|]. intros _.
    apply sat_holds_call. intros r _. split; reflexivity. }
  eapply sat_holds_bind;
    [apply unlogged_app|apply fork_steady, Hst0|intros l1 Hl1; cbv beta].
  eapply sat_holds_bind; [apply unlogged_app| |intros _ _].
  { apply sat_holds_call. intros r _. split; [reflexivity|].
    simpl. rewrite model_name_not_best. reflexivity. }
  eapply sat_holds_bind;
    [apply unlogged_app|apply best_steady, Hl1|intros l2 Hl2; cbv beta].
  eapply sat_holds_bind;
    [apply unlogged_app|apply log_steady, Hl2|intros _ _].
  apply sat_holds_ret; [apply unlogged_nil|exact Hl2].
Qed.

Lemma update_steady args num_updates j l :
  steady args l ->
  sat (update args num_updates j l)
    (holds (unlogged args) (steady args) (expected args)).
Proof.
  intros Hst. unfold update.
  eapply sat_holds_bind;
    [apply unlogged_app|apply schedule_steady, Hst|intros l1 H1; cbv beta].
  eapply sat_holds_bind;
    [apply unlogged_app|apply collect_steady, H1|intros l2 H2; cbv beta].
  eapply sat_holds_bind;
    [apply unlogged_app|apply evaluate_steady, H2|intros l3 H3; cbv beta].
  eapply sat_holds_bind;
    [apply unlogged_app|apply escalate_steady, H3|intros l4 H4; cbv beta].
  eapply sat_holds_bind;
    [apply unlogged_app|apply advantage_steady, H4|intros l5 H5; cbv beta].
  eapply sat_holds_bind;
    [apply unlogged_app|apply optimize_steady, H5|intros ul H6; cbv beta].
  apply checkpoint_steady, H6.
Qed.

Lemma setup_steady args :
  sat (setup args) (holds (unlogged args) (steady args) (expected args)).
Proof.
  apply sat_holds_trace with (T := fun _ => True).
  - unfold setup.
    destruct (use_curriculum args), (use_specialist args),
      (use_threshold_sampling args), (plot_prob args),
      (load_saved_controller args);
      exec; intros _; split; reflexivity.
  - eapply sat_mono; [apply setup_sat|].
    intros t r (l0 & -> & Hc & Hs & Ht & Hh & He & _). split; [exact I|].
    split.
    + unfold ready. rewrite Hc, Hs, Ht, Hh.
      repeat split; intros ->; try reflexivity; eexists; reflexivity.
    + rewrite He. simpl. lia.
Qed.

Lemma num_updates_error args e :
  num_updates_of args = Raise e ->
  e = ZeroDivisionError /\
  (args.(num_steps) = 0 \/ args.(num_processes) = 0).
Proof.
  unfold num_updates_of, floordiv.
  destruct (Z.eqb_spec (num_steps args) 0) as [E|N]; simpl.
  - intros [= <-]. auto.
  - destruct (Z.eqb_spec (num_processes args) 0) as [E|N']; [|discriminate].
    intros [= <-]. auto.
Qed.

(** A whole run: it ends normally or with one of the expected exceptions,
    and with at most one worker it neither logs nor saves a best
    snapshot. *)
Lemma train_steady args :
  sat (train args) (holds (unlogged args) (steady args) (expected args)).
Proof.
  unfold train.
  eapply sat_holds_bind;
    [apply unlogged_app|apply setup_steady|intros l0 H0; cbv beta].
  eapply sat_holds_bind with (IA := fun _ => True);
    [apply unlogged_app| |intros n _; cbv beta].
  - apply sat_holds_lift; [apply unlogged_nil|].
    destruct (num_updates_of args) as [n|e] eqn:Hn; [exact I|].
    left. apply num_updates_error, Hn.
  - apply sat_holds_for_range;
      [apply unlogged_nil|apply unlogged_app|exact H0|].
    intros k s Hs. apply update_steady, Hs.
Qed.

(** ** The evaluation phase *)

Lemma test_answers_app t1 t2 :
  test_answers (t1 ++ t2) = test_answers t1 ++ test_answers t2.
Proof. apply flat_map_app. Qed.

Lemma test_resets_app t1 t2 :
  test_resets (t1 ++ t2) = (test_resets t1 + test_resets t2)%nat.
Proof. unfold test_resets. rewrite flat_map_app, length_app. reflexivity. Qed.

Lemma set_test_episode_rewards_twice (a b : list float) (l : locals) :
  set_test_episode_rewards a (set_test_episode_rewards b l)
  = set_test_episode_rewards a l.
Proof. reflexivity. Qed.

Lemma evaluate_step_answers args step s :
  sat (evaluate_step args step s)
    (fun t r =>
       exists sr, test_answers t = [sr] /\ test_resets t = 0%nat /\
         step_answers t = [] /\
         forall s', r = Ok s' ->
           snd s' =
             set_test_episode_rewards
               (deque_extend args.(num_tests) (returns_of sr.(sr_infos))
                  (test_episode_rewards (snd s)))
               (snd s)).
Proof.
  unfold evaluate_step.
  apply sat_bind. exec_call. cbv beta iota.
  apply sat_bind. exec_call. cbv beta iota.
  apply sat_bind, sat_lift.
  destruct (scan_test_infos _ _ _) as [rw|e] eqn:Hscan.
  - apply sat_ret. exists r0. repeat split.
    intros s' [= <-]. simpl.
    rewrite (scan_test_infos_rewards _ _ _ _ Hscan). reflexivity.
  - exists r0. repeat split. discriminate.
Qed.

Lemma evaluate_answers args l :
  sat (evaluate args l)
    (fun t r =>
       test_resets t = 1%nat /\ step_answers t = [] /\
       (length (test_answers t) <= Z.to_nat args.(max_episode_steps))%nat /\
       forall l', r = Ok l' ->
         length (test_answers t) = Z.to_nat args.(max_episode_steps) /\
         l' = set_test_episode_rewards
                (deque_extend args.(num_tests)
                   (flat_map (fun sr => returns_of sr.(sr_infos))
                      (test_answers t))
                   (test_episode_rewards l))
                l).
Proof.
  unfold evaluate. apply sat_bind. exec_call. cbv beta iota.
  apply sat_bind. eapply sat_mono.
  - apply (sat_for_range (evaluate_step args)
             (fun k t s =>
                length (test_answers t) = k /\ test_resets t = 0%nat /\
                step_answers t = [] /\
                snd s = set_test_episode_rewards
                          (deque_extend args.(num_tests)
                             (flat_map (fun sr => returns_of sr.(sr_infos))
                                (test_answers t))
                             (test_episode_rewards l))
                          l)
             (fun t _ =>
                (length (test_answers t)
                 <= Z.to_nat args.(max_episode_steps))%nat /\
                test_resets t = 0%nat /\ step_answers t = [])).
    + repeat split. simpl. destruct l; reflexivity.
    + intros k t s Hk (Hlen & Hres & Hst & Hs).
      eapply sat_mono; [apply evaluate_step_answers|].
      intros t' r' (sr & Ha & Hr & Hst' & Hok).
      rewrite test_answers_app, test_resets_app, step_answers_app,
        Ha, Hr, Hres, Hst, Hst', length_app, Hlen.
      simpl. destruct r' as [s'|e].
      * split; [lia|]. split; [reflexivity|]. split; [reflexivity|].
        rewrite (Hok s' eq_refl), Hs. norm_fields.
        rewrite flat_map_app, deque_extend_app. simpl. rewrite app_nil_r.
        reflexivity.
      * split; [lia|]. split; reflexivity.
  - intros t [s|e] H.
    + destruct H as (Hlen & Hres & Hst & Hs). apply sat_ret.
      rewrite app_nil_r.
      change (Called ?c ?x :: t) with ([Called c x] ++ t).
      rewrite test_answers_app, test_resets_app, step_answers_app, Hres, Hst.
      simpl. repeat split; [lia|exact Hlen|].
      injection H as <-. exact Hs.
    + destruct H as (Hlen & Hres & Hst).
      change (Called ?c ?x :: t) with ([Called c x] ++ t).
      rewrite test_answers_app, test_resets_app, step_answers_app, Hres, Hst.
      split; [reflexivity|]. split; [reflexivity|].
      split; [exact Hlen|discriminate].
Qed.

(** ** The learning rates of a run *)

Lemma setup_lr args :
  sat (setup args) (fun t r => lr_settings t = [] /\ exists l0, r = Ok l0).
Proof.
  unfold setup.
  destruct (use_curriculum args), (use_specialist args),
    (use_threshold_sampling args), (plot_prob args),
    (load_saved_controller args);
    exec; (split; [reflexivity|eexists; reflexivity]).
Qed.

Lemma update_lr args n j l :
  sat (update args n j l)
    (fun t _ => lr_settings t = [scheduled_lr args n j]).
Proof.
  eapply sat_mono; [apply update_attempt|].
  intros t r H. apply attempted_lr in H as (o & rest & -> & Hrest).
  change (Called ?c ?x :: rest) with ([Called c x] ++ rest).
  rewrite lr_settings_app, Hrest. reflexivity.
Qed.

Lemma train_lr args :
  sat (train args)
    (fun t r =>
       forall n, num_updates_of args = Ok n ->
         exists k, (k <= Z.to_nat n)%nat /\
           lr_settings t =
             map (fun j => scheduled_lr args n (Z.of_nat j)) (seq 0 k) /\
           forall l', r = Ok l' -> k = Z.to_nat n).
Proof.
  unfold train.
  eapply sat_bind_with; [apply setup_lr|].
  intros t0 r0 (H0 & l0 & ->).
  apply sat_bind, sat_lift.
  destruct (num_updates_of args) as [n|e] eqn:Hn.
  - eapply sat_mono.
    + apply (sat_for_range (update args n)
               (fun k t _ =>
                  lr_settings t =
                    map (fun j => scheduled_lr args n (Z.of_nat j)) (seq 0 k))
               (fun t _ =>
                  exists k, (k <= Z.to_nat n)%nat /\
                    lr_settings t =
                      map (fun j => scheduled_lr args n (Z.of_nat j))
                        (seq 0 k))).
      * reflexivity.
      * intros k t s Hk Hlr.
        eapply sat_mono; [apply update_lr|].
        intros t' r' Hlr'.
        assert (Hnext : lr_settings (t ++ t') =
                  map (fun j => scheduled_lr args n (Z.of_nat j))
                    (seq 0 (S k))).
        { rewrite lr_settings_app, Hlr, Hlr', seq_S, map_app. reflexivity. }
        destruct r' as [s'|e]; [exact Hnext|].
        exists (S k). split; [lia|exact Hnext].
    + intros t r H n' Hn'. rewrite ?Hn in Hn'. injection Hn' as <-.
      rewrite lr_settings_app, H0. simpl.
      destruct r as [l'|e].
      * exists (Z.to_nat n). split; [lia|]. split; [exact H|reflexivity].
      * destruct H as (k & Hk & Hlr). exists k.
        split; [exact Hk|]. split; [exact Hlr|discriminate].
  - intros n' Hn'. rewrite ?Hn in Hn'. discriminate Hn'.
Qed.

(** ** The sampling of a step *)

Lemma sampling_events_app t1 t2 :
  sampling_events (t1 ++ t2) = sampling_events t1 ++ sampling_events t2.
Proof. apply flat_map_app. Qed.

Lemma plot_values_events l :
  sat (plot_values l)
    (fun t _ =>
       exists ts v, sampling_events t = [Made ts; Probed l.(actor_critic) ts v]).
Proof. unfold plot_values. exec_r; eexists _, _; reflexivity. Qed.

Lemma adaptive_sampling_events args l :
  sat (adaptive_sampling args l)
    (fun t _ =>
       exists ts v,
         sampling_events t
         = [Made ts; Probed l.(actor_critic) ts v;
            Pushed (adaptive_probs v args.(num_processes))]).
Proof. unfold adaptive_sampling. exec. eexists _, _. reflexivity. Qed.

Lemma threshold_sampling_events args step l :
  sat (threshold_sampling args step l)
    (fun t r =>
       r = Ok tt ->
       exists ts v thr, sampling_threshold l = Some thr /\
         sampling_events t
         = [Made ts; Probed l.(actor_critic) ts v;
            Pushed (threshold_probs v thr args.(num_processes))]).
Proof.
  unfold threshold_sampling, when, load_local.
  destruct (sampling_threshold l) as [thr|];
    destruct (plot_prob args && (step =? 0)); exec_r;
    try discriminate; intros _; eexists _, _, _; split; reflexivity.
Qed.

Lemma collect_step_events args step l :
  sat (collect_step args step l)
    (fun t r =>
       forall l', r = Ok l' ->
         exists plotting adaptive threshold,
           sampling_events t = plotting ++ adaptive ++ threshold /\
           (if args.(plot_prob) && (step =? 0)
            then exists ts v,
                   plotting = [Made ts; Probed l.(actor_critic) ts v]
            else plotting = []) /\
           (if args.(use_adaptive_sampling)
            then exists ts v,
                   adaptive
                   = [Made ts; Probed l.(actor_critic) ts v;
                      Pushed (adaptive_probs v args.(num_processes))]
            else adaptive = []) /\
           (if args.(use_threshold_sampling)
            then exists ts v thr,
                   sampling_threshold l = Some thr /\
                   threshold
                   = [Made ts; Probed l.(actor_critic) ts v;
                      Pushed (threshold_probs v thr args.(num_processes))]
            else threshold = [])).
Proof.
  unfold collect_step.
  apply sat_bind. exec_call. cbv beta iota.
  apply sat_bind. exec_call. cbv beta iota.
  eapply sat_bind_with with
    (P := fun t (_ : result unit) =>
            if args.(plot_prob) && (step =? 0)
            then exists ts v,
                   sampling_events t = [Made ts; Probed l.(actor_critic) ts v]
            else sampling_events t = []).
  { apply sat_when; [intros ->; apply plot_values_events|].
    intros ->. reflexivity. }
  intros t1 r1 P1.
  destruct r1 as [[]|e]; [|discriminate].
  eapply sat_bind_with with
    (P := fun t (_ : result unit) =>
            if args.(use_adaptive_sampling)
            then exists ts v,
                   sampling_events t
                   = [Made ts; Probed l.(actor_critic) ts v;
                      Pushed (adaptive_probs v args.(num_processes))]
            else sampling_events t = []).
  { apply sat_when; [intros ->; apply adaptive_sampling_events|].
    intros ->. reflexivity. }
  intros t2 r2 P2.
  destruct r2 as [[]|e]; [|discriminate].
  eapply sat_bind_with with
    (P := fun t (r : result unit) =>
            r = Ok tt ->
            if args.(use_threshold_sampling)
            then exists ts v thr,
                   sampling_threshold l = Some thr /\
                   sampling_events t
                   = [Made ts; Probed l.(actor_critic) ts v;
                      Pushed (threshold_probs v thr args.(num_processes))]
            else sampling_events t = []).
  { apply sat_when.
    - intros ->. apply threshold_sampling_events.
    - intros -> _. reflexivity. }
  intros t3 r3 P3.
  destruct r3 as [[]|e]; [|discriminate].
  specialize (P3 eq_refl).
  apply sat_bind, sat_lift.
  destruct (scan_infos _ _ _ _ _) as [sc|e]; [|discriminate].
  apply sat_bind. exec_call. apply sat_ret.
  intros l' _.
  exists (sampling_events t1), (sampling_events t2), (sampling_events t3).
  split.
  { rewrite !sampling_events_app. simpl. rewrite !app_nil_r. reflexivity. }
  split; [exact P1|]. split; [exact P2|exact P3].
Qed.

(** ** Reading a file name back *)

Lemma digit_of_digit_char (d : Z) :
  0 <= d < 10 -> digit_of (digit_char d) = Some d.
Proof.
  intros Hd. unfold digit_of. rewrite digit_char_code by exact Hd.
  replace (Z.of_nat (48 + Z.to_nat d)) with (48 + d) by lia.
  destruct (Z.leb_spec 48 (48 + d)); [|lia].
  destruct (Z.leb_spec (48 + d) 57); [|lia].
  simpl. f_equal. lia.
Qed.

Lemma fmt_digits_app fuel n acc tail :
  fmt_digits fuel n acc +:+ tail = fmt_digits fuel n (acc +:+ tail).
Proof.
  revert n acc. induction fuel as [|fuel IH]; intros n acc; simpl;
    [reflexivity|].
  destruct (n <? 10); [reflexivity|]. rewrite IH. reflexivity.
Qed.

Lemma read_digits_fmt fuel :
  forall n tail,
    0 <= n < 10 ^ Z.of_nat fuel ->
    read_digits 0 (fmt_digits fuel n tail) = read_digits n tail.
Proof.
  induction fuel as [|fuel IH]; intros n tail Hn.
  - simpl in *. replace n with 0 by lia. reflexivity.
  - rewrite Nat2Z.inj_succ, Z.pow_succ_r in Hn by lia.
    cbn [fmt_digits]. cbv zeta.
    destruct (Z.ltb_spec n 10) as [Hlt|Hge].
    + cbn [read_digits].
      rewrite digit_of_digit_char by (apply Z.mod_pos_bound; lia).
      rewrite Z.mod_small by lia. reflexivity.
    + rewrite IH.
      * cbn [read_digits].
        rewrite digit_of_digit_char by (apply Z.mod_pos_bound; lia).
        f_equal. pose proof (Z.div_mod n 10 ltac:(lia)). lia.
      * split; [apply Z.div_pos; lia|].
        apply Z.div_lt_upper_bound; lia.
Qed.

Lemma fuel_enough (n : Z) :
  0 <= n -> n < 10 ^ Z.of_nat (S (Z.to_nat (Z.log2 n))).
Proof.
  intros Hn. pose proof (Z.log2_nonneg n) as Hl.
  rewrite Nat2Z.inj_succ, Z2Nat.id by exact Hl.
  destruct (Z.eq_dec n 0) as [->|Hne].
  - reflexivity.
  - destruct (Z.log2_spec n ltac:(lia)) as [_ Hlt].
    eapply Z.lt_le_trans; [exact Hlt|].
    apply Z.pow_le_mono_l. lia.
Qed.

Lemma digit_char_not_minus (d : Z) :
  0 <= d < 10 -> Ascii.eqb (digit_char d) "-" = false.
Proof.
  intros Hd. apply Ascii.eqb_neq. intros H.
  apply (f_equal nat_of_ascii) in H.
  rewrite digit_char_code in H by exact Hd.
  change (nat_of_ascii "-") with 45%nat in H. lia.
Qed.

(** The number of a file name can be read back. *)
Lemma read_number_fmt (n : Z) (tail : string) :
  read_digits n tail = n -> read_digits (- n) tail = - n ->
  read_number (fmt_d n +:+ tail) = n.
Proof.
  intros Hpos Hneg. unfold fmt_d.
  destruct (Z.ltb_spec n 0) as [Hlt|Hge].
  - rewrite string_app_cons. unfold read_number.
    change (Ascii.eqb "-" "-") with true. cbv iota.
    rewrite fmt_digits_app, string_app_nil.
    rewrite read_digits_fmt by (split; [lia|apply fuel_enough; lia]).
    rewrite Hneg. lia.
  - rewrite fmt_digits_app, string_app_nil.
    destruct (fmt_digits_head (Z.to_nat (Z.log2 n)) n tail) as (d & rest & E).
    unfold read_number. rewrite E.
    rewrite digit_char_not_minus by (apply Z.mod_pos_bound; lia).
    rewrite <- E.
    rewrite read_digits_fmt by (split; [lia|apply fuel_enough; lia]).
    exact Hpos.
Qed.

(** A formatted number starts with a minus sign or a digit. *)
Lemma fmt_d_starts (n : Z) (tail : string) (c : ascii) (rest : string) :
  fmt_d n +:+ tail = String c rest ->
  (nat_of_ascii c = 45 \/ 48 <= nat_of_ascii c <= 57)%nat.
Proof.
  unfold fmt_d. destruct (n <? 0).
  - rewrite string_app_cons. intros [= <- _]. left. reflexivity.
  - destruct (fmt_digits_head (Z.to_nat (Z.log2 n)) n "") as (d & r & E).
    rewrite E, string_app_cons. intros [= <- _]. right.
    rewrite digit_char_code by (apply Z.mod_pos_bound; lia).
    pose proof (Z.mod_pos_bound d 10 ltac:(lia)). lia.
Qed.

Lemma checkpoint_name_inj args n m :
  checkpoint_name args n = checkpoint_name args m -> n = m.
Proof.
  unfold checkpoint_name. intros H. apply string_app_inv_head in H.
  rewrite !string_app_cons, !string_app_nil in H. injection H as H.
  apply (f_equal read_number) in H.
  rewrite !read_number_fmt in H by reflexivity. exact H.
Qed.

Lemma specialist_name_inj args s s' :
  specialist_name args s = specialist_name args s' -> s = s'.
Proof.
  unfold specialist_name. intros H. apply string_app_inv_head in H.
  rewrite !string_app_cons, !string_app_nil in H. injection H as H.
  apply (f_equal read_number) in H.
  rewrite !read_number_fmt in H by reflexivity. exact H.
Qed.

Lemma checkpoint_name_not_latest args n :
  checkpoint_name args n <> latest_name args.
Proof.
  unfold checkpoint_name, latest_name. intros H.
  apply string_app_inv_head in H.
  rewrite !string_app_cons, !string_app_nil in H. injection H as H.
  apply fmt_d_starts in H. change (nat_of_ascii "l") with 108%nat in H. lia.
Qed.

Lemma checkpoint_name_not_specialist args n s :
  checkpoint_name args n <> specialist_name args s.
Proof.
  unfold checkpoint_name, specialist_name. intros H.
  apply string_app_inv_head in H.
  rewrite !string_app_cons, !string_app_nil in H. injection H as H.
  apply fmt_d_starts in H. change (nat_of_ascii "s") with 115%nat in H. lia.
Qed.

Lemma latest_name_not_specialist args s :
  latest_name args <> specialist_name args s.
Proof.
  unfold latest_name, specialist_name. intros H.
  apply string_app_inv_head in H.
  rewrite !string_app_cons in H. discriminate H.
Qed.

(** ** The checkpoint plan *)

Lemma starts_with_app (p a b : string) :
  starts_with (p +:+ a) (p +:+ b) = starts_with a b.
Proof.
  induction p as [|c p IH]; [reflexivity|].
  rewrite !string_app_cons. simpl. rewrite Ascii.eqb_refl. exact IH.
Qed.

Lemma specialist_name_is_not_periodic args s :
  is_periodic args (specialist_name args s) = false.
Proof.
  unfold is_periodic, specialist_name.
  rewrite (starts_with_app (env_name args) "_specialist_"). simpl.
  apply andb_false_r.
Qed.

Lemma best_name_is_not_periodic args :
  is_periodic args (best_name args) = false.
Proof. unfold is_periodic. rewrite String.eqb_refl. reflexivity. Qed.

Lemma latest_name_is_periodic args :
  is_periodic args (latest_name args) = true.
Proof.
  unfold is_periodic. rewrite latest_name_not_best. unfold latest_name.
  rewrite (starts_with_app (env_name args) "_specialist_"). reflexivity.
Qed.

Lemma checkpoint_name_is_periodic args n :
  is_periodic args (checkpoint_name args n) = true.
Proof.
  unfold is_periodic. rewrite checkpoint_name_not_best. unfold checkpoint_name.
  rewrite (starts_with_app (env_name args) "_specialist_").
  rewrite string_app_cons, string_app_nil.
  cbn [starts_with negb andb]. change (Ascii.eqb "_" "_") with true.
  cbn [andb].
  destruct (fmt_d n +:+ ".pt") as [|c rest] eqn:E; [reflexivity|].
  apply fmt_d_starts in E.
  destruct (Ascii.eqb_spec "s" c) as [<-|_]; [|reflexivity].
  change (nat_of_ascii "s") with 115%nat in E. lia.
Qed.

Lemma model_name_is_periodic args num_updates j l :
  is_periodic args (model_name args num_updates j l) = true.
Proof.
  unfold model_name. destruct (checkpoint_due _ _ _ _).
  - apply checkpoint_name_is_periodic.
  - apply latest_name_is_periodic.
Qed.

Lemma periodic_files_app args t1 t2 :
  periodic_files args (t1 ++ t2)
  = periodic_files args t1 ++ periodic_files args t2.
Proof.
  unfold periodic_files. rewrite saves_app, map_app. apply List.filter_app.
Qed.

Lemma completed_periodic args num_updates j l t l' :
  completed args num_updates j l t l' ->
  periodic_files args t = [model_name args num_updates j l] /\
  In (l'.(actor_critic), args.(save_dir), model_name args num_updates j l)
    (saves t) /\
  next_checkpoint l' =
    (if checkpoint_due args num_updates j l
     then (next_checkpoint l + args.(save_every))%Q
     else next_checkpoint l).
Proof.
  intros H. apply completed_saves in H as [Hs Hn].
  split; [|split; [|exact Hn]].
  - unfold periodic_files. rewrite Hs, !map_app, !List.filter_app.
    destruct (use_specialist args && _);
      [destruct (specialist l)|];
      destruct ((1 <? _) && _); simpl;
      rewrite ?specialist_name_is_not_periodic, ?best_name_is_not_periodic,
        model_name_is_periodic; reflexivity.
  - rewrite Hs. apply in_or_app. right. left. reflexivity.
Qed.

(** Whole numbers: the comparison, the truncation and the sum of lines
    309-312 on them. *)
Lemma checkpoint_due_whole args num_updates j (l : locals) (m : Z) :
  next_checkpoint l = inject_Z m ->
  checkpoint_due args num_updates j l = due_at args num_updates j m.
Proof.
  intros H. unfold checkpoint_due, due_at, int_ge_float, Qle_bool.
  rewrite H. simpl. rewrite !Z.mul_1_r. reflexivity.
Qed.

Lemma py_int_whole (m : Z) : py_int (inject_Z m) = m.
Proof. unfold py_int. simpl. apply Z.quot_1_r. Qed.

Lemma whole_plus (m k : Z) : (inject_Z m + inject_Z k)%Q = inject_Z (m + k).
Proof. unfold Qplus, inject_Z. simpl. rewrite !Z.mul_1_r. reflexivity. Qed.

Lemma model_name_whole args num_updates j (l : locals) (m : Z) :
  next_checkpoint l = inject_Z m ->
  model_name args num_updates j l =
    if due_at args num_updates j m
    then checkpoint_name args m else latest_name args.
Proof.
  intros H. unfold model_name.
  rewrite (checkpoint_due_whole args num_updates j l m H), H, py_int_whole.
  reflexivity.
Qed.

Lemma due_at_spec args num_updates j m :
  due_at args num_updates j m = true <->
  (m <= (j + 1) * args.(num_steps) * args.(num_processes) \/
   j = num_updates - 1) /\
  args.(save_dir) <> ""%string.
Proof.
  unfold due_at.
  rewrite andb_true_iff, orb_true_iff, negb_true_iff, Z.leb_le,
    Z.eqb_eq, String.eqb_neq.
  reflexivity.
Qed.

(** A completed update on whole numbers. *)
Lemma completed_whole args num_updates j l t l' (m k : Z) :
  completed args num_updates j l t l' ->
  next_checkpoint l = inject_Z m -> args.(save_every) = inject_Z k ->
  periodic_files args t =
    [if due_at args num_updates j m
     then checkpoint_name args m else latest_name args] /\
  In (l'.(actor_critic), args.(save_dir),
      if due_at args num_updates j m
      then checkpoint_name args m else latest_name args) (saves t) /\
  next_checkpoint l' =
    inject_Z (if due_at args num_updates j m then m + k else m).
Proof.
  intros H Hm Hk. apply completed_periodic in H as (Hp & Hin & Hn).
  rewrite (model_name_whole args num_updates j l m Hm) in Hp, Hin.
  rewrite (checkpoint_due_whole args num_updates j l m Hm), Hm, Hk in Hn.
  split; [exact Hp|]. split; [exact Hin|].
  rewrite Hn. destruct (due_at _ _ _ _); [apply whole_plus|reflexivity].
Qed.

Lemma setup_checkpoint args :
  sat (setup args)
    (fun t r => saves t = [] /\
                exists l0, r = Ok l0 /\
                           next_checkpoint l0 = args.(save_every)).
Proof.
  unfold setup.
  destruct (use_curriculum args), (use_specialist args),
    (use_threshold_sampling args), (plot_prob args),
    (load_saved_controller args);
    exec; (split; [reflexivity|eexists; split; reflexivity]).
Qed.

(** A run that ends normally has written, by line 330, the files of the
    plan. *)
Lemma train_plan args (every : Z) :
  args.(save_every) = inject_Z every ->
  sat (train args)
    (fun t r =>
       forall l', r = Ok l' ->
         forall n, num_updates_of args = Ok n ->
           periodic_files args t = checkpoint_plan args n every).
Proof.
  intros Hevery. unfold train.
  eapply sat_bind_with; [apply setup_checkpoint|].
  intros t0 r0 (H0 & l0 & -> & Hnc).
  apply sat_bind, sat_lift.
  destruct (num_updates_of args) as [n|e] eqn:Hn; [|discriminate].
  eapply sat_mono.
  - apply (sat_for_range (update args n)
             (fun k t l =>
                exists m, next_checkpoint l = inject_Z m /\
                  periodic_files args t
                  ++ plan_from args n every (Z.to_nat n - k) (Z.of_nat k) m
                  = checkpoint_plan args n every)
             (fun _ _ => True)).
    + exists every. split; [rewrite Hnc; exact Hevery|].
      unfold checkpoint_plan. rewrite Nat.sub_0_r. reflexivity.
    + intros k t s Hk (m & Hm & Hinv) w.
      pose proof (update_sat args n (Z.of_nat k) s w) as H.
      destruct (outcome_of (update args n (Z.of_nat k) s) w) as [s'|e];
        [|exact I].
      apply update_ok in H.
      destruct (completed_whole _ _ _ _ _ _ m every H Hm Hevery)
        as (Hp & _ & Hnext).
      eexists. split; [exact Hnext|].
      rewrite periodic_files_app, Hp, <- Hinv.
      replace (Z.to_nat n - k)%nat with (S (Z.to_nat n - S k)) by lia.
      cbn [plan_from]. rewrite <- app_assoc.
      replace (Z.of_nat (S k)) with (Z.of_nat k + 1) by lia.
      destruct (due_at args n (Z.of_nat k) m); reflexivity.
  - intros t [l'|e] H l'' E n' Hn'; [|discriminate E].
    rewrite ?Hn in Hn'. injection Hn' as <-.
    destruct H as (m & _ & H).
    rewrite Nat.sub_diag in H. simpl in H. rewrite app_nil_r in H.
    rewrite periodic_files_app. unfold periodic_files at 1.
    rewrite H0. exact H.
Qed.

(** ** The metrics record *)

Lemma update_results_app t1 t2 :
  update_results (t1 ++ t2) = update_results t1 ++ update_results t2.
Proof. apply flat_map_app. Qed.

Lemma log_records_app t1 t2 :
  log_records (t1 ++ t2) = log_records t1 ++ log_records t2.
Proof. apply flat_map_app. Qed.

Lemma update_results_quiet p t :
  p <> Optimize ->
  Forall (fun e => phase_of e = p) t -> update_results t = [].
Proof. intros Hp. apply quiet. revert Hp. clear. intros Hp. by_call. Qed.

Lemma log_records_quiet p t :
  p <> Checkpoint ->
  Forall (fun e => phase_of e = p) t -> log_records t = [].
Proof. intros Hp. apply quiet. revert Hp. clear. intros Hp. by_call. Qed.

Lemma deepcopy_log_records args l : log_records (deepcopy_log args l) = [].
Proof. unfold deepcopy_log. destruct (cuda args); reflexivity. Qed.

Lemma fork_records args l t r :
  fork_post args l t r -> log_records t = [].
Proof.
  unfold fork_post. destruct (use_specialist args);
    [destruct (1000 <? _)%float; [destruct (specialist l)|]|];
    intros [-> _]; try reflexivity.
  change (Called ?c ?r :: ?a ++ ?b) with ([Called c r] ++ a ++ b).
  rewrite !log_records_app, deepcopy_log_records. reflexivity.
Qed.

Lemma best_records args p l t r :
  best_post args p l t r -> log_records t = [].
Proof.
  unfold best_post. destruct (1 <? _); [destruct (_ <? _)%float|];
    intros [-> _]; reflexivity.
Qed.

(** The record a completed update logs carries the losses [agent.update]
    returned in this update and the deques the update ends with. *)
Lemma completed_record args num_updates j l t l' :
  completed args num_updates j l t l' ->
  exists u,
    update_results t = [u] /\
    log_records t =
      (if (1 <? Z.of_nat (length l'.(episode_rewards)))
       then [(j + 1, (j + 1) * args.(num_processes) * args.(num_steps),
              u.(ur_dist_entropy), u.(ur_value_loss), u.(ur_action_loss),
              l'.(episode_rewards), l'.(test_episode_rewards))]
       else []).
Proof.
  intros (o & t2 & l2 & t3 & e3 & t4 & l4 & v & s & u & s' & t_fork & l7 &
          t_best & Ht & Hlog & Hfr & Helog & Hesc & Hfork & Hbest).
  cbv zeta in *.
  pose proof (escalate_phase _ _ _ _ Hesc) as Hep.
  pose proof (fork_phase _ _ _ _ Hfork) as Hfp.
  pose proof (best_phase _ _ _ _ _ Hbest) as Hbp.
  pose proof (fork_records _ _ _ _ Hfork) as Rf.
  pose proof (best_records _ _ _ _ _ Hbest) as Rb.
  exists u. rewrite Ht. unfold checkpoint_log. split.
  - rewrite !update_results_app.
    rewrite (update_results_quiet Collect t2) by (discriminate || apply Hlog).
    rewrite (update_results_quiet Evaluate t3) by (discriminate || apply Helog).
    rewrite (update_results_quiet Escalate t4) by (discriminate || exact Hep).
    rewrite (update_results_quiet Checkpoint t_fork)
      by (discriminate || exact Hfp).
    rewrite (update_results_quiet Checkpoint t_best)
      by (discriminate || exact Hbp).
    rewrite (update_results_quiet Checkpoint (deepcopy_log _ _))
      by (discriminate || apply deepcopy_log_phase).
    simpl. destruct (1 <? _); reflexivity.
  - rewrite !log_records_app, Rf, Rb, deepcopy_log_records.
    rewrite (log_records_quiet Collect t2) by (discriminate || apply Hlog).
    rewrite (log_records_quiet Evaluate t3) by (discriminate || apply Helog).
    rewrite (log_records_quiet Escalate t4) by (discriminate || exact Hep).
    simpl. destruct (1 <? _); reflexivity.
Qed.

(** ** The value plots *)

Lemma plot_axes_app t1 t2 : plot_axes (t1 ++ t2) = plot_axes t1 ++ plot_axes t2.
Proof. apply flat_map_app. Qed.

Lemma draws_app t1 t2 : draws (t1 ++ t2) = (draws t1 + draws t2)%nat.
Proof. unfold draws. rewrite flat_map_app, length_app. reflexivity. Qed.

Lemma plot_values_plots l :
  sat (plot_values l)
    (fun t r => r = Ok tt ->
                plot_axes t = ["ax1"; "ax2"]%string /\ draws t = 1%nat).
Proof.
  unfold plot_values. exec_r; try discriminate; intros _; split; reflexivity.
Qed.

Lemma adaptive_sampling_plots args l :
  sat (adaptive_sampling args l)
    (fun t _ => plot_axes t = [] /\ draws t = 0%nat).
Proof. unfold adaptive_sampling. exec. split; reflexivity. Qed.

Lemma threshold_sampling_plots args step l :
  sat (threshold_sampling args step l)
    (fun t r => r = Ok tt ->
                (args.(plot_prob) && (step =? 0)) = false /\
                plot_axes t = [] /\ draws t = 0%nat).
Proof.
  unfold threshold_sampling, when, load_local.
  destruct (sampling_threshold l) as [thr|];
    destruct (plot_prob args && (step =? 0)); rewrite ?ax_is_unbound;
    exec_r; try discriminate; intros _; repeat split; reflexivity.
Qed.

Lemma collect_step_plots args step l :
  sat (collect_step args step l)
    (fun t r =>
       forall l', r = Ok l' ->
         plot_axes t = (if args.(plot_prob) && (step =? 0)
                      then ["ax1"; "ax2"]%string else []) /\
         draws t = (if args.(plot_prob) && (step =? 0) then 1%nat else 0%nat) /\
         (args.(use_threshold_sampling) = true ->
          (args.(plot_prob) && (step =? 0)) = false)).
Proof.
  unfold collect_step.
  apply sat_bind. exec_call. cbv beta iota.
  apply sat_bind. exec_call. cbv beta iota.
  eapply sat_bind_with with
    (P := fun t (r : result unit) =>
            r = Ok tt ->
            plot_axes t = (if args.(plot_prob) && (step =? 0)
                         then ["ax1"; "ax2"]%string else []) /\
            draws t = (if args.(plot_prob) && (step =? 0) then 1%nat else 0%nat)).
  { apply sat_when; [intros ->; apply plot_values_plots|].
    intros -> _. split; reflexivity. }
  intros t1 r1 P1.
  destruct r1 as [[]|e]; [|discriminate].
  destruct (P1 eq_refl) as [P1a P1b].
  eapply sat_bind_with;
    [apply sat_when_log; [apply adaptive_sampling_plots|split; reflexivity]|].
  intros t2 r2 [P2a P2b].
  destruct r2 as [[]|e]; [|discriminate].
  eapply sat_bind_with with
    (P := fun t (r : result unit) =>
            r = Ok tt ->
            (args.(use_threshold_sampling) = true ->
             (args.(plot_prob) && (step =? 0)) = false) /\
            plot_axes t = [] /\ draws t = 0%nat).
  { apply sat_when.
    - intros Ht. eapply sat_mono; [apply threshold_sampling_plots|].
      intros t' r' H Hr. destruct (H Hr) as (Hb & Hp & Hd).
      split; [intros _; exact Hb|]. split; assumption.
    - intros Ht _. split; [rewrite Ht; discriminate|]. split; reflexivity. }
  intros t3 r3 P3.
  destruct r3 as [[]|e]; [|discriminate].
  destruct (P3 eq_refl) as (P3c & P3a & P3b).
  apply sat_bind, sat_lift.
  destruct (scan_infos _ _ _ _ _) as [sc|e]; [|discriminate].
  apply sat_bind. exec_call. apply sat_ret.
  intros l' _.
  rewrite !plot_axes_app, !draws_app, P1a, P1b, P2a, P2b, P3a, P3b. simpl.
  rewrite !app_nil_r, !Nat.add_0_r. repeat split. exact P3c.
Qed.

(** A collection phase that runs to its end has plotted the values once, at
    its first step, when plotting is enabled and there is a step at all. *)
Lemma collect_plots args l :
  sat (collect args l)
    (fun t r =>
       forall l', r = Ok l' ->
         plot_axes t = (if args.(plot_prob) && (0 <? args.(num_steps))
                      then ["ax1"; "ax2"]%string else []) /\
         draws t = (if args.(plot_prob) && (0 <? args.(num_steps))
                    then 1%nat else 0%nat)).
Proof.
  unfold collect. eapply sat_mono.
  - apply (sat_for_range (collect_step args)
             (fun k t _ =>
                plot_axes t = (if args.(plot_prob) && (0 <? Z.of_nat k)
                             then ["ax1"; "ax2"]%string else []) /\
                draws t = (if args.(plot_prob) && (0 <? Z.of_nat k) then 1%nat else 0%nat))
             (fun _ _ => True)).
    + rewrite andb_false_r. split; reflexivity.
    + intros k t s _ [Hp Hd].
      eapply sat_mono; [apply collect_step_plots|].
      intros t' [s'|e] H; [|exact I].
      destruct (H s' eq_refl) as (Hp' & Hd' & _).
      rewrite plot_axes_app, draws_app, Hp, Hd, Hp', Hd'.
      replace (0 <? Z.of_nat (S k)) with true by (symmetry; apply Z.ltb_lt; lia).
      destruct k as [|k].
      * change (Z.of_nat 0 =? 0) with true. change (0 <? Z.of_nat 0) with false.
        rewrite andb_false_r. destruct (plot_prob args); split; reflexivity.
      * replace (Z.of_nat (S k) =? 0) with false
          by (symmetry; apply Z.eqb_neq; lia).
        replace (0 <? Z.of_nat (S k)) with true
          by (symmetry; apply Z.ltb_lt; lia).
        rewrite andb_false_r, app_nil_r, Nat.add_0_r.
        split; reflexivity.
  - intros t [l'|e] H l'' E; [|discriminate E].
    replace (0 <? num_steps args) with (0 <? Z.of_nat (Z.to_nat (num_steps args)));
      [exact H|].
    destruct (Z.ltb_spec 0 (num_steps args)).
    + apply Z.ltb_lt. lia.
    + apply Z.ltb_ge. lia.
Qed.

(** ** The calls of a completed update, in order *)

Lemma test_resets_quiet p t :
  p <> Evaluate -> Forall (fun e => phase_of e = p) t -> test_resets t = 0%nat.
Proof.
  intros Hp Ht. unfold test_resets. rewrite (quiet _ p t); [reflexivity| |exact Ht].
  revert Hp. clear. intros Hp. by_call.
Qed.

Lemma test_answers_quiet p t :
  p <> Evaluate -> Forall (fun e => phase_of e = p) t -> test_answers t = [].
Proof. intros Hp. apply quiet. revert Hp. clear. intros Hp. by_call. Qed.

(** An update that runs to its end has reset the test environments once and
    stepped them [max_episode_steps] times. *)
Lemma update_evaluates args num_updates j l :
  sat (update args num_updates j l)
    (fun t r =>
       forall l', r = Ok l' ->
         test_resets t = 1%nat /\
         length (test_answers t) = Z.to_nat args.(max_episode_steps)).
Proof.
  unfold update.
  eapply sat_bind_with; [apply schedule_sat|]. intros t1 r1 (o & -> & ->).
  eapply sat_bind_with; [apply collect_sat|].
  intros t2 [l2|e] H2; [|intros ? [=]]. destruct H2 as [H2 _].
  eapply sat_bind_with; [apply evaluate_answers|].
  intros t3 [l3|e] H3; [|intros ? [=]].
  destruct H3 as (Hres & _ & _ & Hok). destruct (Hok l3 eq_refl) as [Hlen _].
  eapply sat_bind_with; [apply escalate_sat|].
  intros t4 [l4|e] H4; [|intros ? [=]].
  apply escalate_phase in H4.
  eapply sat_bind_with; [apply advantage_sat|]. intros t5 r5 (v & s & -> & ->).
  eapply sat_bind_with; [apply optimize_sat|]. intros t6 r6 (u & s' & -> & ->).
  eapply sat_mono; [apply checkpoint_sat|]. intros t7 r7 H7 l' _.
  apply checkpoint_any in H7 as [Hck _].
  rewrite !test_resets_app, !test_answers_app, !length_app, Hres, Hlen.
  rewrite (test_resets_quiet Collect t2) by (discriminate || apply H2).
  rewrite (test_answers_quiet Collect t2) by (discriminate || apply H2).
  rewrite (test_resets_quiet Escalate t4) by (discriminate || exact H4).
  rewrite (test_answers_quiet Escalate t4) by (discriminate || exact H4).
  rewrite (test_resets_quiet Checkpoint t7) by (discriminate || exact Hck).
  rewrite (test_answers_quiet Checkpoint t7) by (discriminate || exact Hck).
  simpl. split; [reflexivity|lia].
Qed.

Lemma escalate_shape args l t l' :
  escalate_post args l t (Ok l') ->
  (args.(use_curriculum) = true ->
   exists m rest, t = Called (NpMedian (episode_rewards l)) m :: rest) /\
  (args.(use_curriculum) = false -> t = []).
Proof.
  unfold escalate_post. destruct (use_curriculum args);
    [destruct (900 <? _)%float; [destruct (curriculum l)|]|];
    intros [-> E]; try discriminate E;
    (split; intros Hc; try discriminate Hc);
    try (eexists _, _; reflexivity); reflexivity.
Qed.

(** A completed update call by call: the learning rate and the parameter
    copy, the collection, the evaluation, the curriculum decision, then
    [get_value], [compute_returns], [agent.update] and [after_update] one
    after the other, then the checkpoint phase around its one unconditional
    save. *)
Lemma completed_order args num_updates j l t l' :
  completed args num_updates j l t l' ->
  exists o t2 t3 t4 l4 v s u s' t7a t7b,
    t = [Called (SetOptimizerLr l.(agent_optimizer)
                   (scheduled_lr args num_updates j)) o;
         Called (StateDictCopy l.(actor_critic)) tt] ++
        t2 ++ t3 ++ t4 ++
        [Called (GetValue l4.(actor_critic)
                   (observations_at l4.(rollouts) (-1))
                   (Some (states_at l4.(rollouts) (-1)))
                   (Some (masks_at l4.(rollouts) (-1)))) v;
         Called (ComputeReturns l4.(rollouts) v args.(use_gae)
                   args.(gamma) args.(gae_lambda)) s;
         Called (AgentUpdate l4.(actor_critic) l4.(agent_optimizer) s) u;
         Called (AfterUpdate s) s'] ++
        t7a ++
        [Called (TorchSave l'.(actor_critic) args.(save_dir)
                   (model_name args num_updates j l)) tt] ++
        t7b /\
    Forall (fun e => phase_of e = Collect) t2 /\
    env_steps t2 = Z.to_nat args.(num_steps) /\
    Forall (fun e => phase_of e = Evaluate) t3 /\
    Forall (fun e => phase_of e = Escalate) t4 /\
    (args.(use_curriculum) = true ->
     exists m rest,
       t4 = Called (NpMedian (episode_rewards l')) m :: rest) /\
    (args.(use_curriculum) = false -> t4 = []) /\
    Forall (fun e => phase_of e = Checkpoint) t7a /\
    Forall (fun e => phase_of e = Checkpoint) t7b.
Proof.
  intros (o & t2 & l2 & t3 & e3 & t4 & l4 & v & s & u & s' & t_fork & l7 &
          t_best & Ht & Hlog & Hfr & Helog & Hesc & Hfork & Hbest).
  cbv zeta in *.
  pose proof (escalate_phase _ _ _ _ Hesc) as Hep.
  pose proof (fork_phase _ _ _ _ Hfork) as Hfp.
  pose proof (best_phase _ _ _ _ _ Hbest) as Hbp.
  destruct (escalate_shape _ _ _ _ Hesc) as [Hyes Hno].
  pose proof (collect_frame_checkpoint _ _ Hfr) as Fn2.
  destruct (escalate_keeps _ _ _ _ Hesc) as (Fs4 & Fa4 & Fo4 & Fr4 & Fe4 & Fm4).
  pose proof (escalate_checkpoint _ _ _ _ Hesc) as Fn4.
  match type of Hfork with
  | fork_post _ (after_naming _ _ _ ?x) _ _ =>
      destruct (after_naming_keeps args num_updates j x)
        as (Fc6 & Fs6 & Fa6 & Fe6 & Fm6);
      assert (Fx : next_checkpoint x = next_checkpoint l)
  end.
  { norm_fields. rewrite Fn4. norm_fields. exact Fn2. }
  destruct (fork_keeps _ _ _ _ Hfork) as (Fc7 & Fa7 & Fe7 & Fm7).
  destruct (best_keeps _ _ _ _ _ Hbest) as (Fc8 & Fs8 & Fa8 & Fe8).
  norm_fields.
  assert (Pa : ur_net u = actor_critic l').
  { rewrite Fa8, Fa7, Fa6. reflexivity. }
  assert (E3 : episode_rewards l2 = episode_rewards l').
  { rewrite Fe8, Fe7, Fe6. norm_fields. rewrite Fe4. reflexivity. }
  rewrite E3 in Hyes.
  eexists o, t2, t3, t4, l4, v, s, u, s', (deepcopy_log args _ ++ t_fork),
    (t_best ++ _).
  split; [|split; [apply Hlog|split; [apply Hlog|split; [apply Helog|
           split; [exact Hep|split; [exact Hyes|split; [exact Hno|split]]]]]]].
  - rewrite Ht. unfold checkpoint_log. rewrite Fa6. norm_fields. rewrite Pa.
    rewrite (model_name_ext args num_updates j _ l)
      by (cbn [next_checkpoint set_rollouts set_agent_optimizer
               set_actor_critic]; exact Fx).
    rewrite <- !app_assoc. reflexivity.
  - apply Forall_app. split; [apply deepcopy_log_phase|exact Hfp].
  - apply Forall_app. split; [exact Hbp|].
    destruct (1 <? _); repeat constructor.
Qed.

(** ** Where the counters start *)

(** A run starts with the set-up. *)
Lemma train_starts args w :
  exists rest, trace_of (train args) w = trace_of (setup args) w ++ rest.
Proof.
  unfold train, trace_of, bind.
  destruct (setup args w) as [[t w1] [l|e]]; simpl.
  - destruct (lift (num_updates_of args) w1) as [[t2 w2] [n|e]]; simpl.
    + destruct (for_range n (update args n) l w2) as [[t3 w3] r].
      eexists. reflexivity.
    + eexists. reflexivity.
  - exists []. rewrite app_nil_r. reflexivity.
Qed.

Lemma bump_unbound p c' : bump None p c' -> p = [] /\ c' = None.
Proof.
  intros [[-> ->]|(n & Hn & _)]; [split; reflexivity|discriminate Hn].
Qed.

(** A counter whose feature is off is never pushed. *)
Lemma train_unpushed args :
  sat (train args)
    (fun t _ =>
       (args.(use_curriculum) = false -> curriculum_pushes t = []) /\
       (args.(use_specialist) = false -> specialist_pushes t = [])).
Proof.
  unfold train.
  eapply sat_bind_with; [apply setup_sat|].
  intros t0 r0 (l0 & -> & Hc & Hs & _ & _ & _ & _ & Pc & Ps & _).
  apply sat_bind, sat_lift.
  destruct (num_updates_of args) as [n|e].
  - eapply sat_mono.
    + apply (sat_for_range (update args n)
               (fun _ t l =>
                  (args.(use_curriculum) = false ->
                   curriculum l = None /\ curriculum_pushes t = []) /\
                  (args.(use_specialist) = false ->
                   specialist l = None /\ specialist_pushes t = []))
               (fun t _ =>
                  (args.(use_curriculum) = false -> curriculum_pushes t = []) /\
                  (args.(use_specialist) = false -> specialist_pushes t = []))).
      * split; intros E; [rewrite Hc, E|rewrite Hs, E]; split; reflexivity.
      * intros k t l _ [Ic Is].
        eapply sat_mono; [apply update_summarised|].
        intros t' r (c' & s' & Bc & Bs & _ & _ & Hok).
        assert (Hcur : args.(use_curriculum) = false ->
                       c' = None /\ curriculum_pushes (t ++ t') = []).
        { intros E. destruct (Ic E) as [Hl Hp]. rewrite Hl in Bc.
          apply bump_unbound in Bc as [Hp' ->].
          rewrite curriculum_pushes_app, Hp, Hp'. split; reflexivity. }
        assert (Hspe : args.(use_specialist) = false ->
                       s' = None /\ specialist_pushes (t ++ t') = []).
        { intros E. destruct (Is E) as [Hl Hp]. rewrite Hl in Bs.
          apply bump_unbound in Bs as [Hp' ->].
          rewrite specialist_pushes_app, Hp, Hp'. split; reflexivity. }
        destruct r as [l'|e].
        -- destruct (Hok l' eq_refl) as (-> & -> & _).
           split; [exact Hcur|exact Hspe].
        -- split; intros E; [apply Hcur, E|apply Hspe, E].
    + intros t r H.
      assert (H' : (args.(use_curriculum) = false -> curriculum_pushes t = []) /\
                   (args.(use_specialist) = false -> specialist_pushes t = [])).
      { destruct r as [l'|e]; [|exact H].
        destruct H as [Ic Is]. split; intros E; [apply Ic, E|apply Is, E]. }
      destruct H' as [Hc' Hs'].
      split; intros E.
      * rewrite !curriculum_pushes_app, Pc, E. simpl. exact (Hc' E).
      * rewrite !specialist_pushes_app, Ps, E. simpl. exact (Hs' E).
  - rewrite app_nil_r. split; intros E; [rewrite Pc, E|rewrite Ps, E]; reflexivity.
Qed.

End Theory.

(** * The claims *)

Section Claims.
Context `{C : Collab}.

(** C3.  In an update that runs to its end with curriculum enabled and the
    median of the recorded training episode rewards above 900, the curriculum
    level goes up by exactly one and the new level is the one level pushed to
    the environments through [update_curriculum]; in every other completed
    update the level is unchanged and nothing is pushed. *)
Theorem curriculum_escalation (args : config) (num_updates j : Z)
    (l l' : locals) (w : world) :
  outcome_of (update args num_updates j l) w = Ok l' ->
  if args.(use_curriculum) && (900 <? np_median l'.(episode_rewards))%float
  then exists c,
         l.(curriculum) = Some c /\
         l'.(curriculum) = Some (c + 1) /\
         curriculum_pushes (trace_of (update args num_updates j l) w) = [c + 1]
  else l'.(curriculum) = l.(curriculum) /\
       curriculum_pushes (trace_of (update args num_updates j l) w) = [].
Proof.
  intros Hout. pose proof (update_sat args num_updates j l w) as H.
  rewrite Hout in H. apply update_ok, completed_curriculum in H.
  destruct H as (t4 & l3 & l4 & Hesc & -> & Hc & <- & ->).
  unfold escalate_post in Hesc. rewrite Hc in Hesc.
  destruct (use_curriculum args); simpl.
  - destruct (900 <? np_median (episode_rewards l3))%float.
    + destruct (curriculum l) as [c|]; [|destruct Hesc as [_ [=]]].
      destruct Hesc as [-> [= ->]]. exists c. repeat split.
    + destruct Hesc as [-> [= ->]]. rewrite Hc. split; reflexivity.
  - destruct Hesc as [-> [= ->]]. rewrite Hc. split; reflexivity.
Qed.

(** C4 (as amended).  In an update that runs to its end with more than one
    training episode reward recorded and their mean above the running
    maximum, the model is saved once under ["<env_name>_best.pt"] and the
    running maximum becomes that mean; in every other completed update
    nothing is saved under that name and the running maximum is unchanged. *)
Theorem best_snapshot (args : config) (num_updates j : Z)
    (l l' : locals) (w : world) :
  outcome_of (update args num_updates j l) w = Ok l' ->
  if (1 <? Z.of_nat (length l'.(episode_rewards)))
     && (l.(max_ep_reward) <? np_mean l'.(episode_rewards))%float
  then saved_under (best_name args) (trace_of (update args num_updates j l) w)
         = [l'.(actor_critic)] /\
       l'.(max_ep_reward) = np_mean l'.(episode_rewards)
  else saved_under (best_name args) (trace_of (update args num_updates j l) w)
         = [] /\
       l'.(max_ep_reward) = l.(max_ep_reward).
Proof.
  intros Hout. pose proof (update_sat args num_updates j l w) as H.
  rewrite Hout in H. apply update_ok, completed_best in H.
  destruct H as (t_best & l7 & Hbest & -> & Hr & Hm).
  unfold best_post in Hbest. rewrite Hr, Hm in Hbest.
  destruct (1 <? Z.of_nat (length (episode_rewards l'))); simpl.
  - destruct (max_ep_reward l <? np_mean (episode_rewards l'))%float.
    + destruct Hbest as [-> [= E]]. split.
      * simpl. rewrite String.eqb_refl. reflexivity.
      * rewrite E at 1. reflexivity.
    + destruct Hbest as [-> [= E]]. split; [reflexivity|].
      rewrite E, Hm. reflexivity.
  - destruct Hbest as [-> [= E]]. split; [reflexivity|].
    rewrite E, Hm. reflexivity.
Qed.

(** C2 (as amended).  In every update the calls are logged in the order of
    the source: learning-rate schedule, COLLECT, EVALUATE, the curriculum
    escalation decision, ADVANTAGE, OPTIMIZE, then the rest of
    CHECKPOINT/ADAPT.  An update that runs to its end goes through exactly
    this sequence of calls: [set_optimizer_lr] and the parameter copy; the
    collection, with [num_steps] steps of the training environments; the
    evaluation, with one reset and [max_episode_steps] steps of the test
    environments; the escalation decision, which starts with [np.median]
    when curriculum is enabled and is empty otherwise; then
    [get_value], [compute_returns], [agent.update] on the storage
    [compute_returns] handed back, and [after_update] on that same storage,
    one directly after the other; then the checkpoint phase, around its one
    unconditional save. *)
Theorem phases_in_source_order (args : config) (num_updates j : Z)
    (l : locals) (w : world) :
  in_order source_rank (trace_of (update args num_updates j l) w) /\
  forall l', outcome_of (update args num_updates j l) w = Ok l' ->
    exists o t2 t3 t4 l4 v s u s' t7a t7b,
      trace_of (update args num_updates j l) w =
        [Called (SetOptimizerLr l.(agent_optimizer)
                   (scheduled_lr args num_updates j)) o;
         Called (StateDictCopy l.(actor_critic)) tt] ++
        t2 ++ t3 ++ t4 ++
        [Called (GetValue l4.(actor_critic)
                   (observations_at l4.(rollouts) (-1))
                   (Some (states_at l4.(rollouts) (-1)))
                   (Some (masks_at l4.(rollouts) (-1)))) v;
         Called (ComputeReturns l4.(rollouts) v args.(use_gae)
                   args.(gamma) args.(gae_lambda)) s;
         Called (AgentUpdate l4.(actor_critic) l4.(agent_optimizer) s) u;
         Called (AfterUpdate s) s'] ++
        t7a ++
        [Called (TorchSave l'.(actor_critic) args.(save_dir)
                   (model_name args num_updates j l)) tt] ++
        t7b /\
      Forall (fun e => phase_of e = Collect) t2 /\
      env_steps t2 = Z.to_nat args.(num_steps) /\
      Forall (fun e => phase_of e = Evaluate) t3 /\
      test_resets t3 = 1%nat /\
      length (test_answers t3) = Z.to_nat args.(max_episode_steps) /\
      Forall (fun e => phase_of e = Escalate) t4 /\
      (args.(use_curriculum) = true ->
       exists m rest,
         t4 = Called (NpMedian (episode_rewards l')) m :: rest) /\
      (args.(use_curriculum) = false -> t4 = []) /\
      Forall (fun e => phase_of e = Checkpoint) t7a /\
      Forall (fun e => phase_of e = Checkpoint) t7b.
Proof.
  pose proof (update_sat args num_updates j l w) as H. split.
  - eapply attempted_in_order, update_attempted, H.
  - intros l' Hout.
    destruct (update_evaluates args num_updates j l w l' Hout) as [Hres Hlen].
    rewrite Hout in H. apply update_ok, completed_order in H.
    destruct H as (o & t2 & t3 & t4 & l4 & v & s & u & s' & t7a & t7b &
                   Ht & H2 & Hsteps & H3 & H4 & Hyes & Hno & H7a & H7b).
    exists o, t2, t3, t4, l4, v, s, u, s', t7a, t7b.
    rewrite Ht in Hres, Hlen.
    rewrite !test_resets_app in Hres.
    rewrite !test_answers_app, !length_app in Hlen.
    rewrite (test_resets_quiet Collect t2) in Hres by (discriminate || exact H2).
    rewrite (test_answers_quiet Collect t2) in Hlen by (discriminate || exact H2).
    rewrite (test_resets_quiet Escalate t4) in Hres by (discriminate || exact H4).
    rewrite (test_answers_quiet Escalate t4) in Hlen by (discriminate || exact H4).
    rewrite (test_resets_quiet Checkpoint t7a) in Hres
      by (discriminate || exact H7a).
    rewrite (test_answers_quiet Checkpoint t7a) in Hlen
      by (discriminate || exact H7a).
    rewrite (test_resets_quiet Checkpoint t7b) in Hres
      by (discriminate || exact H7b).
    rewrite (test_answers_quiet Checkpoint t7b) in Hlen
      by (discriminate || exact H7b).
    simpl in Hres, Hlen.
    split; [exact Ht|]. split; [exact H2|]. split; [exact Hsteps|].
    split; [exact H3|]. split; [lia|]. split; [lia|].
    split; [exact H4|]. split; [exact Hyes|]. split; [exact Hno|].
    split; [exact H7a|exact H7b].
Qed.

(** C9 (as amended).  At every update [j] the learning rate is recomputed
    and handed to [set_optimizer_lr] by the first call of the update, and by
    no other: it is [linear_decay] from the initial rate toward the floor 0
    when the configured decay type is ["linear"], [exponential_decay] with
    rate 0.99 toward the floor 3e-5 when it is ["exponential"], and the
    initial rate itself for any other decay type.  In an update that runs to
    its end, [agent.update] runs on the optimizer that call handed back. *)
Theorem learning_rate_schedule (args : config) (num_updates j : Z)
    (l : locals) (w : world) :
  (args.(lr_decay_type) = "linear"%string ->
   lr_settings (trace_of (update args num_updates j l) w) =
     [linear_decay j num_updates args.(lr) 0%float]) /\
  (args.(lr_decay_type) = "exponential"%string ->
   lr_settings (trace_of (update args num_updates j l) w) =
     [exponential_decay j 0.99%float args.(lr) 3e-5%float]) /\
  (args.(lr_decay_type) <> "linear"%string ->
   args.(lr_decay_type) <> "exponential"%string ->
   lr_settings (trace_of (update args num_updates j l) w) = [args.(lr)]) /\
  exists o rest,
    trace_of (update args num_updates j l) w =
      Called (SetOptimizerLr l.(agent_optimizer)
                (scheduled_lr args num_updates j)) o :: rest /\
    lr_settings rest = [] /\
    forall l', outcome_of (update args num_updates j l) w = Ok l' ->
      update_optims (trace_of (update args num_updates j l) w) = [o].
Proof.
  pose proof (update_sat args num_updates j l w) as H.
  destruct (attempted_lr _ _ _ _ _ _ (update_attempted _ _ _ _ _ _ H))
    as (o & rest & Ht & Hrest).
  assert (Hlr : lr_settings (trace_of (update args num_updates j l) w) =
                [scheduled_lr args num_updates j]).
  { rewrite Ht. change (?e :: ?t) with ([e] ++ t).
    rewrite lr_settings_app, Hrest. reflexivity. }
  rewrite Hlr. unfold scheduled_lr at 1 2 3.
  split; [|split; [|split]].
  - intros ->. reflexivity.
  - intros ->. reflexivity.
  - intros H1 H2.
    apply String.eqb_neq in H1, H2. rewrite H1, H2. reflexivity.
  - exists o, rest. split; [exact Ht|]. split; [exact Hrest|].
    intros l' Hout. rewrite Hout in H.
    apply update_ok, completed_policy in H.
    destruct H as (_ & _ & o' & rest' & Ht' & Hopt).
    rewrite Ht in Ht'. apply (f_equal lr_answers) in Ht'.
    injection Ht' as Ho _. rewrite Hopt, Ho. reflexivity.
Qed.

(** C6.  The live policy parameters are changed by [agent.update] only.
    Collection (with its value probing) and evaluation, however they end,
    call [act] and [get_value] on the parameters they were started with,
    make no write, and leave the parameters as they were.  In an update that
    runs to its end every [act] and [get_value] call reads the parameters
    the update started with, and the single write is that of [agent.update],
    whose result is the parameters the update ends with. *)
Theorem policy_parameters_discipline (args : config) (num_updates j : Z)
    (l : locals) (w : world) :
  (Forall (fun p => p = l.(actor_critic))
     (policy_reads (trace_of (collect args l) w)) /\
   policy_writes (trace_of (collect args l) w) = [] /\
   forall l', outcome_of (collect args l) w = Ok l' ->
     l'.(actor_critic) = l.(actor_critic)) /\
  (Forall (fun p => p = l.(actor_critic))
     (policy_reads (trace_of (evaluate args l) w)) /\
   policy_writes (trace_of (evaluate args l) w) = [] /\
   forall l', outcome_of (evaluate args l) w = Ok l' ->
     l'.(actor_critic) = l.(actor_critic)) /\
  forall l', outcome_of (update args num_updates j l) w = Ok l' ->
    Forall (fun p => p = l.(actor_critic))
      (policy_reads (trace_of (update args num_updates j l) w)) /\
    policy_writes (trace_of (update args num_updates j l) w) =
      [(l.(actor_critic), l'.(actor_critic))].
Proof.
  split; [|split].
  - pose proof (collect_sat args l w) as H. unfold collect_post in H.
    destruct (outcome_of (collect args l) w) as [l1|e].
    + destruct H as [(Hp & Hr & _) (r & o & e & ->)].
      split; [exact Hr|]. split.
      * apply (policy_writes_quiet Collect); [congruence|exact Hp].
      * intros l' [= <-]. reflexivity.
    + destruct H as (k & _ & Hp & Hr & _).
      split; [exact Hr|]. split; [|discriminate].
      apply (policy_writes_quiet Collect); [congruence|exact Hp].
  - pose proof (evaluate_sat args l w) as [[Hp Hr] Hfr].
    split; [exact Hr|]. split.
    + apply (policy_writes_quiet Evaluate); [congruence|exact Hp].
    + intros l' Hout. destruct (Hfr l' Hout) as [e ->]. reflexivity.
  - intros l' Hout. pose proof (update_sat args num_updates j l w) as H.
    rewrite Hout in H. apply update_ok, completed_policy in H.
    destruct H as (Hr & Hw & _). split; assumption.
Qed.

(** C7.  In a collection phase, for every step and every worker [p] (one of
    the [num_processes] workers, with an [info] and a [done] flag in what the
    environments answered to that step), the transition inserted into the
    rollout buffer for that step has [bad_masks] 0 exactly when the worker's
    [info] has the key ["bad_transition"] and 1 otherwise, and [masks] 0
    exactly when the worker's [done] flag is true and 1 otherwise. *)
Theorem masks_follow_step (args : config) (l : locals) (w : world)
    (k : nat) (sr : step_result tensor) (masks bad_masks : list float)
    (p : nat) (i : info) (d : bool) :
  step_answers (trace_of (collect args l) w) !! k = Some sr ->
  inserted_masks (trace_of (collect args l) w) !! k = Some (masks, bad_masks) ->
  (p < Z.to_nat args.(num_processes))%nat ->
  sr.(sr_infos) !! p = Some i ->
  sr.(sr_done) !! p = Some d ->
  (bad_masks !! p = Some 0%float <-> is_Some (i !! "bad_transition"%string)) /\
  (bad_masks !! p = Some 1%float <-> i !! "bad_transition"%string = None) /\
  (masks !! p = Some 0%float <-> d = true) /\
  (masks !! p = Some 1%float <-> d = false).
Proof.
  intros Hsr Hmb Hp Hi Hd.
  exact (collect_masks args l w k sr (masks, bad_masks) Hsr Hmb p i d Hp Hi Hd).
Qed.

(** C8.  With deque sizes that are not negative.  The set-up binds each
    counter whose feature is enabled to 0 and pushes 0 to the environments,
    and leaves a counter whose feature is off unbound; the run starts with
    the set-up.  Over the whole run, however it ends, the curriculum levels
    pushed are 0, 1, 2, ... in this order, starting with 0 when curriculum
    is enabled and none at all when it is not, and so are the specialist
    indices; a run that ends normally ends on the last level pushed.  In one
    update each counter stays as it is or goes up by exactly one, and in an
    update that runs to its end the curriculum level moves only with
    curriculum enabled and the median reward above 900, the specialist index
    only with specialists enabled and the mean reward above 1000. *)
Theorem counters_only_advance (args : config) (num_updates j : Z)
    (l : locals) (w : world) :
  0 <= args.(num_processes) -> 0 <= args.(num_tests) ->
  (exists l0 rest,
     outcome_of (setup args) w = Ok l0 /\
     trace_of (main args) w = trace_of (setup args) w ++ rest /\
     l0.(curriculum) = (if args.(use_curriculum) then Some 0 else None) /\
     l0.(specialist) = (if args.(use_specialist) then Some 0 else None) /\
     curriculum_pushes (trace_of (setup args) w)
       = (if args.(use_curriculum) then [0] else []) /\
     specialist_pushes (trace_of (setup args) w)
       = (if args.(use_specialist) then [0] else [])) /\
  (args.(use_curriculum) = true ->
   exists more, curriculum_pushes (trace_of (main args) w) = 0 :: more) /\
  (args.(use_curriculum) = false ->
   curriculum_pushes (trace_of (main args) w) = []) /\
  (args.(use_specialist) = true ->
   exists more, specialist_pushes (trace_of (main args) w) = 0 :: more) /\
  (args.(use_specialist) = false ->
   specialist_pushes (trace_of (main args) w) = []) /\
  counts_from_zero (curriculum_pushes (trace_of (main args) w)) /\
  counts_from_zero (specialist_pushes (trace_of (main args) w)) /\
  (forall l', outcome_of (train args) w = Ok l' ->
     l'.(curriculum) = last (curriculum_pushes (trace_of (main args) w)) /\
     l'.(specialist) = last (specialist_pushes (trace_of (main args) w))) /\
  exists c' s',
    bump l.(curriculum)
      (curriculum_pushes (trace_of (update args num_updates j l) w)) c' /\
    bump l.(specialist)
      (specialist_pushes (trace_of (update args num_updates j l) w)) s' /\
    forall l', outcome_of (update args num_updates j l) w = Ok l' ->
      l'.(curriculum) = c' /\ l'.(specialist) = s' /\
      (l'.(curriculum) <> l.(curriculum) ->
       args.(use_curriculum) = true /\
       (900 <? np_median l'.(episode_rewards))%float = true) /\
      (l'.(specialist) <> l.(specialist) ->
       args.(use_specialist) = true /\
       (1000 <? np_mean l'.(episode_rewards))%float = true).
Proof.
  intros _ _. rewrite main_trace.
  pose proof (train_sat args w) as (Zc & Zs & _ & Hok).
  pose proof (train_unpushed args w) as [Uc Us].
  pose proof (setup_sat args w)
    as (l0 & Hl0 & Hc0 & Hs0 & _ & _ & _ & _ & Pc & Ps & _).
  destruct (train_starts args w) as [rest Hrest].
  split.
  { exists l0, rest. repeat (split; [assumption|]). assumption. }
  split.
  { intros E. rewrite Hrest, curriculum_pushes_app, Pc, E.
    eexists. reflexivity. }
  split; [exact Uc|]. split.
  { intros E. rewrite Hrest, specialist_pushes_app, Ps, E.
    eexists. reflexivity. }
  split; [exact Us|].
  split; [exact Zc|]. split; [exact Zs|]. split.
  { intros l' Hout. destruct (Hok l' Hout) as (Hc & Hs & _). split; assumption. }
  pose proof (update_summarised args num_updates j l w)
    as (c' & s' & Bc & Bs & _ & _ & Hsum).
  exists c', s'. split; [exact Bc|]. split; [exact Bs|].
  intros l' Hout. destruct (Hsum l' Hout) as (Hc' & Hs' & _).
  split; [exact Hc'|]. split; [exact Hs'|].
  pose proof (update_sat args num_updates j l w) as H.
  rewrite Hout in H. apply update_ok in H. split.
  - intros Hne. apply completed_curriculum in H.
    destruct H as (t4 & l3 & l4 & Hesc & _ & Hc3 & He3 & Hc4).
    unfold escalate_post in Hesc. rewrite He3 in Hesc.
    destruct (use_curriculum args);
      [destruct (900 <? np_median (episode_rewards l'))%float|].
    + split; reflexivity.
    + destruct Hesc as [_ [= ->]]. congruence.
    + destruct Hesc as [_ [= ->]]. congruence.
  - intros Hne. apply completed_specialist in H.
    destruct H as (t_fork & l0' & l7 & Hfork & _ & Hs0' & He0 & Hs7).
    unfold fork_post in Hfork. rewrite He0 in Hfork.
    destruct (use_specialist args);
      [destruct (1000 <? np_mean (episode_rewards l'))%float|].
    + split; reflexivity.
    + destruct Hfork as [_ [= ->]]. congruence.
    + destruct Hfork as [_ [= ->]]. congruence.
Qed.

(** C10.  With [plot_prob] and [use_threshold_sampling] both enabled (a
    budget of at least one update of at least one step, at least one worker
    and a size of the test deque that is not negative), the run raises
    [NameError] for the name [ax] in the first collection step of the first
    update: [ax] is bound nowhere, whatever the locals are.  The run has then
    stepped the training environments once and has completed no update. *)
Theorem undefined_axes (args : config) (w : world) :
  args.(plot_prob) = true ->
  args.(use_threshold_sampling) = true ->
  0 < args.(num_steps) -> 0 < args.(num_processes) ->
  0 <= args.(num_tests) ->
  args.(num_steps) * args.(num_processes) <= py_int args.(num_frames) ->
  (forall bound, load_name bound "ax" = Raise (NameError "ax")) /\
  outcome_of (main args) w = Raise (NameError "ax") /\
  env_steps (trace_of (main args) w) = 1%nat /\
  updates_done (trace_of (main args) w) = 0%nat.
Proof.
  intros Hp Ht Hs Hw _ Hf. split; [apply ax_is_unbound|].
  rewrite main_outcome, main_trace.
  pose proof (train_crash args Hp Ht Hs Hw Hf w) as (-> & He & Hu).
  repeat split; assumption.
Qed.

End Claims.

(** * Further properties of [main] *)

Section Coverage.
Context `{C : Collab}.

(** X1.  A configuration with [num_steps] or [num_processes] equal to 0
    (and no negative size for the two deques) makes line 170 raise
    [ZeroDivisionError]: the run is the set-up alone, without a step of the
    training environments and without an update. *)
Theorem zero_division_before_training (args : config) (w : world) :
  0 <= args.(num_processes) -> 0 <= args.(num_tests) ->
  args.(num_steps) = 0 \/ args.(num_processes) = 0 ->
  outcome_of (main args) w = Raise ZeroDivisionError /\
  trace_of (main args) w = trace_of (setup args) w /\
  env_steps (trace_of (main args) w) = 0%nat /\
  updates_done (trace_of (main args) w) = 0%nat.
Proof.
  intros _ _ H. pose proof (num_updates_zero_division args H) as Hn.
  destruct (train_idle args w) as [Ht Ho].
  { intros n Hn'. rewrite Hn in Hn'. discriminate Hn'. }
  pose proof (setup_sat args w)
    as (l0 & Hl0 & _ & _ & _ & _ & _ & _ & _ & _ & Hu & Hs & _).
  rewrite main_outcome, main_trace, Ho, Ht, Hl0, Hn.
  unfold env_steps, updates_done. rewrite Hu, Hs. repeat split.
Qed.

(** X2.  With a budget of fewer frames than one update takes
    ([int(num_frames) < num_steps * num_processes], both factors positive, a
    negative budget included) the run ends normally after the set-up: no
    step of the training environments, no update, and no file saved. *)
Theorem budget_below_one_update (args : config) (w : world) :
  0 < args.(num_steps) -> 0 < args.(num_processes) ->
  0 <= args.(num_tests) ->
  py_int args.(num_frames) < args.(num_steps) * args.(num_processes) ->
  outcome_of (main args) w = Ok tt /\
  trace_of (main args) w = trace_of (setup args) w /\
  env_steps (trace_of (main args) w) = 0%nat /\
  updates_done (trace_of (main args) w) = 0%nat /\
  saves (trace_of (main args) w) = [].
Proof.
  intros Hs Hp _ Hf.
  destruct (num_updates_none args Hs Hp Hf) as (n & Hn & Hle).
  destruct (train_idle args w) as [Ht Ho].
  { intros n' Hn'. rewrite Hn in Hn'. injection Hn' as <-. exact Hle. }
  pose proof (setup_sat args w)
    as (l0 & Hl0 & _ & _ & _ & _ & _ & _ & _ & _ & Hu & Hst & _).
  pose proof (setup_saves args w) as Hsv.
  rewrite main_outcome, main_trace, Ho, Ht, Hl0, Hn.
  unfold env_steps, updates_done. rewrite Hu, Hst, Hsv. repeat split.
Qed.

(** X3.  With at least one step and one worker per update and a budget that
    is not negative, the frames collected ([num_processes] for each step of
    the training environments) never exceed [num_frames], however the run
    ends; a run that ends normally has made exactly
    floor(num_frames / num_steps / num_processes) updates of [num_steps]
    steps each. *)
Theorem frames_within_budget (args : config) (w : world) :
  0 < args.(num_steps) -> 0 < args.(num_processes) ->
  0 <= args.(num_tests) ->
  (0 <= args.(num_frames))%Q ->
  (inject_Z (Z.of_nat (env_steps (trace_of (main args) w))
             * args.(num_processes)) <= args.(num_frames))%Q /\
  (outcome_of (main args) w = Ok tt ->
   Z.of_nat (updates_done (trace_of (main args) w)) =
     Qfloor (args.(num_frames) / inject_Z args.(num_steps)
             / inject_Z args.(num_processes)) /\
   Z.of_nat (env_steps (trace_of (main args) w)) =
     Qfloor (args.(num_frames) / inject_Z args.(num_steps)
             / inject_Z args.(num_processes)) * args.(num_steps)).
Proof.
  intros Hs Hp _ Hf.
  pose proof (frame_budget args w Hs Hp Hf) as H. cbv zeta in H.
  set (n := Qfloor (num_frames args / inject_Z (num_steps args)
                    / inject_Z (num_processes args))) in *.
  destruct H as (_ & He & Hle & Hok).
  assert (Hn : 0 <= n).
  { unfold n. rewrite !Qfloor_div_pos by assumption.
    apply Z.div_pos; [|lia]. apply Z.div_pos; [|lia].
    change 0 with (Qfloor 0). apply Qfloor_resp_le. exact Hf. }
  split.
  - eapply Qle_trans; [|exact Hle]. rewrite <- Zle_Qle.
    apply Z.mul_le_mono_nonneg_r; [lia|]. nia.
  - intros Hout. destruct (Hok Hout) as [Hu' He']. split; [lia|nia].
Qed.

(** X4.  In an update that runs to its end with specialists enabled and the
    mean of the recorded training episode rewards above 1000, the specialist
    index goes up by exactly one and the new index is the one index pushed
    to the environments through [update_specialist]; in every other
    completed update the index is unchanged and nothing is pushed.  The mean
    is taken whatever the number of recorded rewards. *)
Theorem specialist_fork (args : config) (num_updates j : Z)
    (l l' : locals) (w : world) :
  outcome_of (update args num_updates j l) w = Ok l' ->
  if args.(use_specialist) && (1000 <? np_mean l'.(episode_rewards))%float
  then exists s,
         l.(specialist) = Some s /\
         l'.(specialist) = Some (s + 1) /\
         specialist_pushes (trace_of (update args num_updates j l) w) = [s + 1]
  else l'.(specialist) = l.(specialist) /\
       specialist_pushes (trace_of (update args num_updates j l) w) = [].
Proof.
  intros Hout. pose proof (update_sat args num_updates j l w) as H.
  rewrite Hout in H. apply update_ok, completed_specialist in H.
  destruct H as (t_fork & l0 & l7 & Hfork & -> & Hs & <- & ->).
  unfold fork_post in Hfork. rewrite Hs in Hfork.
  destruct (use_specialist args); simpl.
  - destruct (1000 <? np_mean (episode_rewards l0))%float.
    + destruct (specialist l) as [s|]; [|destruct Hfork as [_ [=]]].
      destruct Hfork as [-> [= ->]]. exists s.
      split; [reflexivity|]. split; [reflexivity|].
      change (Called ?c ?r :: ?a ++ ?b) with ([Called c r] ++ a ++ b).
      rewrite !specialist_pushes_app, deepcopy_log_specialist. reflexivity.
    + destruct Hfork as [-> [= ->]]. rewrite Hs. split; reflexivity.
  - destruct Hfork as [-> [= ->]]. rewrite Hs. split; reflexivity.
Qed.

(** X5.  The files an update that runs to its end writes, in order: the
    specialist snapshot, under the index the update started with, when
    specialists are enabled and the mean reward is above 1000; then the
    periodic or latest checkpoint, always; then the best snapshot when more
    than one reward is recorded and their mean is above the running maximum.
    Every one of them holds the parameters the update ends with (those of
    after the optimisation step), and goes to [save_dir]. *)
Theorem files_of_an_update (args : config) (num_updates j : Z)
    (l l' : locals) (w : world) :
  outcome_of (update args num_updates j l) w = Ok l' ->
  saves (trace_of (update args num_updates j l) w) =
    (if args.(use_specialist) && (1000 <? np_mean l'.(episode_rewards))%float
     then match l.(specialist) with
          | Some s => [(l'.(actor_critic), args.(save_dir),
                        specialist_name args s)]
          | None => []
          end
     else []) ++
    [(l'.(actor_critic), args.(save_dir), model_name args num_updates j l)] ++
    (if (1 <? Z.of_nat (length l'.(episode_rewards)))
        && (l.(max_ep_reward) <? np_mean l'.(episode_rewards))%float
     then [(l'.(actor_critic), args.(save_dir), best_name args)]
     else []).
Proof.
  intros Hout. pose proof (update_sat args num_updates j l w) as H.
  rewrite Hout in H. apply update_ok in H.
  apply (completed_saves _ _ _ _ _ _ H).
Qed.

(** X6.  The checkpoint of lines 307-314 and 330, for a [next_checkpoint]
    and a [save_every] that are whole numbers [m] and [k] of magnitude at
    most 2^53, their sum included, so that the sum of line 312 is exact on
    doubles.  When the frame count [(j + 1) * num_steps * num_processes] has
    reached [m] or the update is the last one ([j = num_updates - 1]), and
    [save_dir] is not the empty string, an update that runs to its end
    saves the parameters it ends with as ["<env_name>_<m>.pt"], its one file
    that is neither a best nor a specialist snapshot, and moves
    [next_checkpoint] on to [m + k]; otherwise that file is
    ["<env_name>_latest.pt"] and [next_checkpoint] stays [m]. *)
Theorem checkpoint_naming (args : config) (num_updates j : Z)
    (l l' : locals) (w : world) (m k : Z) :
  outcome_of (update args num_updates j l) w = Ok l' ->
  next_checkpoint l = inject_Z m -> args.(save_every) = inject_Z k ->
  Z.abs m <= 2 ^ 53 -> Z.abs k <= 2 ^ 53 -> Z.abs (m + k) <= 2 ^ 53 ->
  let due :=
    (m <= (j + 1) * args.(num_steps) * args.(num_processes) \/
     j = num_updates - 1) /\
    args.(save_dir) <> ""%string in
  (due ->
   periodic_files args (trace_of (update args num_updates j l) w)
     = [checkpoint_name args m] /\
   In (l'.(actor_critic), args.(save_dir), checkpoint_name args m)
     (saves (trace_of (update args num_updates j l) w)) /\
   next_checkpoint l' = inject_Z (m + k)) /\
  (~ due ->
   periodic_files args (trace_of (update args num_updates j l) w)
     = [latest_name args] /\
   In (l'.(actor_critic), args.(save_dir), latest_name args)
     (saves (trace_of (update args num_updates j l) w)) /\
   next_checkpoint l' = inject_Z m).
Proof.
  intros Hout Hm Hk _ _ _ due.
  pose proof (update_sat args num_updates j l w) as H.
  rewrite Hout in H. apply update_ok in H.
  destruct (completed_whole _ _ _ _ _ _ m k H Hm Hk) as (Hp & Hin & Hn).
  pose proof (due_at_spec args num_updates j m) as Hdue.
  fold due in Hdue.
  destruct (due_at args num_updates j m).
  - split; [intros _; split; [exact Hp|split; [exact Hin|exact Hn]]|].
    intros Hnot. exfalso. apply Hnot, Hdue. reflexivity.
  - split; [|intros _; split; [exact Hp|split; [exact Hin|exact Hn]]].
    intros Hyes. apply Hdue in Hyes. discriminate Hyes.
Qed.

(** X7.  The reward history after a collection phase that runs to its end:
    the returns the environments reported through ["episode"]["r"] during
    the phase, in step order and worker order, are appended to the deque,
    which keeps the newest [num_processes] entries.  Every info the phase
    went through has a well-formed ["episode"] entry or none. *)
Theorem reward_history (args : config) (l l' : locals) (w : world) :
  0 <= args.(num_processes) ->
  (length l.(episode_rewards) <= Z.to_nat args.(num_processes))%nat ->
  outcome_of (collect args l) w = Ok l' ->
  let reported :=
    flat_map (fun sr => returns_of sr.(sr_infos))
      (step_answers (trace_of (collect args l) w)) in
  l'.(episode_rewards) =
    drop (length (l.(episode_rewards) ++ reported)
          - Z.to_nat args.(num_processes))
      (l.(episode_rewards) ++ reported) /\
  (length l'.(episode_rewards) <= Z.to_nat args.(num_processes))%nat /\
  Forall (fun sr => episodes_well_formed sr.(sr_infos))
    (step_answers (trace_of (collect args l) w)).
Proof.
  intros _ Hlen Hout reported.
  destruct (collect_rewards args l w l' Hout) as [Hrw Hwf].
  fold reported in Hrw. split; [|split; [|exact Hwf]].
  - rewrite Hrw. apply deque_extend_drop, Hlen.
  - rewrite Hrw. apply deque_extend_length, Hlen.
Qed.

(** X8.  The scan over the infos of a step (lines 244-252).  On infos whose
    ["episode"] entries are dictionaries with the key ["r"], and that are
    not more than the rows of [bad_masks] from [p_index] on, the scan
    returns: the rewards are the deque extended by the reported returns and
    [bad_masks] keeps its length.  When it raises, the exception is
    [IndexError] (a ["bad_transition"] beyond the last row), [KeyError] for
    ["r"], or [TypeError] (an ["episode"] entry that is no dictionary), and
    the infos were not of that kind. *)
Theorem scanning_infos (maxlen : Z) (p_index : nat) (infos : list info)
    (bad_masks rewards : list float) :
  (episodes_well_formed infos ->
   (p_index + length infos <= length bad_masks)%nat ->
   exists bad_masks',
     scan_infos maxlen p_index infos bad_masks rewards
     = Ok (bad_masks', deque_extend maxlen (returns_of infos) rewards) /\
     length bad_masks' = length bad_masks) /\
  (forall e,
     scan_infos maxlen p_index infos bad_masks rewards = Raise e ->
     (e = IndexError \/ e = KeyError "r" \/ e = TypeError) /\
     ~ (episodes_well_formed infos /\
        (p_index + length infos <= length bad_masks)%nat)).
Proof.
  split.
  - intros Hwf Hlen. apply scan_infos_total; assumption.
  - intros e He. split; [exact (scan_infos_error _ _ _ _ _ _ He)|].
    intros [Hwf Hlen].
    destruct (scan_infos_total maxlen infos p_index bad_masks rewards Hwf Hlen)
      as (bm' & E & _).
    rewrite E in He. discriminate He.
Qed.

(** X9.  The exceptions of a run, under these assumptions: the
    collaborators answer every call; [num_frames] is finite; [num_processes]
    and [num_tests] are not negative, so that the deques of lines 168-169
    are built; [save_every] is a whole number [k] with
    [(num_updates + 1) * |k|] at most 2^53, so that [next_checkpoint] stays
    a whole number that [int] of line 311 accepts; the wall-clock quotient
    of line 344 is left aside.  Such a run, when it raises, does so with
    [ZeroDivisionError] (only when [num_steps] or [num_processes] is 0),
    with [NameError] for [ax] (only with [plot_prob] and
    [use_threshold_sampling] both enabled), or with the [IndexError],
    [KeyError] or [TypeError] of a scan over malformed infos.  In particular
    the locals bound under a flag only ([curriculum], [specialist],
    [sampling_threshold], [fig], [ax1], [ax2]) are bound whenever they are
    read: no run raises [UnboundLocalError]. *)
Theorem exceptions_of_a_run (args : config) (w : world) (e : exn) (k : Z) :
  0 <= args.(num_processes) -> 0 <= args.(num_tests) ->
  args.(save_every) = inject_Z k ->
  (forall n, num_updates_of args = Ok n ->
             (Z.max n 0 + 1) * Z.abs k <= 2 ^ 53) ->
  outcome_of (main args) w = Raise e ->
  ((e = ZeroDivisionError /\
    (args.(num_steps) = 0 \/ args.(num_processes) = 0)) \/
   (e = NameError "ax" /\
    args.(plot_prob) = true /\ args.(use_threshold_sampling) = true) \/
   e = IndexError \/ e = KeyError "r" \/ e = TypeError) /\
  (forall x, e <> UnboundLocalError x).
Proof.
  rewrite main_outcome. intros _ _ _ _ Hout.
  destruct (train_steady args w) as [_ H].
  destruct (outcome_of (train args) w) as [l'|e']; [discriminate Hout|].
  injection Hout as ->.
  assert (He : (e = ZeroDivisionError /\
                (args.(num_steps) = 0 \/ args.(num_processes) = 0)) \/
               (e = NameError "ax" /\
                args.(plot_prob) = true /\
                args.(use_threshold_sampling) = true) \/
               e = IndexError \/ e = KeyError "r" \/ e = TypeError)
    by exact H.
  split; [exact He|].
  intros x ->.
  destruct He as [[He _]|[[He _]|[He|[He|He]]]]; discriminate He.
Qed.

(** X10.  With at most one worker ([num_processes] 0 or 1) the reward deque
    never holds more than one entry, so the guards [len(episode_rewards) > 1]
    of lines 332 and 337 never pass: whatever the environments report and
    however the run ends, no metrics record is logged and no best snapshot
    is saved. *)
Theorem single_worker_never_logs (args : config) (w : world) :
  0 <= args.(num_processes) <= 1 -> 0 <= args.(num_tests) ->
  logged (trace_of (main args) w) = [] /\
  saved_under (best_name args) (trace_of (main args) w) = [].
Proof.
  intros [_ Hp] _. rewrite main_trace.
  destruct (train_steady args w) as [H _]. exact (H Hp).
Qed.

(** X11.  The evaluation phase (lines 270-288) resets the test environments
    once and steps them, never the training environments; when it runs to
    its end it has made exactly [max_episode_steps] steps, whatever [done]
    flags came back, and the only local it changes is the deque of test
    rewards, extended by the returns the test environments reported and
    holding the newest [num_tests] of them. *)
Theorem evaluation_phase (args : config) (l : locals) (w : world) :
  test_resets (trace_of (evaluate args l) w) = 1%nat /\
  step_answers (trace_of (evaluate args l) w) = [] /\
  (length (test_answers (trace_of (evaluate args l) w))
   <= Z.to_nat args.(max_episode_steps))%nat /\
  forall l', outcome_of (evaluate args l) w = Ok l' ->
    length (test_answers (trace_of (evaluate args l) w))
      = Z.to_nat args.(max_episode_steps) /\
    l' = set_test_episode_rewards
           (deque_extend args.(num_tests)
              (flat_map (fun sr => returns_of sr.(sr_infos))
                 (test_answers (trace_of (evaluate args l) w)))
              (test_episode_rewards l))
           l.
Proof. exact (evaluate_answers args l w). Qed.

(** X12.  Over a whole run the learning rate is set once for every update
    that is started, for the update indices 0, 1, 2, ... in this order and
    to the rate scheduled for the index, and nowhere else; a run that ends
    normally has set it [num_updates] times. *)
Theorem learning_rates_of_a_run (args : config) (w : world) (n : Z) :
  0 <= args.(num_processes) -> 0 <= args.(num_tests) ->
  num_updates_of args = Ok n ->
  exists k, (k <= Z.to_nat n)%nat /\
    lr_settings (trace_of (main args) w) =
      map (fun j => scheduled_lr args n (Z.of_nat j)) (seq 0 k) /\
    (outcome_of (main args) w = Ok tt -> k = Z.to_nat n).
Proof.
  intros _ _ Hn. rewrite main_trace, main_outcome.
  destruct (train_lr args w n Hn) as (k & Hk & Hlr & Hok).
  exists k. split; [exact Hk|]. split; [exact Hlr|].
  destruct (outcome_of (train args) w) as [l'|e]; [|discriminate].
  intros _. exact (Hok l' eq_refl).
Qed.

(** X13.  The sampling of a collection step that runs to its end, lines
    206-242.  Each of the three blocks asks [envs.create_temp_states] for
    states and [actor_critic.get_value] for the values of exactly those
    states, with neither recurrent states nor masks: the plot block when
    [plot_prob] is set and the step is the first one, then the adaptive
    block when [use_adaptive_sampling] is set, then the threshold block when
    [use_threshold_sampling] is set; these are all the calls of the three
    kinds in the step.  The adaptive block hands to
    [envs.update_sample_prob] the table computed from the values it was
    answered, the threshold block the table computed from the values it was
    answered and from [sampling_threshold], which is bound.  With both
    enabled two tables are sent in every step, the threshold one last. *)
Theorem sampling_of_a_step (args : config) (step : Z) (l l' : locals)
    (w : world) :
  outcome_of (collect_step args step l) w = Ok l' ->
  exists plotting adaptive threshold,
    sampling_events (trace_of (collect_step args step l) w)
      = plotting ++ adaptive ++ threshold /\
    (if args.(plot_prob) && (step =? 0)
     then exists ts v, plotting = [Made ts; Probed l.(actor_critic) ts v]
     else plotting = []) /\
    (if args.(use_adaptive_sampling)
     then exists ts v,
            adaptive
            = [Made ts; Probed l.(actor_critic) ts v;
               Pushed (adaptive_probs v args.(num_processes))]
     else adaptive = []) /\
    (if args.(use_threshold_sampling)
     then exists ts v thr,
            sampling_threshold l = Some thr /\
            threshold
            = [Made ts; Probed l.(actor_critic) ts v;
               Pushed (threshold_probs v thr args.(num_processes))]
     else threshold = []).
Proof. intros Hout. exact (collect_step_events args step l w l' Hout). Qed.

(** X14.  The file names of lines 311, 314, 322 and 333.  The number of a
    numbered checkpoint or of a specialist snapshot can be read back from
    its name, so different numbers give different files; and the four
    families (numbered checkpoint, latest, specialist, best) never share a
    name, whatever the environment name: no save of one kind overwrites a
    file of another. *)
Theorem file_names (args : config) (n m s s' : Z) :
  read_number (fmt_d n +:+ ".pt") = n /\
  (checkpoint_name args n = checkpoint_name args m -> n = m) /\
  (specialist_name args s = specialist_name args s' -> s = s') /\
  checkpoint_name args n <> latest_name args /\
  checkpoint_name args n <> best_name args /\
  checkpoint_name args n <> specialist_name args s /\
  latest_name args <> best_name args /\
  latest_name args <> specialist_name args s /\
  specialist_name args s <> best_name args.
Proof.
  split; [apply read_number_fmt; reflexivity|].
  split; [apply checkpoint_name_inj|].
  split; [apply specialist_name_inj|].
  split; [apply checkpoint_name_not_latest|].
  split; [apply String.eqb_neq, checkpoint_name_not_best|].
  split; [apply checkpoint_name_not_specialist|].
  split; [apply String.eqb_neq, latest_name_not_best|].
  split; [apply latest_name_not_specialist|].
  apply String.eqb_neq, specialist_name_not_best.
Qed.

(** X15.  The files of line 330 follow a plan that depends on the
    configuration alone, not on what the environments or the optimizer do.
    For a [save_every] that is a whole number [k], not negative and with
    [(num_updates + 1) * k] at most 2^53, so that every sum of line 312 is
    exact on doubles: [next_checkpoint] starts at [k]; update [j] writes
    ["<env_name>_<next_checkpoint>.pt"] and moves [next_checkpoint] on by
    [k] when its frame count has reached [next_checkpoint] or it is the last
    update (and [save_dir] is not empty), and writes
    ["<env_name>_latest.pt"] otherwise.  A run that ends normally has
    written exactly the files of this plan, in order, one per update. *)
Theorem checkpoint_plan_followed (args : config) (w : world) (n k : Z) :
  0 <= args.(num_processes) -> 0 <= args.(num_tests) ->
  args.(save_every) = inject_Z k ->
  0 <= k -> (Z.max n 0 + 1) * k <= 2 ^ 53 ->
  num_updates_of args = Ok n ->
  outcome_of (main args) w = Ok tt ->
  periodic_files args (trace_of (main args) w) = checkpoint_plan args n k /\
  length (checkpoint_plan args n k) = Z.to_nat n.
Proof.
  intros _ _ Hk _ _ Hn. rewrite main_outcome, main_trace. intros Hout.
  pose proof (train_plan args k Hk w) as H.
  destruct (outcome_of (train args) w) as [l'|e]; [|discriminate Hout].
  split; [exact (H l' eq_refl n Hn)|].
  unfold checkpoint_plan. generalize k at 2. generalize 0.
  induction (Z.to_nat n) as [|i IH]; intros j q; simpl; [reflexivity|].
  destruct (due_at args n j q); simpl; rewrite IH; reflexivity.
Qed.

(** X16.  The default configuration of [configs] (lines 30-78), with any
    non-empty directory to save to: [num_steps] is 400 and the 40000
    frames of an update are cut into 39 mini-batches; [num_updates] is
    1500, and a run that ends normally makes 1500 updates of 400 steps on
    100 workers, which is the budget of 6e7 frames exactly; it writes a
    numbered checkpoint at every 250th update, six in all, numbered
    10000000 to 60000000, and the latest checkpoint at every other
    update. *)
Theorem default_run (cuda_available : bool) (c : ascii) (dir : string)
    (episode_length : Z) (w : world) :
  let args := configs cuda_available (String c dir) episode_length in
  args.(num_steps) = 400 /\
  num_mini_batch = 39 /\
  num_updates_of args = Ok 1500 /\
  (outcome_of (main args) w = Ok tt ->
   Z.of_nat (updates_done (trace_of (main args) w)) = 1500 /\
   Z.of_nat (env_steps (trace_of (main args) w)) = 600000 /\
   Z.of_nat (env_steps (trace_of (main args) w)) * args.(num_processes)
     = py_int args.(num_frames) /\
   periodic_files args (trace_of (main args) w) =
     flat_map (fun i => replicate 249 (latest_name args)
                        ++ [checkpoint_name args (i * 10000000)])
       [1; 2; 3; 4; 5; 6]).
Proof.
  intros args.
  assert (Hn : num_updates_of args = Ok 1500) by reflexivity.
  split; [reflexivity|]. split; [reflexivity|]. split; [exact Hn|].
  intros Hout.
  pose proof (train_sat args w) as (_ & _ & _ & Hok).
  pose proof (train_plan args 10000000 eq_refl w) as Hplan.
  rewrite main_outcome in Hout. rewrite main_trace.
  destruct (outcome_of (train args) w) as [l'|e]; [|discriminate Hout].
  destruct (Hok l' eq_refl) as (_ & _ & n & Hn' & Hu & He).
  rewrite Hn in Hn'. injection Hn' as <-.
  change (num_steps args) with 400 in He.
  assert (Hsteps : Z.of_nat (env_steps (trace_of (train args) w)) = 600000)
    by (rewrite He, Nat2Z.inj_mul, !Z2Nat.id by lia; reflexivity).
  split; [rewrite Hu, Z2Nat.id by lia; reflexivity|].
  split; [exact Hsteps|].
  split; [rewrite Hsteps; reflexivity|].
  rewrite (Hplan l' eq_refl 1500 Hn). vm_compute. reflexivity.
Qed.

(** X17.  The metrics record of lines 337-351.  An update that runs to its
    end with more than one training reward recorded logs exactly one
    record: iteration [j + 1], [(j + 1) * num_processes * num_steps] total
    steps, the entropy, value loss and action loss that the one
    [agent.update] call of this update returned, and the two reward deques
    as the update leaves them; with at most one reward recorded it logs
    nothing. *)
Theorem metrics_record (args : config) (num_updates j : Z)
    (l l' : locals) (w : world) :
  outcome_of (update args num_updates j l) w = Ok l' ->
  exists u,
    update_results (trace_of (update args num_updates j l) w) = [u] /\
    log_records (trace_of (update args num_updates j l) w) =
      (if (1 <? Z.of_nat (length l'.(episode_rewards)))
       then [(j + 1, (j + 1) * args.(num_processes) * args.(num_steps),
              u.(ur_dist_entropy), u.(ur_value_loss), u.(ur_action_loss),
              l'.(episode_rewards), l'.(test_episode_rewards))]
       else []).
Proof.
  intros Hout. pose proof (update_sat args num_updates j l w) as H.
  rewrite Hout in H. apply update_ok in H.
  exact (completed_record _ _ _ _ _ _ H).
Qed.

(** X18.  The aggregates an update that runs to its end evaluates over the
    deque of training rewards, in order: [np.median] for the curriculum
    check whenever curriculum is enabled, [np.mean] for the specialist check
    whenever specialists are enabled (both whatever the number of recorded
    rewards, none included), and [np.mean] for the best snapshot only with
    more than one reward recorded, a second time when the snapshot is
    taken.  All of them are evaluated on the rewards the update ends
    with. *)
Theorem aggregates_of_an_update (args : config) (num_updates j : Z)
    (l l' : locals) (w : world) :
  outcome_of (update args num_updates j l) w = Ok l' ->
  aggregated (trace_of (update args num_updates j l) w) =
    (if args.(use_curriculum) then [l'.(episode_rewards)] else []) ++
    (if args.(use_specialist) then [l'.(episode_rewards)] else []) ++
    (if (1 <? Z.of_nat (length l'.(episode_rewards)))
     then if (l.(max_ep_reward) <? np_mean l'.(episode_rewards))%float
          then [l'.(episode_rewards); l'.(episode_rewards)]
          else [l'.(episode_rewards)]
     else []).
Proof.
  intros Hout. pose proof (update_sat args num_updates j l w) as H.
  rewrite Hout in H. apply update_ok in H.
  exact (proj1 (completed_aggregates _ _ _ _ _ _ H)).
Qed.

(** X19.  The value plots of lines 206-217.  A collection phase that runs
    to its end has called [pcolormesh] on [ax1] and on [ax2] and drawn the
    canvas exactly once, at its first step, when [plot_prob] is enabled and
    [num_steps] is positive, and has plotted nothing otherwise. *)
Theorem plots_of_a_collection (args : config) (l l' : locals) (w : world) :
  outcome_of (collect args l) w = Ok l' ->
  plot_axes (trace_of (collect args l) w) =
    (if args.(plot_prob) && (0 <? args.(num_steps))
     then ["ax1"; "ax2"]%string else []) /\
  draws (trace_of (collect args l) w) =
    (if args.(plot_prob) && (0 <? args.(num_steps)) then 1%nat else 0%nat).
Proof. intros Hout. exact (collect_plots args l w l' Hout). Qed.

End Coverage.

(** * Runs on the scripted collaborators *)

#[local] Existing Instance Scripted.collab.
Import Scripted.

(** [started args] is what [setup] leaves behind. *)
Lemma started_setup (args : config) (w : script) :
  args.(load_saved_controller) = false ->
  outcome_of (setup args) w = Ok (started args).
Proof.
  intros Hload. unfold setup, started. rewrite Hload.
  destruct (use_curriculum args), (use_specialist args), (plot_prob args),
    (use_threshold_sampling args); reflexivity.
Qed.

(** C1, at the failing input: curriculum and specialists enabled, one worker,
    and no training episode ending during the run, so that the reward deque
    is empty throughout.  The run ends normally; the curriculum check calls
    [np.median] and the specialist check calls [np.mean] on the empty deque
    in each of the two updates (four aggregates over [[]]), while the
    best-snapshot check and the logger do short-circuit: nothing is logged
    and nothing is saved as best. *)
Theorem empty_history_is_aggregated :
  outcome_of (main eager) waiting = Ok tt /\
  trace_of (escalate_curriculum eager (started eager)) waiting
    = [Called (NpMedian []) nan] /\
  trace_of (fork_specialist eager (started eager)) waiting
    = [Called (NpMean []) nan] /\
  aggregated (trace_of (main eager) waiting) = [[]; []; []; []] /\
  logged (trace_of (main eager) waiting) = [] /\
  saved_under (best_name eager) (trace_of (main eager) waiting) = [].
Proof. repeat split; vm_compute; reflexivity. Qed.

(** C5, at the failing input: the threshold-sampling plot enabled, one
    worker, one step per update and a budget of two frames.  [num_updates]
    is 2, yet the run raises [NameError] after one step of the environments
    and completes no update. *)
Theorem budget_cut_short :
  num_updates_of plotted = Ok 2 /\
  outcome_of (main plotted) waiting = Raise (NameError "ax") /\
  updates_done (trace_of (main plotted) waiting) = 0%nat /\
  env_steps (trace_of (main plotted) waiting) = 1%nat.
Proof. repeat split; vm_compute; reflexivity. Qed.

(** C2, the claim as stated fails: with curriculum enabled the escalation
    decision is logged between EVALUATE and ADVANTAGE, so the log of the
    update is not in the order that puts the decision with
    CHECKPOINT/ADAPT. *)
Lemma escalation_precedes_optimize :
  map phase_of (trace_of (update eager 2 0 (started eager)) waiting) =
    [Schedule; Schedule; Collect; Collect; Collect;
     Evaluate; Evaluate; Evaluate; Escalate;
     Advantage; Advantage; Optimize; Optimize; Checkpoint; Checkpoint] /\
  ~ in_order stated_rank (trace_of (update eager 2 0 (started eager)) waiting).
Proof.
  assert (Hp : map phase_of
                 (trace_of (update eager 2 0 (started eager)) waiting) =
               [Schedule; Schedule; Collect; Collect; Collect;
                Evaluate; Evaluate; Evaluate; Escalate;
                Advantage; Advantage; Optimize; Optimize;
                Checkpoint; Checkpoint])
    by (vm_compute; reflexivity).
  split; [exact Hp|]. intros H.
  pose proof (in_order_phases stated_rank _ 8 11 Escalate Optimize H) as X.
  rewrite Hp in X. specialize (X eq_refl eq_refl).
  unfold stated_rank in X. lia.
Qed.

(** C3, on a run: one worker whose first step ends an episode of return
    950; the level goes from 0 to 1 and 1 is pushed. *)
Lemma curriculum_escalation_witness :
  outcome_of (update eager 2 0 (started eager)) (ending 950)
    = Ok (left_with eager (Some 1) (Some 0) [950%float] neg_infinity) /\
  curriculum (left_with eager (Some 1) (Some 0) [950%float] neg_infinity)
    = Some 1 /\
  curriculum_pushes (trace_of (update eager 2 0 (started eager)) (ending 950))
    = [1].
Proof.
  assert (H : outcome_of (update eager 2 0 (started eager)) (ending 950)
              = Ok (left_with eager (Some 1) (Some 0) [950%float] neg_infinity))
    by (vm_compute; reflexivity).
  split; [exact H|].
  pose proof (curriculum_escalation (C := collab) eager 2 0 (started eager)
                _ (ending 950) H) as X.
  lazy beta iota delta [use_curriculum eager tuned andb episode_rewards
                        left_with np_median collab] in X.
  destruct X as (c & Hc & Hc' & Hpush).
  injection Hc as <-. split; [exact Hc'|exact Hpush].
Defined.

(** C4, the claim as stated fails: one worker whose first step ends an
    episode of return 5.  The mean of the recorded rewards, 5, is above the
    running maximum, minus infinity, yet nothing is saved as best and the
    running maximum stays: a single recorded reward does not count. *)
Lemma single_reward_is_not_best :
  outcome_of (update base 2 0 (started base)) (ending 5)
    = Ok (left_with base None None [5%float] neg_infinity) /\
  (max_ep_reward (started base) <? np_mean [5%float])%float = true /\
  saved_under (best_name base)
    (trace_of (update base 2 0 (started base)) (ending 5)) = [] /\
  max_ep_reward (left_with base None None [5%float] neg_infinity)
    = max_ep_reward (started base) /\
  ~ ((max_ep_reward (started base) <? np_mean [5%float])%float = true ->
     saved_under (best_name base)
       (trace_of (update base 2 0 (started base)) (ending 5)) = [1]).
Proof.
  assert (Hs : saved_under (best_name base)
                 (trace_of (update base 2 0 (started base)) (ending 5)) = [])
    by (vm_compute; reflexivity).
  repeat split; try (vm_compute; reflexivity).
  intros H. rewrite Hs in H. discriminate H. vm_compute. reflexivity.
Qed.

(** C4 as amended, on a run: two workers whose first step ends two episodes
    of returns 5 and 7; the parameters the update leaves are saved as best
    and the running maximum becomes the mean, 6. *)
Lemma best_snapshot_witness :
  outcome_of (update paired 2 0 (started paired)) (ending_both 5 7)
    = Ok (left_with paired None None [5%float; 7%float] 6) /\
  saved_under (best_name paired)
    (trace_of (update paired 2 0 (started paired)) (ending_both 5 7)) = [1] /\
  max_ep_reward (left_with paired None None [5%float; 7%float] 6)
    = np_mean [5%float; 7%float].
Proof.
  assert (H : outcome_of (update paired 2 0 (started paired)) (ending_both 5 7)
              = Ok (left_with paired None None [5%float; 7%float] 6))
    by (vm_compute; reflexivity).
  split; [exact H|].
  pose proof (best_snapshot (C := collab) paired 2 0 (started paired)
                _ (ending_both 5 7) H) as X.
  destruct X as [Hsave Hmax]. split; [exact Hsave|exact Hmax].
Defined.

(** C7, on a run: two workers, the first cut short by the time limit and
    done, the second neither. *)
Lemma masks_follow_step_witness :
  step_answers (trace_of (collect paired (started paired)) cut_short) !! 0%nat
    = Some (StepResult tt tt [true; false] [truncated_info; ∅]) /\
  inserted_masks (trace_of (collect paired (started paired)) cut_short) !! 0%nat
    = Some ([0%float; 1%float], [0%float; 1%float]) /\
  ([0%float; 1%float] !! 0%nat = Some 0%float <->
   is_Some (truncated_info !! "bad_transition"%string)) /\
  ([0%float; 1%float] !! 0%nat = Some 1%float <->
   truncated_info !! "bad_transition"%string = None) /\
  ([0%float; 1%float] !! 0%nat = Some 0%float <-> true = true) /\
  ([0%float; 1%float] !! 0%nat = Some 1%float <-> true = false).
Proof.
  assert (Hs : step_answers
                 (trace_of (collect paired (started paired)) cut_short) !! 0%nat
               = Some (StepResult tt tt [true; false] [truncated_info; ∅]))
    by (vm_compute; reflexivity).
  assert (Hm : inserted_masks
                 (trace_of (collect paired (started paired)) cut_short) !! 0%nat
               = Some ([0%float; 1%float], [0%float; 1%float]))
    by (vm_compute; reflexivity).
  split; [exact Hs|]. split; [exact Hm|].
  apply (masks_follow_step (C := collab) paired (started paired) cut_short
           0%nat _ _ _ 0%nat truncated_info true Hs Hm).
  - vm_compute. lia.
  - reflexivity.
  - reflexivity.
Defined.

(** C9, the claim as stated fails: with the decay type ["constant"] the rate
    handed to the optimizer is the initial rate at update 0 and at update 1
    alike, which at update 1 is neither the linear nor the exponential
    decay of it. *)
Lemma other_decay_type_keeps_rate :
  lr_settings (trace_of (update steady 2 0 (started steady)) waiting)
    = [lr steady] /\
  lr_settings (trace_of (update steady 2 1 (started steady)) waiting)
    = [lr steady] /\
  (linear_decay 1 2 (lr steady) 0 =? lr steady)%float = false /\
  (exponential_decay 1 0.99 (lr steady) 3e-5 =? lr steady)%float = false /\
  ~ (lr_settings (trace_of (update steady 2 1 (started steady)) waiting)
       = [linear_decay 1 2 (lr steady) 0] \/
     lr_settings (trace_of (update steady 2 1 (started steady)) waiting)
       = [exponential_decay 1 0.99 (lr steady) 3e-5]).
Proof.
  repeat split; try (vm_compute; reflexivity).
  intros [H|H];
    apply (f_equal (fun xs => match xs with
                              | x :: _ => (x =? lr steady)%float
                              | [] => false
                              end)) in H;
    vm_compute in H; discriminate H.
Qed.

(** C10, on a run: the threshold-sampling plot enabled, one worker, one step
    per update and a budget of two frames. *)
Lemma undefined_axes_witness :
  plot_prob plotted = true /\
  use_threshold_sampling plotted = true /\
  0 < num_steps plotted /\ 0 < num_processes plotted /\
  0 <= num_tests plotted /\
  num_steps plotted * num_processes plotted <= py_int (num_frames plotted) /\
  (forall bound, load_name bound "ax" = Raise (NameError "ax")) /\
  outcome_of (main plotted) waiting = Raise (NameError "ax") /\
  env_steps (trace_of (main plotted) waiting) = 1%nat /\
  updates_done (trace_of (main plotted) waiting) = 0%nat.
Proof.
  assert (Hs : 0 < num_steps plotted) by (vm_compute; reflexivity).
  assert (Hp : 0 < num_processes plotted) by (vm_compute; reflexivity).
  assert (Ht : 0 <= num_tests plotted) by (vm_compute; discriminate).
  assert (Hf : num_steps plotted * num_processes plotted
               <= py_int (num_frames plotted))
    by (vm_compute; discriminate).
  split; [reflexivity|]. split; [reflexivity|].
  split; [exact Hs|]. split; [exact Hp|]. split; [exact Ht|].
  split; [exact Hf|].
  exact (undefined_axes (C := collab) plotted waiting eq_refl eq_refl
           Hs Hp Ht Hf).
Defined.

(** C8, on a run: curriculum and specialists on, one worker whose first
    step ends an episode of return 950; the levels pushed start with 0. *)
Lemma counters_only_advance_witness :
  0 <= num_processes eager /\ 0 <= num_tests eager /\
  (exists more,
     curriculum_pushes (trace_of (main eager) (ending 950)) = 0 :: more) /\
  (exists more,
     specialist_pushes (trace_of (main eager) (ending 950)) = 0 :: more) /\
  counts_from_zero (curriculum_pushes (trace_of (main eager) (ending 950))) /\
  curriculum_pushes (trace_of (main eager) (ending 950)) = [0; 1; 2].
Proof.
  assert (Hp : 0 <= num_processes eager) by (vm_compute; discriminate).
  assert (Ht : 0 <= num_tests eager) by (vm_compute; discriminate).
  split; [exact Hp|]. split; [exact Ht|].
  destruct (counters_only_advance (C := collab) eager 2 0 (started eager)
              (ending 950) Hp Ht)
    as (_ & Hc & _ & Hs & _ & Zc & _).
  split; [exact (Hc eq_refl)|]. split; [exact (Hs eq_refl)|].
  split; [exact Zc|]. vm_compute. reflexivity.
Defined.

(** ** Runs for the further properties *)

(** X1, on a run: no worker, so that line 170 divides by zero. *)
Lemma zero_division_before_training_witness :
  0 <= num_processes unmanned /\ 0 <= num_tests unmanned /\
  (num_steps unmanned = 0 \/ num_processes unmanned = 0) /\
  outcome_of (main unmanned) waiting = Raise ZeroDivisionError /\
  trace_of (main unmanned) waiting = trace_of (setup unmanned) waiting /\
  env_steps (trace_of (main unmanned) waiting) = 0%nat /\
  updates_done (trace_of (main unmanned) waiting) = 0%nat.
Proof.
  assert (Hp : 0 <= num_processes unmanned) by (vm_compute; discriminate).
  assert (Ht : 0 <= num_tests unmanned) by (vm_compute; discriminate).
  assert (Hz : num_steps unmanned = 0 \/ num_processes unmanned = 0)
    by (right; reflexivity).
  split; [exact Hp|]. split; [exact Ht|]. split; [exact Hz|].
  exact (zero_division_before_training (C := collab) unmanned waiting
           Hp Ht Hz).
Defined.

(** X2, on a run: one worker and a budget of no frame. *)
Lemma budget_below_one_update_witness :
  0 < num_steps (with_frames 0 base) /\
  0 < num_processes (with_frames 0 base) /\
  0 <= num_tests (with_frames 0 base) /\
  py_int (num_frames (with_frames 0 base))
    < num_steps (with_frames 0 base) * num_processes (with_frames 0 base) /\
  outcome_of (main (with_frames 0 base)) waiting = Ok tt /\
  trace_of (main (with_frames 0 base)) waiting
    = trace_of (setup (with_frames 0 base)) waiting /\
  env_steps (trace_of (main (with_frames 0 base)) waiting) = 0%nat /\
  updates_done (trace_of (main (with_frames 0 base)) waiting) = 0%nat /\
  saves (trace_of (main (with_frames 0 base)) waiting) = [].
Proof.
  assert (Hs : 0 < num_steps (with_frames 0 base)) by reflexivity.
  assert (Hp : 0 < num_processes (with_frames 0 base)) by reflexivity.
  assert (Ht : 0 <= num_tests (with_frames 0 base))
    by (vm_compute; discriminate).
  assert (Hf : py_int (num_frames (with_frames 0 base))
               < num_steps (with_frames 0 base)
                 * num_processes (with_frames 0 base)) by reflexivity.
  split; [exact Hs|]. split; [exact Hp|]. split; [exact Ht|].
  split; [exact Hf|].
  exact (budget_below_one_update (C := collab) (with_frames 0 base) waiting
           Hs Hp Ht Hf).
Defined.

(** X3, on a run: one worker, a budget of two frames. *)
Lemma frames_within_budget_witness :
  0 < num_steps base /\ 0 < num_processes base /\ 0 <= num_tests base /\
  (0 <= num_frames base)%Q /\
  (inject_Z (Z.of_nat (env_steps (trace_of (main base) waiting))
             * num_processes base) <= num_frames base)%Q /\
  (outcome_of (main base) waiting = Ok tt ->
   Z.of_nat (updates_done (trace_of (main base) waiting)) =
     Qfloor (num_frames base / inject_Z (num_steps base)
             / inject_Z (num_processes base)) /\
   Z.of_nat (env_steps (trace_of (main base) waiting)) =
     Qfloor (num_frames base / inject_Z (num_steps base)
             / inject_Z (num_processes base)) * num_steps base).
Proof.
  assert (Hs : 0 < num_steps base) by reflexivity.
  assert (Hp : 0 < num_processes base) by reflexivity.
  assert (Ht : 0 <= num_tests base) by (vm_compute; discriminate).
  assert (Hf : (0 <= num_frames base)%Q) by (vm_compute; discriminate).
  split; [exact Hs|]. split; [exact Hp|]. split; [exact Ht|].
  split; [exact Hf|].
  exact (frames_within_budget (C := collab) base waiting Hs Hp Ht Hf).
Defined.

(** X4, on a run: one worker whose first step ends an episode of return
    1500; the specialist index goes from 0 to 1 and 1 is pushed. *)
Lemma specialist_fork_witness :
  outcome_of (update eager 2 0 (started eager)) (ending 1500)
    = Ok (left_with eager (Some 1) (Some 1) [1500%float] neg_infinity) /\
  specialist (left_with eager (Some 1) (Some 1) [1500%float] neg_infinity)
    = Some 1 /\
  specialist_pushes (trace_of (update eager 2 0 (started eager)) (ending 1500))
    = [1].
Proof.
  assert (H : outcome_of (update eager 2 0 (started eager)) (ending 1500)
              = Ok (left_with eager (Some 1) (Some 1) [1500%float]
                      neg_infinity))
    by (vm_compute; reflexivity).
  split; [exact H|].
  pose proof (specialist_fork (C := collab) eager 2 0 (started eager)
                _ (ending 1500) H) as X.
  destruct X as (s & Hs & Hs' & Hpush).
  injection Hs as <-. split; [exact Hs'|exact Hpush].
Defined.

(** X5, on a run: two workers with specialists on, whose first step ends
    two episodes of returns 1500 and 1700; the update writes the specialist
    snapshot 0, the latest checkpoint and the best snapshot. *)
Lemma files_of_an_update_witness :
  outcome_of (update forked 2 0 (started forked)) (ending_both 1500 1700)
    = Ok (left_with forked None (Some 1) [1500%float; 1700%float] 1600) /\
  saves (trace_of (update forked 2 0 (started forked)) (ending_both 1500 1700))
    = [(1, "models", "CassieStepper-v1_specialist_0.pt");
       (1, "models", "CassieStepper-v1_latest.pt");
       (1, "models", "CassieStepper-v1_best.pt")]%string.
Proof.
  assert (H : outcome_of (update forked 2 0 (started forked))
                (ending_both 1500 1700)
              = Ok (left_with forked None (Some 1)
                      [1500%float; 1700%float] 1600))
    by (vm_compute; reflexivity).
  split; [exact H|].
  exact (files_of_an_update (C := collab) forked 2 0 (started forked)
           _ (ending_both 1500 1700) H).
Defined.

(** X6, on a run: the last of two updates writes the numbered checkpoint
    10 and moves the next checkpoint from 10 to 20. *)
Lemma checkpoint_naming_witness :
  outcome_of (update base 2 1 (started base)) waiting
    = Ok (set_next_checkpoint 20
            (set_agent_optimizer (exponential 1 0.99 0.0003 3e-5)
               (left_with base None None [] neg_infinity))) /\
  next_checkpoint (started base) = inject_Z 10 /\
  save_every base = inject_Z 10 /\
  Z.abs 10 <= 2 ^ 53 /\ Z.abs (10 + 10) <= 2 ^ 53 /\
  periodic_files base (trace_of (update base 2 1 (started base)) waiting)
    = [checkpoint_name base 10] /\
  checkpoint_name base 10 = "CassieStepper-v1_10.pt"%string /\
  next_checkpoint
    (set_next_checkpoint 20
       (set_agent_optimizer (exponential 1 0.99 0.0003 3e-5)
          (left_with base None None [] neg_infinity)))
    = inject_Z (10 + 10).
Proof.
  assert (H : outcome_of (update base 2 1 (started base)) waiting
              = Ok (set_next_checkpoint 20
                      (set_agent_optimizer (exponential 1 0.99 0.0003 3e-5)
                         (left_with base None None [] neg_infinity))))
    by (vm_compute; reflexivity).
  assert (Hm : next_checkpoint (started base) = inject_Z 10) by reflexivity.
  assert (Hk : save_every base = inject_Z 10) by reflexivity.
  assert (B1 : Z.abs 10 <= 2 ^ 53) by (vm_compute; discriminate).
  assert (B2 : Z.abs (10 + 10) <= 2 ^ 53) by (vm_compute; discriminate).
  split; [exact H|]. split; [exact Hm|]. split; [exact Hk|].
  split; [exact B1|]. split; [exact B2|].
  destruct (checkpoint_naming (C := collab) base 2 1 (started base)
              _ waiting 10 10 H Hm Hk B1 B1 B2) as [Hdue _].
  destruct Hdue as (Hp & _ & Hn); [split; [right; reflexivity|discriminate]|].
  split; [exact Hp|]. split; [reflexivity|exact Hn].
Defined.

(** X7, on a run: two workers whose first step ends two episodes of
    returns 5 and 7. *)
Lemma reward_history_witness :
  0 <= num_processes paired /\
  (length (episode_rewards (started paired))
   <= Z.to_nat (num_processes paired))%nat /\
  outcome_of (collect paired (started paired)) (ending_both 5 7)
    = Ok (set_rollouts 1%nat
            (set_episode_rewards [5%float; 7%float] (started paired))) /\
  episode_rewards
    (set_rollouts 1%nat
       (set_episode_rewards [5%float; 7%float] (started paired)))
    = drop (length (episode_rewards (started paired)
                    ++ flat_map (fun sr => returns_of (sr_infos sr))
                         (step_answers
                            (trace_of (collect paired (started paired))
                               (ending_both 5 7))))
            - Z.to_nat (num_processes paired))
        (episode_rewards (started paired)
         ++ flat_map (fun sr => returns_of (sr_infos sr))
              (step_answers
                 (trace_of (collect paired (started paired))
                    (ending_both 5 7)))) /\
  flat_map (fun sr => returns_of (sr_infos sr))
    (step_answers (trace_of (collect paired (started paired))
                     (ending_both 5 7)))
    = [5%float; 7%float].
Proof.
  assert (Hp : 0 <= num_processes paired) by (vm_compute; discriminate).
  assert (Hl : (length (episode_rewards (started paired))
                <= Z.to_nat (num_processes paired))%nat)
    by (vm_compute; lia).
  assert (H : outcome_of (collect paired (started paired)) (ending_both 5 7)
              = Ok (set_rollouts 1%nat
                      (set_episode_rewards [5%float; 7%float]
                         (started paired))))
    by (vm_compute; reflexivity).
  split; [exact Hp|]. split; [exact Hl|]. split; [exact H|].
  destruct (reward_history (C := collab) paired (started paired) _
              (ending_both 5 7) Hp Hl H) as (Hrw & _ & _).
  split; [exact Hrw|].
  vm_compute. reflexivity.
Defined.

(** X9, on a run: one worker whose first step reports an ["episode"] entry
    that is no dictionary. *)
Lemma exceptions_of_a_run_witness :
  0 <= num_processes base /\ 0 <= num_tests base /\
  save_every base = inject_Z 10 /\
  (forall n, num_updates_of base = Ok n ->
             (Z.max n 0 + 1) * Z.abs 10 <= 2 ^ 53) /\
  outcome_of (main base) malformed = Raise TypeError /\
  (forall x, TypeError <> UnboundLocalError x).
Proof.
  assert (Hp : 0 <= num_processes base) by (vm_compute; discriminate).
  assert (Ht : 0 <= num_tests base) by (vm_compute; discriminate).
  assert (Hk : save_every base = inject_Z 10) by reflexivity.
  assert (Hb : forall n, num_updates_of base = Ok n ->
                         (Z.max n 0 + 1) * Z.abs 10 <= 2 ^ 53)
    by (intros n Hn; vm_compute in Hn; injection Hn as <-;
        vm_compute; discriminate).
  assert (H : outcome_of (main base) malformed = Raise TypeError)
    by (vm_compute; reflexivity).
  split; [exact Hp|]. split; [exact Ht|]. split; [exact Hk|].
  split; [exact Hb|]. split; [exact H|].
  exact (proj2 (exceptions_of_a_run (C := collab) base malformed TypeError 10
                  Hp Ht Hk Hb H)).
Defined.

(** X10, on a run: one worker whose first step ends an episode. *)
Lemma single_worker_never_logs_witness :
  0 <= num_processes base <= 1 /\ 0 <= num_tests base /\
  logged (trace_of (main base) (ending 5)) = [] /\
  saved_under (best_name base) (trace_of (main base) (ending 5)) = [].
Proof.
  assert (Hp : 0 <= num_processes base <= 1)
    by (split; vm_compute; discriminate).
  assert (Ht : 0 <= num_tests base) by (vm_compute; discriminate).
  split; [exact Hp|]. split; [exact Ht|].
  exact (single_worker_never_logs (C := collab) base (ending 5) Hp Ht).
Defined.

(** X12, on a run: two updates, the rates of the indices 0 and 1. *)
Lemma learning_rates_of_a_run_witness :
  0 <= num_processes base /\ 0 <= num_tests base /\
  num_updates_of base = Ok 2 /\
  exists k, (k <= Z.to_nat 2)%nat /\
    lr_settings (trace_of (main base) waiting) =
      map (fun j => scheduled_lr base 2 (Z.of_nat j)) (seq 0 k) /\
    (outcome_of (main base) waiting = Ok tt -> k = Z.to_nat 2).
Proof.
  assert (Hp : 0 <= num_processes base) by (vm_compute; discriminate).
  assert (Ht : 0 <= num_tests base) by (vm_compute; discriminate).
  assert (Hn : num_updates_of base = Ok 2) by reflexivity.
  split; [exact Hp|]. split; [exact Ht|]. split; [exact Hn|].
  exact (learning_rates_of_a_run (C := collab) base waiting 2 Hp Ht Hn).
Defined.

(** X13, on a run: adaptive and threshold sampling on, the plot off; each
    block probes the states it was given and two tables are sent in the
    step. *)
Lemma sampling_of_a_step_witness :
  outcome_of (collect_step sampled 0 (started sampled)) waiting
    = Ok (set_rollouts 1%nat (started sampled)) /\
  exists plotting adaptive threshold,
    sampling_events (trace_of (collect_step sampled 0 (started sampled))
                       waiting)
      = plotting ++ adaptive ++ threshold /\
    plotting = [] /\
    (exists ts v,
       adaptive
       = [Made ts; Probed (actor_critic (started sampled)) ts v;
          Pushed (adaptive_probs v (num_processes sampled))]) /\
    (exists ts v thr,
       sampling_threshold (started sampled) = Some thr /\
       threshold
       = [Made ts; Probed (actor_critic (started sampled)) ts v;
          Pushed (threshold_probs v thr (num_processes sampled))]).
Proof.
  assert (H : outcome_of (collect_step sampled 0 (started sampled)) waiting
              = Ok (set_rollouts 1%nat (started sampled)))
    by (vm_compute; reflexivity).
  split; [exact H|].
  exact (sampling_of_a_step (C := collab) sampled 0 (started sampled) _
           waiting H).
Defined.

(** X15, on a run: two updates; the first writes the latest checkpoint, the
    last the numbered one. *)
Lemma checkpoint_plan_followed_witness :
  0 <= num_processes base /\ 0 <= num_tests base /\
  save_every base = inject_Z 10 /\
  0 <= 10 /\ (Z.max 2 0 + 1) * 10 <= 2 ^ 53 /\
  num_updates_of base = Ok 2 /\
  outcome_of (main base) waiting = Ok tt /\
  periodic_files base (trace_of (main base) waiting)
    = checkpoint_plan base 2 10 /\
  length (checkpoint_plan base 2 10) = Z.to_nat 2 /\
  checkpoint_plan base 2 10
    = ["CassieStepper-v1_latest.pt"; "CassieStepper-v1_10.pt"]%string.
Proof.
  assert (Hp : 0 <= num_processes base) by (vm_compute; discriminate).
  assert (Ht : 0 <= num_tests base) by (vm_compute; discriminate).
  assert (Hk : save_every base = inject_Z 10) by reflexivity.
  assert (H0 : 0 <= 10) by (vm_compute; discriminate).
  assert (Hb : (Z.max 2 0 + 1) * 10 <= 2 ^ 53) by (vm_compute; discriminate).
  assert (Hn : num_updates_of base = Ok 2) by reflexivity.
  assert (H : outcome_of (main base) waiting = Ok tt)
    by (vm_compute; reflexivity).
  split; [exact Hp|]. split; [exact Ht|]. split; [exact Hk|].
  split; [exact H0|]. split; [exact Hb|]. split; [exact Hn|].
  split; [exact H|].
  destruct (checkpoint_plan_followed (C := collab) base waiting 2 10
              Hp Ht Hk H0 Hb Hn H) as [Hplan Hlen].
  split; [exact Hplan|]. split; [exact Hlen|].
  vm_compute. reflexivity.
Defined.

(** X17, on a run: two workers whose first step ends two episodes; the
    record of the first update. *)
Lemma metrics_record_witness :
  outcome_of (update paired 2 0 (started paired)) (ending_both 5 7)
    = Ok (left_with paired None None [5%float; 7%float] 6) /\
  exists u,
    update_results (trace_of (update paired 2 0 (started paired))
                      (ending_both 5 7)) = [u] /\
    log_records (trace_of (update paired 2 0 (started paired))
                   (ending_both 5 7)) =
      [(1, 2, ur_dist_entropy u, ur_value_loss u, ur_action_loss u,
        [5%float; 7%float], [])].
Proof.
  assert (H : outcome_of (update paired 2 0 (started paired)) (ending_both 5 7)
              = Ok (left_with paired None None [5%float; 7%float] 6))
    by (vm_compute; reflexivity).
  split; [exact H|].
  exact (metrics_record (C := collab) paired 2 0 (started paired) _
           (ending_both 5 7) H).
Defined.

(** X18, on a run: two workers with curriculum and specialists on, whose
    first step ends two episodes; four aggregates over the two rewards. *)
Lemma aggregates_of_an_update_witness :
  outcome_of (update keen 2 0 (started keen)) (ending_both 1500 1700)
    = Ok (left_with keen (Some 1) (Some 1) [1500%float; 1700%float] 1600) /\
  aggregated (trace_of (update keen 2 0 (started keen)) (ending_both 1500 1700))
    = [[1500%float; 1700%float]; [1500%float; 1700%float];
       [1500%float; 1700%float]; [1500%float; 1700%float]].
Proof.
  assert (H : outcome_of (update keen 2 0 (started keen))
                (ending_both 1500 1700)
              = Ok (left_with keen (Some 1) (Some 1)
                      [1500%float; 1700%float] 1600))
    by (vm_compute; reflexivity).
  split; [exact H|].
  exact (aggregates_of_an_update (C := collab) keen 2 0 (started keen) _
           (ending_both 1500 1700) H).
Defined.

(** X19, on a run: the value plot on, one step. *)
Lemma plots_of_a_collection_witness :
  outcome_of (collect drawn (started drawn)) waiting
    = Ok (set_rollouts 1%nat (started drawn)) /\
  plot_axes (trace_of (collect drawn (started drawn)) waiting)
    = ["ax1"; "ax2"]%string /\
  draws (trace_of (collect drawn (started drawn)) waiting) = 1%nat.
Proof.
  assert (H : outcome_of (collect drawn (started drawn)) waiting
              = Ok (set_rollouts 1%nat (started drawn)))
    by (vm_compute; reflexivity).
  split; [exact H|].
  exact (plots_of_a_collection (C := collab) drawn (started drawn) _
           waiting H).
Defined.
